(** * SVAE: a shallow embedding of [src/models/SVAE.py]

    The definitions come first, one module per part of the Python module:

    - [Py]       : the pieces of Python and numpy behaviour the code relies
                   on (exceptions, floor division, slices, row selection);
    - [TopK]     : [recommend_k_items], shared by [Metrics] and
                   [StandardVAE];
    - [Ranking]  : [get_top_k_items], [merge_ranking_true_pred] and
                   [ndcg_at_k];
    - [Callback] : the [Metrics] callback and its [on_epoch_end];
    - [Loss]     : [StandardVAE._get_vae_loss];
    - [VAE]      : [StandardVAE.__init__], [nn_batch_generator] and [fit];
    - [Sample]   : concrete inputs;
    - [History]  : the [LossHistory] callback;
    - [Sampling] : [StandardVAE._take_sample];
    - [Batches]  : repeated draws from the batch generator;
    - [Mapper]   : a mapper for the sample runs of [Metrics.on_epoch_end];
    - [Stages]   : the local tables of [merge_ranking_true_pred], by name.

    The properties follow, in the order of the modules, and after them
    further properties of the same functions.

    Scores and ratings are rationals ([Q]).  Quantities that go through
    [log] and [exp] (the discounted gains, the loss, the sample) are real
    numbers ([R]): their machine rounding is not modelled, and what is
    proved of them is proved of the exact values.  The floats of the
    constructor are binary64 numbers, given by their values and rounded as
    the machine rounds them.  The Keras model, the mapper and numpy's
    random generator are parameters of the sections that use them. *)

From Stdlib Require Import String.
From Stdlib Require Import List Arith ZArith QArith Qround Qabs Bool Lia.
From Stdlib Require Import Permutation Sorted.
From Stdlib Require Import Reals Lra.
Import ListNotations.

(* ================================================================= *)
(** * Python values and exceptions *)

Declare Scope py_scope.
Delimit Scope py_scope with py.

Module Py.

(** The exceptions that the modelled code can raise. *)
Inductive Exception : Type :=
| ZeroDivisionError
| OverflowError (msg : string)
| NotImplementedError (msg : string)
| ValueError (msg : string)
| TypeError (msg : string)
| IndexError (msg : string).

(** A call either returns a value or raises. *)
Inductive result (A : Type) : Type :=
| Ok (a : A)
| Raise (e : Exception).
Arguments Ok {A} a.
Arguments Raise {A} e.

Definition bind {A B} (m : result A) (f : A -> result B) : result B :=
  match m with
  | Ok a => f a
  | Raise e => Raise e
  end.

Definition returns {A} (m : result A) : Prop := exists a, m = Ok a.
Definition raises {A} (m : result A) : Prop := exists e, m = Raise e.

(** [a // b] on integers: floor division, which is [Z.div]. *)
Definition floordiv (a b : Z) : result Z :=
  if Z.eqb b 0 then Raise ZeroDivisionError else Ok (a / b)%Z.

(** [int(q)]: truncation toward zero. *)
Definition int_ (q : Q) : Z := Z.quot (Qnum q) (Zpos (Qden q)).

(** ** Floats

    A finite float is given by its value, a rational.  A float argument
    may be written as any rational, as a literal is: it denotes the
    binary64 number nearest to it, which [binary64] computes. *)

(** [floor(log2 q)] for a positive rational. *)
Definition Qlog2 (q : Q) : Z :=
  let t := (Z.log2 (Qnum q) - Z.log2 (Zpos (Qden q)))%Z in
  if Qle_bool (2 ^ t)%Q q then t else (t - 1)%Z.

(** Rounding to the nearest integer, a half to the even one. *)
Definition round_half_even (q : Q) : Z :=
  let f := Qfloor q in
  match (q - inject_Z f ?= 1 # 2)%Q with
  | Lt => f
  | Gt => (f + 1)%Z
  | Eq => if Z.even f then f else (f + 1)%Z
  end.

(** The binary64 number nearest to [q]: a mantissa of 53 bits, a half
    rounded to the even mantissa, exponents from [-1074] on.  The exponent
    is not bounded above here; [to_float] sees to that. *)
Definition binary64 (q : Q) : Q :=
  if Qeq_bool q 0 then 0
  else
    let e := Z.max (Qlog2 (Qabs q) - 52) (-1074) in
    (inject_Z (round_half_even (q / 2 ^ e)) * 2 ^ e)%Q.

(** The result of a float operation: finite, or infinite when the rounded
    value reaches [2^1024]. *)
Inductive float : Type :=
| Finite (q : Q)
| Infinite (negative : bool).

Definition Qnegative (q : Q) : bool := negb (Qle_bool 0 q).

Definition to_float (q : Q) : float :=
  let r := binary64 q in
  if Qle_bool (2 ^ 1024)%Q (Qabs r) then Infinite (Qnegative q)
  else Finite r.

(** [float(a)] raises for an integer that rounds to [2^1024] or beyond,
    which the integers from [2^1024 - 2^970] on do. *)
Definition float_of_int_overflows (a : Z) : bool :=
  (2 ^ 1024 - 2 ^ 970 <=? Z.abs a)%Z.

Definition float_of_int (a : Z) : result Q :=
  if float_of_int_overflows a
  then Raise (OverflowError "int too large to convert to float")
  else Ok (binary64 (inject_Z a)).

(** [vx // wx] on finite floats with [wx] not 0, as the interpreter
    computes it: the remainder [fmod(vx, wx)] is exact, the quotient
    [(vx - mod) / wx] is rounded, lowered by 1 when the remainder and the
    divisor differ in sign, and then brought to the nearest integer. *)
Definition float_floor_div (vx wx : Q) : float :=
  let mod_ := (vx - wx * inject_Z (int_ (vx / wx)))%Q in
  match to_float (binary64 (vx - mod_) / wx)%Q with
  | Infinite s => Infinite s
  | Finite div =>
      let div :=
        if negb (Qeq_bool mod_ 0)
           && negb (Bool.eqb (Qnegative wx) (Qnegative mod_))
        then binary64 (div - 1)%Q else div in
      if Qeq_bool div 0 then Finite 0
      else
        let floordiv := inject_Z (Qfloor div) in
        if Qnegative ((1 # 2) - (div - floordiv))%Q
        then Finite (binary64 (floordiv + 1)%Q) else Finite floordiv
  end.

(** [a // b] with an integer [a] and a float [b]: the integer is converted
    first, then the divisor is tested. *)
Definition floordiv_float (a : Z) (b : Q) : result float :=
  bind (float_of_int a)
       (fun vx =>
          let wx := binary64 b in
          if Qeq_bool wx 0 then Raise ZeroDivisionError
          else Ok (float_floor_div vx wx)).

(** A slice bound brought into [0 .. len]; a negative bound counts from the
    end. *)
Definition slice_bound (len i : Z) : Z :=
  if Z.ltb i 0 then Z.max 0 (i + len) else Z.min i len.

(** [l[a:b]] *)
Definition slice {A} (l : list A) (a b : Z) : list A :=
  let len := Z.of_nat (List.length l) in
  let a' := slice_bound len a in
  let b' := slice_bound len b in
  firstn (Z.to_nat (b' - a')) (skipn (Z.to_nat a') l).

(** [m[idx, :]] with a list of row numbers; a row number past the end
    raises [IndexError]. *)
Fixpoint take_rows {A} (m : list A) (idx : list nat) : result (list A) :=
  match idx with
  | [] => Ok []
  | i :: idx' =>
      match nth_error m i with
      | Some r => bind (take_rows m idx') (fun rest => Ok (r :: rest))
      | None => Raise (IndexError "index is out of bounds for axis 0")
      end
  end.

End Py.

Import Py.

Notation "x <- m ;; k" := (Py.bind m (fun x => k))
  (at level 61, m at next level, right associativity) : py_scope.
Open Scope py_scope.

(* ================================================================= *)
(** * Top-k selection: [recommend_k_items]

    [Metrics.recommend_k_items] and [StandardVAE.recommend_k_items] have the
    same body, which is modelled once. *)

Module TopK.

(** A two-dimensional numpy array: its shape and its entries. *)
Record ndarray : Type := mk_ndarray {
  n_rows : nat;
  n_cols : nat;
  at_ : nat -> nat -> Q
}.

Definition shape (a : ndarray) : nat * nat := (n_rows a, n_cols a).
Definition size (a : ndarray) : nat := (n_rows a * n_cols a)%nat.

Definition same_shape (a b : ndarray) : bool :=
  Nat.eqb (n_rows a) (n_rows b) && Nat.eqb (n_cols a) (n_cols b).

(** Row [i] of [a] as a list. *)
Definition row (a : ndarray) (i : nat) : list Q :=
  map (at_ a i) (seq 0 (n_cols a)).

Definition of_rows (c : nat) (rs : list (list Q)) : ndarray :=
  mk_ndarray (List.length rs) c (fun i j => nth j (nth i rs []) 0%Q).

(** [np.not_equal(x, 0)] at one position. *)
Definition not_equal_0 (x : ndarray) (i j : nat) : bool :=
  negb (Qeq_bool (at_ x i j) 0).

(** [score[seen_mask] = 0]: a boolean mask must have the shape of the
    array it indexes, otherwise numpy raises [IndexError]. *)
Definition mask_assign_0 (score x : ndarray) : result ndarray :=
  if same_shape score x then
    Ok (mk_ndarray (n_rows score) (n_cols score)
          (fun i j => if not_equal_0 x i j then 0%Q else at_ score i j))
  else Raise (IndexError "boolean index did not match indexed array").

(** [-score] *)
Definition neg (a : ndarray) : ndarray :=
  mk_ndarray (n_rows a) (n_cols a) (fun i j => Qopp (at_ a i j)).

(** Ascending insertion of an (index, key) pair; an entry goes in front of
    the entries whose key is not smaller, so that among equal keys the
    lower column index comes first. *)
Fixpoint insert_asc (p : nat * Q) (l : list (nat * Q)) : list (nat * Q) :=
  match l with
  | [] => [p]
  | q :: l' =>
      if Qle_bool (snd p) (snd q) then p :: q :: l'
      else q :: insert_asc p l'
  end.

Definition sort_asc (l : list (nat * Q)) : list (nat * Q) :=
  fold_right insert_asc [] l.

(** The column indices of a row in ascending order of the row's values. *)
Definition argsort (r : list Q) : list nat :=
  map fst (sort_asc (combine (seq 0 (List.length r)) r)).

(** [np.argpartition(a, range(k), axis=1)[:, :k]].

    - [range(0)] converts to an empty array of floats, which numpy refuses as
      a partition index ([TypeError]);
    - on a non-empty array every [kth] must be below the number of columns,
      otherwise numpy raises [ValueError]; an empty array is returned as is;
    - with [kth = 0 .. k-1] the first [k] positions of each row hold the
      indices of the [k] smallest values in sorted order.  numpy does not
      fix the order among equal values; the model takes the lower index
      first. *)
Definition argpartition_range (a : ndarray) (k : nat)
  : result (nat -> list nat) :=
  if Nat.eqb k 0 then Raise (TypeError "Partition index must be integer")
  else if Nat.eqb (size a) 0 then
    Ok (fun _ => firstn k (seq 0 (n_cols a)))
  else if Nat.ltb (n_cols a) k then Raise (ValueError "kth out of bounds")
  else Ok (fun i => firstn k (argsort (row a i))).

(** [score_c[np.arange(n)[:, None], top_items] = 0] on a copy of [score]. *)
Definition zero_at (score : ndarray) (top_items : nat -> list nat) : ndarray :=
  mk_ndarray (n_rows score) (n_cols score)
    (fun i j => if existsb (Nat.eqb j) (top_items i) then 0%Q
                else at_ score i j).

(** [score - score_c] *)
Definition sub (a b : ndarray) : ndarray :=
  mk_ndarray (n_rows a) (n_cols a) (fun i j => (at_ a i j - at_ b i j)%Q).

(** The body of [recommend_k_items] after [score = self.model.predict(x)]. *)
Definition recommend_from_score (score x : ndarray) (k : nat)
           (remove_seen : bool) : result ndarray :=
  score <- (if remove_seen then mask_assign_0 score x else Ok score) ;;
  top_items <- argpartition_range (neg score) k ;;
  let score_c := zero_at score top_items in
  let top_scores := sub score score_c in
  Ok top_scores.

Section WithModel.
(** [self.model.predict], the forward pass of the network. *)
Variable predict : ndarray -> ndarray.

Definition recommend_k_items (x : ndarray) (k : nat) (remove_seen : bool)
  : result ndarray :=
  recommend_from_score (predict x) x k remove_seen.
End WithModel.

(** The scores from which the top [k] are taken: the prediction, with the
    seen positions set to 0 when [remove_seen] holds. *)
Definition masked_score (score x : ndarray) (remove_seen : bool)
           (i j : nat) : Q :=
  if remove_seen && not_equal_0 x i j then 0%Q else at_ score i j.

(** Sample data: one user, two items. *)
Definition score_1x2 : ndarray := of_rows 2 [[1#2; 3#10]%Q].
Definition clicks_1x2 : ndarray := of_rows 2 [[1; 0]%Q].
Definition zeros_2x3 : ndarray := of_rows 3 [[0; 0; 0]; [0; 0; 0]]%Q.
Definition score_2x3 : ndarray :=
  of_rows 3 [[1#10; 6#10; 3#10]; [5#10; 5#10; 0]]%Q.
Definition clicks_2x3 : ndarray := of_rows 3 [[0; 1; 0]; [0; 0; 1]]%Q.

End TopK.

(* ================================================================= *)
(** * Ranking evaluation: [get_top_k_items], [merge_ranking_true_pred],
      [ndcg_at_k] *)

Module Ranking.

(** One row of a rating or prediction table: the columns [userId],
    [movieId] and [rating] (or [prediction]). *)
Record rating : Type := mk_rating {
  user : nat;
  item : nat;
  value : Q
}.

Definition DataFrame : Type := list rating.

(** A row of the table returned by [get_top_k_items]. *)
Record ranked : Type := mk_ranked {
  row_of : rating;
  rank : nat
}.

(** A row [(userId, movieId, rank)] of [df_hit]. *)
Record hit : Type := mk_hit {
  h_user : nat;
  h_item : nat;
  h_rank : nat
}.

(** A row [(userId, hit, actual)] of [df_hit_count]. *)
Record hit_count : Type := mk_hit_count {
  c_user : nat;
  c_hit : nat;
  c_actual : nat
}.

Definition DEFAULT_K : nat := 10.
Definition DEFAULT_THRESHOLD : nat := 10.

(** [relevancy_method]: [None] or a string. *)
Definition relevancy : Type := option string.
Definition top_k_method : relevancy := Some "top_k"%string.
Definition by_threshold_method : relevancy := Some "by_threshold"%string.

Definition mem (u : nat) (l : list nat) : bool := existsb (Nat.eqb u) l.

(** The distinct elements of a list, in order of first appearance. *)
Fixpoint unique (l : list nat) : list nat :=
  match l with
  | [] => []
  | u :: l' => u :: filter (fun v => negb (Nat.eqb v u)) (unique l')
  end.

(** Insertion into an increasing list without repetition. *)
Fixpoint insert_key (u : nat) (l : list nat) : list nat :=
  match l with
  | [] => [u]
  | v :: l' =>
      if Nat.ltb u v then u :: v :: l'
      else if Nat.eqb u v then v :: l'
      else v :: insert_key u l'
  end.

(** The group keys of [groupby(col_user)]: distinct and increasing. *)
Definition group_keys (l : list nat) : list nat :=
  fold_right insert_key [] l.

Definition rows_of_user {A} (key : A -> nat) (u : nat) (df : list A) : list A :=
  filter (fun r => Nat.eqb (key r) u) df.

(** Descending insertion by [value]; a row goes in front of the rows whose
    value is not larger, so that equal values keep their original order
    ([keep='first']). *)
Fixpoint insert_desc (r : rating) (l : list rating) : list rating :=
  match l with
  | [] => [r]
  | q :: l' =>
      if Qle_bool (value q) (value r) then r :: q :: l'
      else q :: insert_desc r l'
  end.

Definition sort_desc (l : list rating) : list rating :=
  fold_right insert_desc [] l.

(** [x.nlargest(k, col_rating)] *)
Definition nlargest (k : nat) (x : list rating) : list rating :=
  firstn k (sort_desc x).

(** [groupby(col_user, sort=False).cumcount() + 1]: the position of a row
    among the rows of its user; [seen] lists the users of the rows
    before. *)
Fixpoint add_ranks (seen : list nat) (df : list rating) : list ranked :=
  match df with
  | [] => []
  | r :: df' =>
      mk_ranked r (count_occ Nat.eq_dec seen (user r) + 1)
        :: add_ranks (user r :: seen) df'
  end.

(** Whether two lists hold the same rows, each in its place. *)
Definition same_row (a b : rating) : bool :=
  Nat.eqb (user a) (user b) && Nat.eqb (item a) (item b)
  && Z.eqb (Qnum (value a)) (Qnum (value b))
  && Pos.eqb (Qden (value a)) (Qden (value b)).

Fixpoint same_rows (l1 l2 : list rating) : bool :=
  match l1, l2 with
  | [], [] => true
  | a :: l1', b :: l2' => same_row a b && same_rows l1' l2'
  | _, _ => false
  end.

(** [dataframe.groupby(col_user, as_index=False)
              .apply(lambda x: x.nlargest(k, col_rating))
              .reset_index(drop=True)]

    [apply] calls the function on the groups in the order of their keys and
    compares the index of each result with the index of its group.  When
    some result differs from its group (rows dropped or moved), the results
    are concatenated in the order of the keys.  When every result is its
    group as it was, pandas (before 2.0) puts the rows back in the order of
    the table.  [nlargest] returns rows of the group and leaves rows with
    equal values in their order, so the result has the index of the group
    exactly when it has its rows, each in its place. *)
Definition groupby_apply_nlargest (dataframe : DataFrame) (k : nat)
  : DataFrame :=
  let keys := group_keys (map user dataframe) in
  if forallb (fun u => same_rows (nlargest k (rows_of_user user u dataframe))
                                 (rows_of_user user u dataframe)) keys
  then dataframe
  else flat_map (fun u => nlargest k (rows_of_user user u dataframe)) keys.

Definition get_top_k_items (dataframe : DataFrame) (k : option nat)
  : list ranked :=
  let top_k_items :=
    match k with
    | None => dataframe
    | Some k => groupby_apply_nlargest dataframe k
    end in
  add_ranks [] top_k_items.

(** [pd.merge(df_hit, rating_true_common, on=[col_user, col_item])]
    restricted to the columns [col_user], [col_item] and [rank]. *)
Definition merge_hits (top : list ranked) (truth : DataFrame) : list hit :=
  flat_map
    (fun p =>
       map (fun _ => mk_hit (user (row_of p)) (item (row_of p)) (rank p))
           (filter (fun t => Nat.eqb (user t) (user (row_of p))
                             && Nat.eqb (item t) (item (row_of p))) truth))
    top.

(** [df.groupby(col_user, as_index=False)[col_user].agg({name: "count"})] *)
Definition count_by_user {A} (key : A -> nat) (df : list A)
  : list (nat * nat) :=
  map (fun u => (u, List.length (rows_of_user key u df)))
      (group_keys (map key df)).

(** [pd.merge(hits, actuals, on=col_user)] *)
Definition merge_counts (hits actuals : list (nat * nat)) : list hit_count :=
  flat_map
    (fun h =>
       map (fun a => mk_hit_count (fst h) (snd h) (snd a))
           (filter (fun a => Nat.eqb (fst a) (fst h)) actuals))
    hits.

Definition merge_ranking_true_pred
           (rating_true rating_pred : DataFrame)
           (relevancy_method : relevancy) (k threshold : nat)
  : result (list hit * list hit_count * nat) :=
  let common_users :=
    unique (filter (fun u => mem u (map user rating_pred))
                   (map user rating_true)) in
  let rating_true_common :=
    filter (fun r => mem (user r) common_users) rating_true in
  let rating_pred_common :=
    filter (fun r => mem (user r) common_users) rating_pred in
  let n_users := List.length common_users in
  top_k <-
    match relevancy_method with
    | None => Ok None
    | Some m =>
        if String.eqb m "top_k" then Ok (Some k)
        else if String.eqb m "by_threshold" then Ok (Some threshold)
        else Raise (NotImplementedError "Invalid relevancy_method")
    end ;;
  let df_hit := get_top_k_items rating_pred_common top_k in
  let df_hit := merge_hits df_hit rating_true_common in
  let df_hit_count :=
    merge_counts (count_by_user h_user df_hit)
                 (count_by_user user rating_true_common) in
  Ok (df_hit, df_hit_count, n_users).

(** [Series.sum()] and the builtin [sum]. *)
Definition Rsum (l : list R) : R := fold_right Rplus 0%R l.

(** [1 / np.log1p(rank)] *)
Definition discount (rank : nat) : R := (1 / ln (1 + INR rank))%R.

(** [df_dcg.groupby(col_user, as_index=False, sort=False).agg({"dcg": "sum"})] *)
Definition dcg_by_user (df_dcg : list (hit * R)) : list (nat * R) :=
  map (fun u =>
         (u, Rsum (map snd (rows_of_user (fun r => h_user (fst r)) u df_dcg))))
      (unique (map (fun r => h_user (fst r)) df_dcg)).

(** [pd.merge(df_dcg, df_hit_count, on=[col_user])]: rows
    [(userId, dcg, hit, actual)]. *)
Definition merge_dcg (df_dcg : list (nat * R)) (df_hit_count : list hit_count)
  : list (R * hit_count) :=
  flat_map
    (fun d =>
       map (fun c => (snd d, c))
           (filter (fun c => Nat.eqb (c_user c) (fst d)) df_hit_count))
    df_dcg.

(** [sum(1 / np.log1p(range(1, min(x, k) + 1)))] *)
Definition idcg (k x : nat) : R :=
  Rsum (map discount (seq 1 (Nat.min x k))).

(** The sums and the quotients are those of the code, over the real
    numbers: the code computes them in binary64, the gains per user with
    the sum of [groupby] and the ideal gains with the builtin [sum]. *)
Definition ndcg_at_k (rating_true rating_pred : DataFrame)
           (relevancy_method : relevancy) (k threshold : nat) : result R :=
  m <- merge_ranking_true_pred rating_true rating_pred
                               relevancy_method k threshold ;;
  let '(df_hit, df_hit_count, n_users) := m in
  if Nat.eqb (List.length df_hit) 0 then Ok 0%R
  else
    let df_dcg := map (fun h => (h, discount (h_rank h))) df_hit in
    let df_dcg := dcg_by_user df_dcg in
    let df_ndcg := merge_dcg df_dcg df_hit_count in
    let df_ndcg :=
      map (fun r => (fst r, snd r, idcg k (c_actual (snd r)))) df_ndcg in
    Ok (Rsum (map (fun r => (fst (fst r) / snd r)%R) df_ndcg)
          / INR n_users)%R.

(** Tables are keyed by (user, item): no pair occurs twice. *)
Definition key (r : rating) : nat * nat := (user r, item r).

Fixpoint distinct_keys (l : list (nat * nat)) : bool :=
  match l with
  | [] => true
  | p :: l' =>
      negb (existsb (fun q => Nat.eqb (fst q) (fst p)
                              && Nat.eqb (snd q) (snd p)) l')
      && distinct_keys l'
  end.

Definition valid_table (df : DataFrame) : bool := distinct_keys (map key df).

(** The hit that a ranked prediction gives when the truth holds its
    (user, item) pair, and whether it does. *)
Definition hit_of (p : ranked) : hit :=
  mk_hit (user (row_of p)) (item (row_of p)) (rank p).

Definition has_match (truth : DataFrame) (p : ranked) : bool :=
  existsb (fun t => Nat.eqb (user t) (user (row_of p))
                    && Nat.eqb (item t) (item (row_of p))) truth.

(** The scenario of three users and five items: the true interactions are
    (u1,i1), (u1,i2), (u2,i3); the two best predictions are i1, i2 for u1
    and i3, i4 for u2. *)
Definition scenario_true : DataFrame :=
  [mk_rating 1 1 1; mk_rating 1 2 1; mk_rating 2 3 1].
Definition scenario_pred : DataFrame :=
  [mk_rating 1 1 (9#10); mk_rating 1 2 (8#10); mk_rating 1 5 (1#10);
   mk_rating 2 3 (7#10); mk_rating 2 4 (6#10); mk_rating 2 1 (2#10);
   mk_rating 3 2 (5#10); mk_rating 3 4 (4#10)].

(** Predictions that share no item with the truth. *)
Definition disjoint_pred : DataFrame :=
  [mk_rating 1 4 (9#10); mk_rating 2 5 (8#10)].

(** A truth table that lists the pair (u1, i1) twice, and one prediction. *)
Definition repeated_true : DataFrame := [mk_rating 1 1 1; mk_rating 1 1 1].
Definition single_pred : DataFrame := [mk_rating 1 1 (9#10)].

(** One user with two true items, both predicted. *)
Definition threshold_true : DataFrame := [mk_rating 1 1 1; mk_rating 1 2 1].
Definition threshold_pred : DataFrame :=
  [mk_rating 1 1 (9#10); mk_rating 1 2 (8#10)].

(** Predictions for user 2 and then for user 1, one row each. *)
Definition unsorted_pred : DataFrame :=
  [mk_rating 2 1 (1#2); mk_rating 1 1 (3#4)].

End Ranking.

(* ================================================================= *)
(** * The validation callback: [Metrics] *)

Module Callback.

Import TopK Ranking.

Section Metrics.
(** The Keras model (its weights), its forward pass, and the mapper that
    turns a click matrix into a table. *)
Variable KModel : Type.
Variable predict : KModel -> ndarray -> ndarray.
Variable map_back_sparse : ndarray -> DataFrame.

(** The attributes of a [Metrics] object.  [_data] is created by
    [on_train_begin], which Keras calls before the first epoch. *)
Record Metrics : Type := mk_Metrics {
  best_ndcg : R;
  val_tr : ndarray;
  val_te : ndarray;
  k : nat;
  save_path : option string;
  _data : list R
}.

(** What [self.model.save] has written so far, oldest first. *)
Definition Saved : Type := list (string * KModel).

Definition __init__ (val_tr val_te : ndarray) (k : nat)
           (save_path : option string) : Metrics :=
  mk_Metrics 0%R val_tr val_te k save_path [].

Definition on_train_begin (self : Metrics) : Metrics :=
  mk_Metrics (best_ndcg self) (val_tr self) (val_te self) (k self)
             (save_path self) [].

(** The end of [on_epoch_end], from the comparison with [best_ndcg] on. *)
Definition record_ndcg (NDCG : R) (model : KModel) (self : Metrics)
           (saved : Saved) : Metrics * Saved :=
  let '(best, saved) :=
    if Rgt_dec NDCG (best_ndcg self) then
      (NDCG,
       match save_path self with
       | Some path => saved ++ [(path, model)]
       | None => saved
       end)
    else (best_ndcg self, saved) in
  (mk_Metrics best (val_tr self) (val_te self) (k self) (save_path self)
              (_data self ++ [NDCG]),
   saved).

Definition on_epoch_end (model : KModel) (self : Metrics) (saved : Saved)
  : result (Metrics * Saved) :=
  top_k <- recommend_k_items (predict model) (val_tr self) (k self) true ;;
  let top_k_df := map_back_sparse top_k in
  let test_df := map_back_sparse (val_te self) in
  NDCG <- ndcg_at_k test_df top_k_df top_k_method (k self)
                    DEFAULT_THRESHOLD ;;
  Ok (record_ndcg NDCG model self saved).

Definition get_data (self : Metrics) : list R := _data self.

(** A run of epochs, given the NDCG and the model at the end of each. *)
Fixpoint epochs (obs : list (R * KModel)) (self : Metrics) (saved : Saved)
  : Metrics * Saved :=
  match obs with
  | [] => (self, saved)
  | (NDCG, model) :: obs' =>
      let '(self', saved') := record_ndcg NDCG model self saved in
      epochs obs' self' saved'
  end.

(** Whether the epoch that observes [NDCG] writes the model. *)
Definition persists (NDCG : R) (self : Metrics) : Prop :=
  (NDCG > best_ndcg self)%R /\ save_path self <> None.

(** The calls of a training run: Keras calls [on_epoch_end] once at the
    end of every epoch; [models] lists the model, with the weights it has
    then, epoch by epoch.  An exception ends the run. *)
Fixpoint run (models : list KModel) (self : Metrics) (saved : Saved)
  : result (Metrics * Saved) :=
  match models with
  | [] => Ok (self, saved)
  | model :: models' =>
      r <- on_epoch_end model self saved ;;
      run models' (fst r) (snd r)
  end.

End Metrics.

End Callback.

(* ================================================================= *)
(** * The loss: [StandardVAE._get_vae_loss] *)

Module Loss.

Local Open Scope R_scope.

(** [K.epsilon()] *)
Definition epsilon : R := 1 / 10000000.

(** [tf.clip_by_value(t, lo, hi)] *)
Definition clip_by_value (t lo hi : R) : R := Rmin (Rmax t lo) hi.

Definition Rsum (l : list R) : R := fold_right Rplus 0 l.

(** [K.mean(t, axis=-1)] *)
Definition K_mean (t : list R) : R := Rsum t / INR (List.length t).

(** Element-wise operations on two tensors of the same shape. *)
Definition zip_with (f : R -> R -> R) (a b : list R) : list R :=
  map (fun p => f (fst p) (snd p)) (combine a b).

(** [K.binary_crossentropy(target, output)] at one position. *)
Definition K_binary_crossentropy (target output : R) : R :=
  let output := clip_by_value output epsilon (1 - epsilon) in
  let bce := target * ln (output + epsilon) in
  let bce := bce + (1 - target) * ln (1 - output + epsilon) in
  - bce.

(** [keras.losses.binary_crossentropy(y_true, y_pred)] *)
Definition binary_crossentropy (y_true y_pred : list R) : R :=
  K_mean (zip_with K_binary_crossentropy y_true y_pred).

(** The loss of one batch element: [x] and [x_bar] are a row of clicks and
    its reconstruction, [z_mean] and [z_log_var] the two encoder outputs
    for that row. *)
Definition _get_vae_loss (original_dim : Z) (beta : R)
           (z_mean z_log_var : list R) (x x_bar : list R) : R :=
  let reconst_loss := IZR original_dim * binary_crossentropy x x_bar in
  let kl_loss :=
    (5 / 10) *
    Rsum (zip_with Rplus
            (zip_with Rplus (map (fun v => -1 - v) z_log_var)
                      (map (fun m => m * m) z_mean))
            (map exp z_log_var)) in
  reconst_loss + beta * kl_loss.

(** The Kullback-Leibler term as the specification writes it: a sum over
    the latent dimensions. *)
Definition kl_spec (z_mean z_log_var : list R) : R :=
  (5 / 10) *
  Rsum (map (fun i =>
               let m := nth i z_mean 0 in
               let v := nth i z_log_var 0 in
               -1 - v + m ^ 2 + exp v)
            (seq 0 (List.length z_mean))).

(** The multinomial (categorical) cross-entropy of the decoder contract. *)
Definition categorical_crossentropy (x x_bar : list R) : R :=
  - Rsum (zip_with (fun t p => t * ln p) x x_bar).

(** The loss as the specification states it. *)
Definition loss_spec (original_dim : Z) (beta : R)
           (z_mean z_log_var : list R) (x x_bar : list R) : R :=
  IZR original_dim * categorical_crossentropy x x_bar
  + beta * kl_spec z_mean z_log_var.

End Loss.

(* ================================================================= *)
(** * [StandardVAE]: construction, batch generator and [fit] *)

Module VAE.

Import TopK.

(** [self.beta]: a constant, or a backend variable when annealing. *)
Inductive Beta : Type :=
| Constant (b : Q)
| KVariable (b : Q).

Record ReduceLROnPlateau : Type := mk_ReduceLROnPlateau {
  monitor : string;
  factor : Q;
  patience : nat;
  min_lr : Q
}.

(** The arguments of [StandardVAE(...)]. *)
Record Args : Type := mk_Args {
  a_n_users : Z;
  a_original_dim : Z;
  a_intermediate_dim : Z;
  a_latent_dim : Z;
  a_n_epochs : Z;
  a_batch_size : Z;
  a_k : nat;
  a_verbose : Z;
  a_drop_encoder : Q;
  a_drop_decoder : Q;
  a_beta : Q;
  a_annealing : bool;
  a_anneal_cap : Q;
  a_seed : option Z;
  a_save_path : option string
}.

(** The default values of the optional arguments. *)
Definition default_args (n_users original_dim : Z) : Args :=
  mk_Args n_users original_dim 200 70 400 100 100 1 (5#10) (5#10) 1 false 1
          None None.

(** What is observable of a call besides its result. *)
Inductive Event : Type :=
| Printed (s : string)
| FitGenerator (steps_per_epoch epochs : Z).

Section StandardVAE.
(** The Keras model, as built and compiled by [_create_model]; what
    Keras accepts as dimensions and rates is Keras's, so the building may
    raise. *)
Variable KModel : Type.
Variable _create_model : Z -> Z -> Z -> Q -> Q -> result KModel.

(** Rows of the click matrix, and numpy's global random generator:
    its state after [np.random.seed(n)] and what [np.random.shuffle]
    makes of a list in a given state. *)
Variable Row : Type.
Variable RandomState : Type.
Variable seeded : Z -> RandomState.
Variable np_random_shuffle : RandomState -> list nat -> list nat.

Record StandardVAE : Type := mk_StandardVAE {
  seed : option Z;
  n_users : Z;
  original_dim : Z;
  intermediate_dim : Z;
  latent_dim : Z;
  n_epochs : Z;
  batch_size : Z;
  k : nat;
  verbose : Z;
  number_of_batches : Z;
  anneal_cap : Q;
  annealing : bool;
  beta : Beta;
  total_anneal_steps : float;
  drop_encoder : Q;
  drop_decoder : Q;
  save_path : option string;
  model : KModel;
  (* attributes set by [fit] *)
  reduce_lr : option ReduceLROnPlateau;
  train_loss : option (list R);
  val_loss : option (list R);
  val_ndcg : option (list R)
}.

(** [np.random.seed(seed)] accepts [None] and the integers from 0 to
    [2**32 - 1]. *)
Definition seed_accepted (seed : option Z) : bool :=
  match seed with
  | None => true
  | Some n => (0 <=? n)%Z && (n <? 2 ^ 32)%Z
  end.

Definition __init__ (a : Args) : result StandardVAE :=
  _ <- (if seed_accepted (a_seed a) then Ok tt
        else Raise (ValueError "Seed must be between 0 and 2**32 - 1")) ;;
  number_of_batches <- floordiv (a_n_users a) (a_batch_size a) ;;
  let beta :=
    if a_annealing a then KVariable 0 else Constant (a_beta a) in
  n_epochs <- float_of_int (a_n_epochs a) ;;
  let kept := int_ (binary64 (n_epochs * binary64 (2#10))) in
  total_anneal_steps <-
    floordiv_float (number_of_batches * (a_n_epochs a - kept))%Z
                   (a_anneal_cap a) ;;
  model <-
    _create_model (a_original_dim a) (a_intermediate_dim a)
                  (a_latent_dim a) (a_drop_encoder a) (a_drop_decoder a) ;;
  Ok (mk_StandardVAE
        (a_seed a) (a_n_users a) (a_original_dim a) (a_intermediate_dim a)
        (a_latent_dim a) (a_n_epochs a) (a_batch_size a) (a_k a)
        (a_verbose a) number_of_batches (a_anneal_cap a) (a_annealing a)
        beta total_anneal_steps (a_drop_encoder a) (a_drop_decoder a)
        (a_save_path a) model None None None None).

(** ** [nn_batch_generator] *)

(** The local variables of a suspended generator. *)
Record Generator : Type := mk_Generator {
  shuffle_index : list nat;
  x : list Row;
  y : list Row;
  counter : Z
}.

(** [np.random.seed(self.seed)]; without a seed numpy takes a fresh state
    from the operating system, here [fresh].  The seed of a constructed
    object has passed this call in [__init__], so it is accepted here. *)
Definition np_random_seed (seed : option Z) (fresh : RandomState)
  : RandomState :=
  match seed with
  | Some n => seeded n
  | None => fresh
  end.

(** The generator up to its loop. *)
Definition nn_batch_generator (self : StandardVAE) (x_train : list Row)
           (fresh : RandomState) : result Generator :=
  let state := np_random_seed (seed self) fresh in
  let shuffle_index :=
    np_random_shuffle state (seq 0 (List.length x_train)) in
  x <- take_rows x_train shuffle_index ;;
  y <- take_rows x_train shuffle_index ;;
  Ok (mk_Generator shuffle_index x y 0).

(** One turn of the loop: the batch that is yielded, and the generator
    after the stopping rule. *)
Definition next (self : StandardVAE) (g : Generator)
  : result (list Row * list Row * Generator) :=
  let index_batch :=
    slice (shuffle_index g)
          (batch_size self * counter g)
          (batch_size self * (counter g + 1)) in
  x_batch <- take_rows (x g) index_batch ;;
  y_batch <- take_rows (y g) index_batch ;;
  let counter := (counter g + 1)%Z in
  let counter :=
    if Z.geb counter (number_of_batches self) then 0%Z else counter in
  Ok (x_batch, y_batch, mk_Generator (shuffle_index g) (x g) (y g) counter).

(** A pass: the batches yielded until the stopping rule sets the counter
    back to 0.  [None] when [fuel] turns do not reach that point. *)
Fixpoint pass (fuel : nat) (self : StandardVAE) (g : Generator)
  : result (option (list (list Row * list Row) * Generator)) :=
  match fuel with
  | O => Ok None
  | S fuel' =>
      r <- next self g ;;
      let '(x_batch, y_batch, g') := r in
      if Z.eqb (counter g') 0 then Ok (Some ([(x_batch, y_batch)], g'))
      else
        rest <- pass fuel' self g' ;;
        match rest with
        | Some (batches, g'') =>
            Ok (Some ((x_batch, y_batch) :: batches, g''))
        | None => Ok None
        end
  end.

(** The row of [x_train] that [x[shuffle_index[j]]] is. *)
Definition emitted_row (g : Generator) (j : nat) : nat :=
  nth (nth j (shuffle_index g) 0%nat) (shuffle_index g) 0%nat.

(** ** [fit] *)

(** What [self.model.fit_generator] leaves behind: the trained model and
    the lists collected by the two callbacks. *)
Record Trained : Type := mk_Trained {
  trained_model : KModel;
  losses : list R;
  val_losses : list R;
  ndcg_data : list R
}.

Variable fit_generator :
  KModel -> StandardVAE -> list Row -> list Row -> Callback.Metrics ->
  Trained.

Definition fit (self : StandardVAE) (x_train x_valid : list Row)
           (x_val_tr x_val_te : ndarray) : StandardVAE * list Event :=
  let metrics :=
    Callback.__init__ x_val_tr x_val_te (k self) (save_path self) in
  let reduce_lr :=
    Some (mk_ReduceLROnPlateau "val_loss" (2#10) 1 (1#10000)) in
  if annealing self then
    (mk_StandardVAE
       (seed self) (n_users self) (original_dim self)
       (intermediate_dim self) (latent_dim self) (n_epochs self)
       (batch_size self) (k self) (verbose self) (number_of_batches self)
       (anneal_cap self) (annealing self) (beta self)
       (total_anneal_steps self) (drop_encoder self) (drop_decoder self)
       (save_path self) (model self) reduce_lr (train_loss self)
       (val_loss self) (val_ndcg self),
     [Printed "annealing is not supported. Please set to False"])
  else
    let t := fit_generator (model self) self x_train x_valid metrics in
    (mk_StandardVAE
       (seed self) (n_users self) (original_dim self)
       (intermediate_dim self) (latent_dim self) (n_epochs self)
       (batch_size self) (k self) (verbose self) (number_of_batches self)
       (anneal_cap self) (annealing self) (beta self)
       (total_anneal_steps self) (drop_encoder self) (drop_decoder self)
       (save_path self) (trained_model t) reduce_lr (Some (losses t))
       (Some (val_losses t)) (Some (ndcg_data t)),
     [FitGenerator (number_of_batches self) (n_epochs self)]).

(** The number of epochs a call of [fit] has run. *)
Definition epochs_run (events : list Event) : Z :=
  fold_right (fun e n => match e with
                         | FitGenerator _ epochs => (epochs + n)%Z
                         | Printed _ => n
                         end) 0%Z events.

End StandardVAE.

End VAE.

(* ================================================================= *)
(** * Sample instances

    Stand-ins for the collaborators the module does not define (the Keras
    model and numpy's random generator), used to run the definitions on
    concrete inputs. *)

Module Sample.

Definition KModel : Type := unit.
Definition _create_model (_ _ _ : Z) (_ _ : Q) : result KModel := Ok tt.
Definition Row : Type := list Q.
Definition RandomState : Type := Z.
Definition seeded (n : Z) : RandomState := n.

(** A permutation in place of numpy's shuffle: the reversal. *)
Definition np_random_shuffle (_ : RandomState) (l : list nat) : list nat :=
  rev l.

Definition __init__ := VAE.__init__ KModel _create_model.
Definition nn_batch_generator :=
  VAE.nn_batch_generator KModel Row RandomState seeded np_random_shuffle.
Definition next := VAE.next KModel Row.
Definition pass := VAE.pass KModel Row.

(** Five users in batches of two, and two users in batches of three. *)
Definition args_5_2 : VAE.Args :=
  VAE.mk_Args 5 3 200 70 400 2 100 1 (5#10) (5#10) 1 false 1 (Some 7%Z) None.
Definition args_2_3 : VAE.Args :=
  VAE.mk_Args 2 3 200 70 400 3 100 1 (5#10) (5#10) 1 false 1 (Some 7%Z) None.
Definition clicks_5 : list Row :=
  [[1; 0; 0]; [0; 1; 0]; [0; 0; 1]; [1; 1; 0]; [0; 1; 1]]%Q.
Definition clicks_2 : list Row := [[1; 0; 0]; [0; 1; 0]]%Q.

(** The default arguments for 250 users and 20 items; the same with
    [batch_size=0], with [anneal_cap=0] and with [annealing=True]. *)
Definition args_default : VAE.Args := VAE.default_args 250 20.
Definition args_batch_0 : VAE.Args :=
  VAE.mk_Args 250 20 200 70 400 0 100 1 (5#10) (5#10) 1 false 1 None None.
Definition args_cap_0 : VAE.Args :=
  VAE.mk_Args 250 20 200 70 400 100 100 1 (5#10) (5#10) 1 false 0 None None.
Definition args_annealing : VAE.Args :=
  VAE.mk_Args 250 20 200 70 400 100 100 1 (5#10) (5#10) 1 true 1 None None.

(** [anneal_cap=0] with [seed=-1], and the defaults for [10**400] users. *)
Definition args_seed_neg : VAE.Args :=
  VAE.mk_Args 250 20 200 70 400 100 100 1 (5#10) (5#10) 1 false 0
              (Some (-1)%Z) None.
Definition args_huge : VAE.Args :=
  VAE.mk_Args (10 ^ 400) 20 200 70 400 100 100 1 (5#10) (5#10) 1 false 1
              None None.

(** A training run that leaves the model as it is and records nothing. *)
Definition fit_generator (m : KModel) (_ : VAE.StandardVAE KModel)
           (_ _ : list Row) (_ : Callback.Metrics) : VAE.Trained KModel :=
  VAE.mk_Trained KModel m [] [] [].

Definition fit := VAE.fit KModel Row fit_generator.

End Sample.

(* ================================================================= *)
(** * The loss history callback: [LossHistory] *)

Module History.

(** The [logs] dictionary that Keras hands to a callback; [logs.get(key)]
    is [None] for a key that is absent. *)
Definition Logs : Type := string -> option R.

(** [logs={}] *)
Definition no_logs : Logs := fun _ => None.

(** The attributes of a [LossHistory] object, which [on_train_begin]
    creates. *)
Record LossHistory : Type := mk_LossHistory {
  losses : list (option R);
  val_losses : list (option R)
}.

Definition on_train_begin (logs : Logs) : LossHistory :=
  mk_LossHistory [] [].

Definition on_epoch_end (self : LossHistory) (epoch : nat) (logs : Logs)
  : LossHistory :=
  mk_LossHistory (losses self ++ [logs "loss"%string])
                 (val_losses self ++ [logs "val_loss"%string]).

(** The calls of a training run: [on_epoch_end] once per epoch, with the
    logs of that epoch. *)
Fixpoint run (epoch : nat) (logs : list Logs) (self : LossHistory)
  : LossHistory :=
  match logs with
  | [] => self
  | l :: logs' => run (S epoch) logs' (on_epoch_end self epoch l)
  end.

(** Logs of an epoch with both losses, and of one without validation. *)
Definition logs_both (loss val_loss : R) : Logs :=
  fun key =>
    if String.eqb key "loss" then Some loss
    else if String.eqb key "val_loss" then Some val_loss
    else None.

Definition logs_train_only (loss : R) : Logs :=
  fun key => if String.eqb key "loss" then Some loss else None.

End History.

(* ================================================================= *)
(** * Sampling: [StandardVAE._take_sample] *)

Module Sampling.

Local Open Scope R_scope.

(** One row of the batch: [_mean + K.exp(_log_var / 2) * epsilon], where
    [epsilon] is the row that [K.random_normal] has drawn. *)
Definition _take_sample (epsilon : list R) (_mean _log_var : list R)
  : list R :=
  Loss.zip_with Rplus _mean
    (Loss.zip_with Rmult (map (fun v => exp (v / 2)) _log_var) epsilon).

End Sampling.

(* ================================================================= *)
(** * Drawing batches from the generator *)

Module Batches.

Section Draw.
Variable KModel : Type.
Variable Row : Type.

(** [[next(generator) for _ in range(t)]], as [fit_generator] draws
    them. *)
Fixpoint draw (t : nat) (self : VAE.StandardVAE KModel)
         (g : VAE.Generator Row)
  : result (list (list Row * list Row) * VAE.Generator Row) :=
  match t with
  | O => Ok ([], g)
  | S t' =>
      r <- VAE.next KModel Row self g ;;
      let '(x_batch, y_batch, g') := r in
      rest <- draw t' self g' ;;
      let '(batches, g'') := rest in
      Ok ((x_batch, y_batch) :: batches, g'')
  end.

End Draw.

(** Two users and a negative batch size. *)
Definition args_2_neg3 : VAE.Args :=
  VAE.mk_Args 2 3 200 70 400 (-3) 100 1 (5#10) (5#10) 1 false 1 (Some 7%Z)
              None.

End Batches.

(* ================================================================= *)
(** * A mapper for the sample runs *)

Module Mapper.

Import TopK Ranking.

(** The table of the entries of a matrix that are not 0, row by row, in
    the manner of the mapper's [map_back_sparse]. *)
Definition map_back_sparse (m : ndarray) : DataFrame :=
  flat_map
    (fun i =>
       flat_map
         (fun j => if Qeq_bool (at_ m i j) 0 then []
                   else [mk_rating i j (at_ m i j)])
         (seq 0 (n_cols m)))
    (seq 0 (n_rows m)).

(** A model that predicts the same scores for every input. *)
Definition predict (_ : unit) (_ : ndarray) : ndarray := score_2x3.

(** The held-out clicks of the two sample users. *)
Definition held_out_2x3 : ndarray := of_rows 3 [[1; 0; 1]; [0; 1; 0]]%Q.

(** The callback of the two sample users with a save path. *)
Definition metrics_saving : Callback.Metrics :=
  Callback.on_train_begin
    (Callback.__init__ clicks_2x3 held_out_2x3 2 (Some "vae.h5"%string)).

(** A validation matrix of two items for a callback that asks for three. *)
Definition metrics_k3 : Callback.Metrics :=
  Callback.on_train_begin
    (Callback.__init__ clicks_1x2 clicks_1x2 3 None).

Definition metrics_k2 : Callback.Metrics :=
  Callback.on_train_begin
    (Callback.__init__ clicks_2x3 held_out_2x3 2 None).

End Mapper.

(* ================================================================= *)
(** * The stages of the ranking merge, by name

    [merge_ranking_true_pred] computes its intermediate tables in local
    variables; they are named here so that properties can speak of them.
    [Ranking_stages] below shows that they are the values the function
    computes. *)

Module Stages.

Import Ranking.

(** [common_users] *)
Definition common_users (rating_true rating_pred : DataFrame) : list nat :=
  unique (filter (fun u => mem u (map user rating_pred))
                 (map user rating_true)).

(** [rating_true_common] and [rating_pred_common] *)
Definition restrict (users : list nat) (df : DataFrame) : DataFrame :=
  filter (fun r => mem (user r) users) df.

(** [top_k], when [relevancy_method] is one of the three known values. *)
Definition top_k_of (relevancy_method : relevancy) (k threshold : nat)
  : option (option nat) :=
  match relevancy_method with
  | None => Some None
  | Some m =>
      if String.eqb m "top_k" then Some (Some k)
      else if String.eqb m "by_threshold" then Some (Some threshold)
      else None
  end.

(** [df_hit] *)
Definition hits (rating_true rating_pred : DataFrame) (top_k : option nat)
  : list hit :=
  let users := common_users rating_true rating_pred in
  merge_hits (get_top_k_items (restrict users rating_pred) top_k)
             (restrict users rating_true).

(** [df_hit_count] *)
Definition hit_counts (rating_true rating_pred : DataFrame)
           (top_k : option nat) : list hit_count :=
  let users := common_users rating_true rating_pred in
  merge_counts (count_by_user h_user (hits rating_true rating_pred top_k))
               (count_by_user user (restrict users rating_true)).

(** The value that [ndcg_at_k] returns once [df_hit] is not empty. *)
Definition ndcg_value (df_hit : list hit) (df_hit_count : list hit_count)
           (n_users k : nat) : R :=
  let df_dcg := map (fun h => (h, discount (h_rank h))) df_hit in
  let df_dcg := dcg_by_user df_dcg in
  let df_ndcg := merge_dcg df_dcg df_hit_count in
  let df_ndcg :=
    map (fun r => (fst r, snd r, idcg k (c_actual (snd r)))) df_ndcg in
  (Rsum (map (fun r => (fst (fst r) / snd r)%R) df_ndcg) / INR n_users)%R.

End Stages.

(* ================================================================= *)
(** * Properties *)

Import Py TopK Ranking.

Lemma returns_not_raises A (m : result A) : returns m -> ~ raises m.
Proof. intros [a ->] [e H]; discriminate. Qed.

Lemma raises_not_returns A (m : result A) : raises m -> ~ returns m.
Proof. intros [e ->] [a H]; discriminate. Qed.

(* ----------------------------------------------------------------- *)
(** ** Top-k selection *)

Section TopKFacts.

Import TopK.

Lemma in_insert_asc p q l : In p (insert_asc q l) <-> p = q \/ In p l.
Proof.
  induction l as [|a l IH]; simpl.
  - intuition.
  - destruct (Qle_bool (snd q) (snd a)); simpl.
    + intuition.
    + rewrite IH. intuition.
Qed.

Lemma in_sort_asc p l : In p (sort_asc l) <-> In p l.
Proof.
  induction l as [|a l IH]; simpl; [tauto|].
  rewrite in_insert_asc, IH. intuition.
Qed.

Lemma length_insert_asc q l : length (insert_asc q l) = S (length l).
Proof.
  induction l as [|a l IH]; simpl; auto.
  destruct (Qle_bool (snd q) (snd a)); simpl; auto.
Qed.

Lemma length_sort_asc l : length (sort_asc l) = length l.
Proof.
  induction l as [|a l IH]; simpl; auto.
  rewrite length_insert_asc; auto.
Qed.

Lemma length_argsort r : length (argsort r) = length r.
Proof.
  unfold argsort.
  rewrite length_map, length_sort_asc, length_combine, length_seq.
  apply Nat.min_id.
Qed.

Lemma nth_error_enumerate (r : list Q) s j v :
  nth_error r j = Some v ->
  nth_error (combine (seq s (length r)) r) j = Some ((s + j)%nat, v).
Proof.
  revert s j. induction r as [|a r IH]; intros s j E.
  - destruct j; discriminate.
  - destruct j; simpl in *.
    + inversion E. now rewrite Nat.add_0_r.
    + rewrite (IH (S s) j E). f_equal. f_equal. lia.
Qed.

Lemma in_argsort r j : (j < length r)%nat -> In j (argsort r).
Proof.
  intros Hj. unfold argsort.
  destruct (nth_error r j) as [v|] eqn:E.
  - apply in_map_iff. exists (j, v). split; auto.
    apply in_sort_asc.
    apply (nth_error_In _ j). now rewrite (nth_error_enumerate r 0 j v E).
  - apply nth_error_None in E. lia.
Qed.

Lemma length_row a i : length (row a i) = n_cols a.
Proof. unfold row. now rewrite length_map, length_seq. Qed.

Lemma existsb_eqb_in j l : existsb (Nat.eqb j) l = true <-> In j l.
Proof.
  rewrite existsb_exists. split.
  - intros [y [Hy E]]. apply Nat.eqb_eq in E. now subst.
  - intros H. exists j. split; auto. apply Nat.eqb_refl.
Qed.

(** Every shape for which the partition index is in range is accepted. *)
Lemma argpartition_range_ok a k :
  (0 < k <= n_cols a)%nat ->
  exists top, argpartition_range a k = Ok top /\
    (k = n_cols a -> forall i j, (j < n_cols a)%nat -> In j (top i)).
Proof.
  intros [Hk1 Hk2]. unfold argpartition_range.
  destruct (Nat.eqb_spec k 0); [lia|].
  destruct (Nat.eqb_spec (size a) 0).
  - eexists; split; [reflexivity|]. intros -> i j Hj.
    rewrite firstn_all2 by (rewrite length_seq; lia).
    apply in_seq. lia.
  - destruct (Nat.ltb_spec (n_cols a) k); [lia|].
    eexists; split; [reflexivity|]. intros -> i j Hj.
    rewrite firstn_all2 by (rewrite length_argsort, length_row; lia).
    apply in_argsort. now rewrite length_row.
Qed.

Lemma argpartition_range_out_of_bounds a k :
  size a <> 0%nat -> (n_cols a < k)%nat ->
  argpartition_range a k = Raise (ValueError "kth out of bounds").
Proof.
  intros Hs Hk. unfold argpartition_range.
  destruct (Nat.eqb_spec k 0); [lia|].
  destruct (Nat.eqb_spec (size a) 0); [lia|].
  destruct (Nat.ltb_spec (n_cols a) k); [reflexivity|lia].
Qed.

(** C1.  With [remove_seen=True], a result of [recommend_k_items] has the
    shape of the click matrix [x] and holds score 0 at every position where
    [x] is not 0, whatever the model predicts and whatever [k] is. *)
Theorem recommend_k_items_removes_seen
        (predict : ndarray -> ndarray) (x : ndarray) (k : nat)
        (top_scores : ndarray) :
  recommend_k_items predict x k true = Ok top_scores ->
  shape top_scores = shape x /\
  forall i j, (i < n_rows x)%nat -> (j < n_cols x)%nat ->
              ~ (at_ x i j == 0)%Q -> (at_ top_scores i j == 0)%Q.
Proof.
  unfold recommend_k_items, recommend_from_score, mask_assign_0.
  destruct (same_shape (predict x) x) eqn:Hshape; simpl; [|discriminate].
  match goal with
  | |- context [argpartition_range ?a k] =>
      destruct (argpartition_range a k) as [top|e]; simpl; [|discriminate]
  end.
  intros H. injection H as <-. split.
  - unfold shape, same_shape in *. simpl.
    apply andb_true_iff in Hshape as [H1 H2].
    apply Nat.eqb_eq in H1, H2. congruence.
  - intros i j _ _ Hx. simpl. unfold not_equal_0.
    destruct (Qeq_bool (at_ x i j) 0) eqn:E.
    + apply Qeq_bool_eq in E. contradiction.
    + simpl. destruct (existsb (Nat.eqb j) (top i)); reflexivity.
Qed.

Lemma recommend_k_items_removes_seen_witness :
  exists top_scores,
    recommend_k_items (fun _ => score_2x3) clicks_2x3 2 true = Ok top_scores
    /\ (at_ top_scores 0 1 == 0)%Q.
Proof.
  eexists. split; [reflexivity|].
  apply (recommend_k_items_removes_seen (fun _ => score_2x3) clicks_2x3 2
           _ eq_refl); simpl; try lia.
  intros H; vm_compute in H; discriminate.
Defined.

(** C2, as stated, fails: with two items and [k = 3] the partition index 2
    is out of bounds and the call raises instead of selecting all items. *)
Lemma recommend_k_items_k_above_items_raises :
  (3 >= n_cols score_1x2)%nat /\
  ~ returns (recommend_k_items (fun _ => score_1x2) clicks_1x2 3 true).
Proof.
  split; [simpl; lia|].
  apply raises_not_returns. eexists. reflexivity.
Qed.

(** C2, amended.  On a prediction of the shape of [x]:
    - for [1 <= k <= n_items] the call returns a matrix of that shape; with
      [k = n_items] every item is selected, so the result is the (masked)
      score matrix itself; a row whose scores are all 0 gives a row of 0;
    - for [k > n_items] on a non-empty matrix the call raises
      [ValueError]. *)
Theorem recommend_k_items_k_range
        (predict : ndarray -> ndarray) (x : ndarray) (k : nat)
        (remove_seen : bool) :
  same_shape (predict x) x = true ->
  ((0 < k <= n_cols x)%nat ->
   exists top_scores,
     recommend_k_items predict x k remove_seen = Ok top_scores /\
     shape top_scores = shape x /\
     (k = n_cols x ->
      forall i j, (i < n_rows x)%nat -> (j < n_cols x)%nat ->
        (at_ top_scores i j == masked_score (predict x) x remove_seen i j)%Q)
     /\
     (forall i, (forall j, (j < n_cols x)%nat -> (at_ (predict x) i j == 0)%Q) ->
                forall j, (j < n_cols x)%nat -> (at_ top_scores i j == 0)%Q))
  /\
  ((0 < n_rows x)%nat -> (0 < n_cols x)%nat -> (n_cols x < k)%nat ->
   recommend_k_items predict x k remove_seen
   = Raise (ValueError "kth out of bounds")).
Proof.
  intros Hshape.
  assert (Hs : n_rows (predict x) = n_rows x /\ n_cols (predict x) = n_cols x).
  { unfold same_shape in Hshape. apply andb_true_iff in Hshape as [H1 H2].
    apply Nat.eqb_eq in H1, H2. auto. }
  destruct Hs as [Hr Hc].
  unfold recommend_k_items, recommend_from_score, mask_assign_0.
  rewrite Hshape.
  set (s := if remove_seen
            then Ok (mk_ndarray (n_rows (predict x)) (n_cols (predict x))
                       (fun i j => if not_equal_0 x i j then 0%Q
                                   else at_ (predict x) i j))
            else Ok (predict x)).
  assert (Hsc : exists sc, s = Ok sc /\ n_rows sc = n_rows x
                           /\ n_cols sc = n_cols x
                           /\ forall i j, at_ sc i j
                                = masked_score (predict x) x remove_seen i j).
  { unfold s, masked_score. destruct remove_seen; eexists; repeat split; auto. }
  destruct Hsc as [sc [-> [Hr' [Hc' Hat]]]]. simpl. split.
  - intros Hk.
    destruct (argpartition_range_ok (neg sc) k) as [top [-> Hall]];
      [simpl; lia|]. simpl.
    eexists. split; [reflexivity|]. split; [|split].
    + unfold shape. simpl. congruence.
    + intros -> i j Hi Hj. simpl.
      assert (Hin : In j (top i)) by (apply Hall; simpl; auto; lia).
      apply existsb_eqb_in in Hin. rewrite Hin, Hat. ring.
    + intros i Hzero j Hj. simpl.
      assert (Hz : (at_ sc i j == 0)%Q).
      { rewrite Hat. unfold masked_score.
        destruct (remove_seen && not_equal_0 x i j); [reflexivity|auto]. }
      destruct (existsb (Nat.eqb j) (top i)); rewrite Hz; ring.
  - intros Hn Hm Hk.
    rewrite argpartition_range_out_of_bounds; simpl; auto; try lia.
    unfold size. simpl. nia.
Qed.

Lemma recommend_k_items_k_range_witness :
  same_shape zeros_2x3 zeros_2x3 = true /\
  returns (recommend_k_items (fun _ => zeros_2x3) zeros_2x3 3 true).
Proof.
  split; [reflexivity|].
  destruct (recommend_k_items_k_range (fun _ => zeros_2x3) zeros_2x3 3 true
              eq_refl) as [H _].
  destruct H as [t [Ht _]]; [simpl; lia|].
  exists t. exact Ht.
Defined.

End TopKFacts.

(* ----------------------------------------------------------------- *)
(** ** Slices and row selection *)

Section PyFacts.

Context {A : Type}.

Lemma take_rows_Forall2 (m : list A) idx r :
  take_rows m idx = Ok r <->
  Forall2 (fun i x => nth_error m i = Some x) idx r.
Proof.
  revert r. induction idx as [|i idx IH]; intros r; simpl.
  - split; intros H.
    + injection H as <-. constructor.
    + inversion H. reflexivity.
  - destruct (nth_error m i) as [x|] eqn:E.
    + destruct (take_rows m idx) as [rest|e]; simpl.
      * split; intros H.
        -- injection H as <-. constructor; auto. now apply IH.
        -- inversion H; subst. apply IH in H4. injection H4 as ->.
           congruence.
      * split; intros H; [discriminate|].
        inversion H; subst. apply IH in H4. discriminate.
    + split; intros H; [discriminate|].
      inversion H; subst. congruence.
Qed.

Lemma take_rows_in_range (m : list A) idx :
  (forall i, In i idx -> (i < length m)%nat) ->
  exists r, take_rows m idx = Ok r.
Proof.
  induction idx as [|i idx IH]; intros H; simpl.
  - eexists; reflexivity.
  - destruct (nth_error m i) as [x|] eqn:E.
    + destruct IH as [r ->]; [intros; apply H; now right|].
      simpl. eexists; reflexivity.
    + apply nth_error_None in E. specialize (H i (or_introl eq_refl)). lia.
Qed.

Lemma take_rows_length (m : list A) idx r :
  take_rows m idx = Ok r -> length r = length idx.
Proof.
  intros H. apply take_rows_Forall2 in H.
  symmetry. eapply Forall2_length; eauto.
Qed.

(** Selecting rows of a selection selects rows of the original. *)
Lemma take_rows_compose (m : list A) sigma x ib :
  take_rows m sigma = Ok x ->
  (forall i, In i ib -> (i < length sigma)%nat) ->
  take_rows x ib = take_rows m (map (fun i => nth i sigma 0%nat) ib).
Proof.
  intros Hx. apply take_rows_Forall2 in Hx.
  induction ib as [|i ib IH]; intros Hib; simpl; auto.
  assert (Hi : (i < length sigma)%nat) by (apply Hib; now left).
  assert (E : nth_error x i = nth_error m (nth i sigma 0%nat)).
  { clear - Hx Hi. revert i Hi.
    induction Hx as [|s a sigma x Hs Hx IH]; intros i Hi; simpl in *.
    - lia.
    - destruct i; simpl; auto. apply IH. lia. }
  rewrite E, IH; auto. intros; apply Hib; now right.
Qed.

Lemma slice_nat (l : list A) (a b : nat) :
  (a <= b <= length l)%nat ->
  slice l (Z.of_nat a) (Z.of_nat b) = firstn (b - a) (skipn a l).
Proof.
  intros H. unfold slice, slice_bound.
  destruct (Z.ltb_spec (Z.of_nat a) 0); [lia|].
  destruct (Z.ltb_spec (Z.of_nat b) 0); [lia|].
  rewrite !Z.min_l by lia.
  rewrite <- Nat2Z.inj_sub, !Nat2Z.id by lia. reflexivity.
Qed.

End PyFacts.

Lemma firstn_skipn_seq (l : list nat) a b :
  (a + b <= length l)%nat ->
  firstn b (skipn a l) = map (fun i => nth i l 0%nat) (seq a b).
Proof.
  revert a l. induction b as [|b IH]; intros a l H; simpl.
  - reflexivity.
  - destruct (skipn a l) as [|x t] eqn:E.
    + assert (length (skipn a l) = 0%nat) by now rewrite E.
      rewrite length_skipn in *. lia.
    + simpl. f_equal.
      * assert (Hn : nth_error l a = Some x).
        { rewrite <- (firstn_skipn a l) at 1.
          rewrite nth_error_app2; rewrite length_firstn; [|lia].
          replace (a - Nat.min a (length l))%nat with 0%nat by lia.
          now rewrite E. }
        symmetry. now apply nth_error_nth.
      * rewrite <- IH by lia.
        replace (S a) with (1 + a)%nat by lia.
        rewrite <- skipn_skipn, E. reflexivity.
Qed.

Lemma concat_seq_chunks b m :
  concat (map (fun c => seq (b * c) b) (seq 0 m)) = seq 0 (b * m).
Proof.
  induction m as [|m IH].
  - now rewrite Nat.mul_0_r.
  - rewrite seq_S, map_app, concat_app, IH. simpl.
    rewrite app_nil_r.
    replace (b * S m)%nat with (b * m + b)%nat by lia.
    now rewrite seq_app.
Qed.

(* ----------------------------------------------------------------- *)
(** ** The batch generator *)

Section BatchFacts.

Variable KModel : Type.
Variable _create_model : Z -> Z -> Z -> Q -> Q -> result KModel.
Variable Row : Type.
Variable RandomState : Type.
Variable seeded : Z -> RandomState.
Variable np_random_shuffle : RandomState -> list nat -> list nat.

(** [np.random.shuffle] permutes its argument. *)
Hypothesis shuffle_permutes :
  forall st l, Permutation l (np_random_shuffle st l).

Local Abbreviation StandardVAE := (VAE.StandardVAE KModel).
Local Abbreviation Generator := (VAE.Generator Row).
Local Abbreviation __init__ := (VAE.__init__ KModel _create_model).
Local Abbreviation nn_batch_generator :=
  (VAE.nn_batch_generator KModel Row RandomState seeded np_random_shuffle).
Local Abbreviation next := (VAE.next KModel Row).
Local Abbreviation pass := (VAE.pass KModel Row).
Local Abbreviation emitted_row := (VAE.emitted_row Row).

Lemma init_fields a (self : StandardVAE) :
  __init__ a = Ok self ->
  VAE.a_batch_size a <> 0%Z /\
  VAE.seed_accepted (VAE.a_seed a) = true /\
  VAE.number_of_batches _ self = (VAE.a_n_users a / VAE.a_batch_size a)%Z /\
  VAE.batch_size _ self = VAE.a_batch_size a /\
  VAE.n_users _ self = VAE.a_n_users a /\
  VAE.seed _ self = VAE.a_seed a /\
  VAE.annealing _ self = VAE.a_annealing a.
Proof.
  unfold VAE.__init__, floordiv.
  destruct (VAE.seed_accepted (VAE.a_seed a)); cbn [bind]; [|discriminate].
  destruct (Z.eqb_spec (VAE.a_batch_size a) 0); cbn [bind]; [discriminate|].
  destruct (float_of_int _); cbn [bind]; [|discriminate].
  destruct (floordiv_float _ _); cbn [bind]; [|discriminate].
  destruct (_create_model _ _ _ _ _); cbn [bind]; [|discriminate].
  intros H. injection H as <-. cbn. repeat split; auto.
Qed.

Section OnePass.

Variable self : StandardVAE.
Variable x_train : list Row.
Variable sigma : list nat.
Variable x : list Row.
Variables b nb : nat.

Hypothesis Hperm : Permutation (seq 0 (length x_train)) sigma.
Hypothesis Hx : take_rows x_train sigma = Ok x.
Hypothesis Hb : VAE.batch_size _ self = Z.of_nat b.
Hypothesis Hnb : VAE.number_of_batches _ self = Z.of_nat nb.
Hypothesis Hfit : (b * nb <= length x_train)%nat.

Local Abbreviation G c := (VAE.mk_Generator Row sigma x x (Z.of_nat c)).
Local Abbreviation ss := (fun j : nat => nth (nth j sigma 0%nat) sigma 0%nat).

Lemma sigma_length : length sigma = length x_train.
Proof. rewrite <- (Permutation_length Hperm). apply length_seq. Qed.

Lemma sigma_range j :
  (j < length x_train)%nat -> (nth j sigma 0 < length x_train)%nat.
Proof.
  intros Hj.
  assert (In (nth j sigma 0%nat) sigma)
    by (apply nth_In; rewrite sigma_length; auto).
  apply (Permutation_in _ (Permutation_sym Hperm)) in H.
  apply in_seq in H. lia.
Qed.

Lemma sigma_inj i j :
  (i < length x_train)%nat -> (j < length x_train)%nat ->
  nth i sigma 0%nat = nth j sigma 0%nat -> i = j.
Proof.
  intros Hi Hj. apply NoDup_nth; rewrite ?sigma_length; auto.
  apply (Permutation_NoDup Hperm), seq_NoDup.
Qed.

Lemma ss_inj i j :
  (i < length x_train)%nat -> (j < length x_train)%nat ->
  ss i = ss j -> i = j.
Proof.
  intros Hi Hj E. cbv beta in E.
  apply sigma_inj in E; try (apply sigma_range; lia).
  apply sigma_inj in E; auto.
Qed.

(** The turn of the loop with [counter = c]. *)
Lemma next_at c :
  (c < nb)%nat ->
  exists rows c',
    take_rows x_train (map ss (seq (b * c) b)) = Ok rows /\
    next self (G c) = Ok (rows, rows, G c') /\
    (S c = nb -> c' = 0%nat) /\ (S c <> nb -> c' = S c).
Proof.
  intros Hc.
  assert (Hbound : (b * c + b <= length x_train)%nat) by nia.
  destruct (take_rows_in_range x_train (map ss (seq (b * c) b)))
    as [rows Hrows].
  { intros i Hi. apply in_map_iff in Hi as [j [<- Hj]].
    apply in_seq in Hj. apply sigma_range, sigma_range. lia. }
  exists rows, (if Nat.eqb (S c) nb then 0%nat else S c).
  split; auto. split.
  - unfold VAE.next. cbn [VAE.shuffle_index VAE.counter VAE.x VAE.y].
    rewrite Hb, Hnb.
    replace (Z.of_nat b * Z.of_nat c)%Z with (Z.of_nat (b * c)) by lia.
    replace (Z.of_nat b * (Z.of_nat c + 1))%Z
      with (Z.of_nat (b * c + b)) by lia.
    rewrite slice_nat by (rewrite sigma_length; lia).
    replace (b * c + b - b * c)%nat with b by lia.
    rewrite firstn_skipn_seq by (rewrite sigma_length; lia).
    rewrite (take_rows_compose x_train sigma x _ Hx).
    2:{ intros i Hi. apply in_map_iff in Hi as [j [<- Hj]].
        apply in_seq in Hj. rewrite sigma_length. apply sigma_range. lia. }
    rewrite map_map, Hrows. cbn [bind]. do 3 f_equal.
    destruct (Nat.eqb_spec (S c) nb);
      destruct (Z.geb_spec (Z.of_nat c + 1) (Z.of_nat nb)); lia.
  - destruct (Nat.eqb_spec (S c) nb); split; intros; congruence.
Qed.

Lemma pass_S fuel g :
  pass (S fuel) self g
  = (r <- next self g ;;
     let '(x_batch, y_batch, g') := r in
     if Z.eqb (VAE.counter _ g') 0 then Ok (Some ([(x_batch, y_batch)], g'))
     else
       rest <- pass fuel self g' ;;
       match rest with
       | Some (batches, g'') => Ok (Some ((x_batch, y_batch) :: batches, g''))
       | None => Ok None
       end).
Proof. reflexivity. Qed.

(** Fewer turns than remain in the pass do not complete it. *)
Lemma pass_short fuel c :
  (c + fuel < nb)%nat -> pass fuel self (G c) = Ok None.
Proof.
  revert c. induction fuel as [|fuel IH]; intros c Hc; [reflexivity|].
  destruct (next_at c) as [rows [c' [_ [Hnext [_ Hc']]]]]; [lia|].
  rewrite Hc' in Hnext by lia.
  rewrite pass_S, Hnext. cbn [bind VAE.counter].
  destruct (Z.eqb_spec (Z.of_nat (S c)) 0); [lia|].
  rewrite IH by lia. reflexivity.
Qed.

(** The turns that remain complete the pass and leave the generator
    as it was at the start. *)
Lemma pass_from m c :
  (c + m = nb)%nat -> (1 <= m)%nat ->
  exists batches,
    pass m self (G c) = Ok (Some (batches, G 0)) /\
    Forall2 (fun batch cc =>
               take_rows x_train (map ss (seq (b * cc) b)) = Ok (fst batch)
               /\ snd batch = fst batch)
            batches (seq c m).
Proof.
  revert c. induction m as [|m IH]; intros c Hc Hm; [lia|].
  destruct (next_at c) as [rows [c' [Hrows [Hnext [Hlast Hmore]]]]]; [lia|].
  rewrite pass_S, Hnext. cbn [bind].
  destruct (Nat.eq_dec (S c) nb) as [E|E].
  - rewrite (Hlast E). assert (m = 0%nat) by lia. subst m.
    cbn [VAE.counter Z.of_nat Z.eqb].
    eexists. split; [reflexivity|]. constructor; auto.
  - rewrite (Hmore E). cbn [VAE.counter].
    destruct (Z.eqb_spec (Z.of_nat (S c)) 0); [lia|].
    destruct (IH (S c)) as [batches [-> HF]]; try lia.
    cbn [bind]. eexists. split; [reflexivity|]. constructor; auto.
Qed.

End OnePass.

Lemma Forall2_map_r {A B C} (P : A -> C -> Prop) (f : B -> C) l1 l2 :
  Forall2 (fun a b => P a (f b)) l1 l2 -> Forall2 P l1 (map f l2).
Proof. induction 1; simpl; constructor; auto. Qed.

(** C3, amended.  For a model built with [0 < batch_size <= n_users] and a
    training matrix of [n_users] rows:
    - a pass of the generator ends after exactly
      [n_users // batch_size] batches, not before, and leaves the generator
      as it started, so that every pass yields the same batches in the same
      order; with a seed, every generator over the same data starts that
      way too;
    - each batch holds [batch_size] rows, input and target alike;
    - the rows emitted in a pass are distinct rows of [x_train], those that
      the first [batch_size * number_of_batches] entries of the shuffle
      select, and the rows selected by the trailing entries are not
      emitted. *)
Theorem nn_batch_generator_passes
        (a : VAE.Args) (self : StandardVAE) (x_train : list Row)
        (fresh : RandomState) :
  __init__ a = Ok self ->
  Z.of_nat (length x_train) = VAE.a_n_users a ->
  (0 < VAE.a_batch_size a <= VAE.a_n_users a)%Z ->
  let bs := Z.to_nat (VAE.a_batch_size a) in
  let nb := Z.to_nat (VAE.a_n_users a / VAE.a_batch_size a) in
  exists g batches rows,
    nn_batch_generator self x_train fresh = Ok g /\
    (forall fresh', VAE.a_seed a <> None ->
                    nn_batch_generator self x_train fresh' = Ok g) /\
    pass nb self g = Ok (Some (batches, g)) /\
    (forall fuel, (fuel < nb)%nat -> pass fuel self g = Ok None) /\
    length batches = nb /\
    Forall2 (fun batch ix =>
               take_rows x_train ix = Ok (fst batch) /\
               snd batch = fst batch /\ length ix = bs)
            batches rows /\
    concat rows = map (emitted_row g) (seq 0 (bs * nb)) /\
    NoDup (concat rows) /\
    (forall j, (bs * nb <= j < length x_train)%nat ->
               ~ In (emitted_row g j) (concat rows)).
Proof.
  intros Hinit Hlen Hbs bs nb.
  destruct (init_fields a self Hinit)
    as [_ [_ [Hnb [Hb [_ [Hseed _]]]]]].
  assert (Hdiv : (1 <= VAE.a_n_users a / VAE.a_batch_size a)%Z).
  { apply Z.div_le_lower_bound; lia. }
  assert (Hmul : (VAE.a_batch_size a
                  * (VAE.a_n_users a / VAE.a_batch_size a)
                  <= VAE.a_n_users a)%Z).
  { apply Z.mul_div_le. lia. }
  assert (Hfit : (bs * nb <= length x_train)%nat) by (unfold bs, nb; nia).
  assert (Hb' : VAE.batch_size _ self = Z.of_nat bs) by (unfold bs; lia).
  assert (Hnb' : VAE.number_of_batches _ self = Z.of_nat nb)
    by (unfold nb; lia).
  set (st := VAE.np_random_seed RandomState seeded (VAE.seed _ self) fresh).
  set (sigma := np_random_shuffle st (seq 0 (length x_train))).
  assert (Hperm : Permutation (seq 0 (length x_train)) sigma)
    by apply shuffle_permutes.
  destruct (take_rows_in_range x_train sigma) as [x Hx].
  { intros i Hi. apply (Permutation_in _ (Permutation_sym Hperm)) in Hi.
    apply in_seq in Hi. lia. }
  set (g := VAE.mk_Generator Row sigma x x 0).
  destruct (pass_from self x_train sigma x bs nb Hperm Hx Hb' Hnb' Hfit nb 0)
    as [batches [Hpass HF]]; try lia.
  exists g, batches,
    (map (fun c => map (emitted_row g) (seq (bs * c) bs)) (seq 0 nb)).
  assert (Hconcat :
            concat (map (fun c => map (emitted_row g) (seq (bs * c) bs))
                        (seq 0 nb))
            = map (emitted_row g) (seq 0 (bs * nb))).
  { rewrite <- concat_seq_chunks, concat_map, map_map. reflexivity. }
  assert (Hgen : nn_batch_generator self x_train fresh = Ok g).
  { unfold VAE.nn_batch_generator. fold st. fold sigma. rewrite Hx.
    reflexivity. }
  split; [exact Hgen|]. split; [|split; [|split; [|split; [|split;
    [|split; [|split]]]]]].
  - intros fresh' Hs. rewrite <- Hgen. unfold VAE.nn_batch_generator.
    rewrite Hseed. destruct (VAE.a_seed a); [reflexivity|congruence].
  - exact Hpass.
  - intros fuel Hfuel.
    apply (pass_short self x_train sigma x bs nb Hperm Hx Hb' Hnb' Hfit
             fuel 0%nat).
    lia.
  - apply Forall2_length in HF. now rewrite length_seq in HF.
  - apply Forall2_map_r. eapply Forall2_impl; [|exact HF].
    intros batch c [H1 H2]. rewrite length_map, length_seq. auto.
  - exact Hconcat.
  - rewrite Hconcat.
    apply NoDup_map_NoDup_ForallPairs; [|apply seq_NoDup].
    intros i j Hi Hj E. apply in_seq in Hi, Hj.
    apply (ss_inj x_train sigma bs nb Hperm Hfit); auto; lia.
  - intros j Hj Hin. rewrite Hconcat in Hin.
    apply in_map_iff in Hin as [i [E Hi]]. apply in_seq in Hi.
    apply (ss_inj x_train sigma bs nb Hperm Hfit) in E; lia.
Qed.

End BatchFacts.

(** C3, as stated, fails for a batch size above the number of users: with
    two users and [batch_size = 3] the number of batches is [2 // 3 = 0],
    but the loop yields before it tests the stopping rule, so a pass consists
    of one batch, and that batch holds both rows. *)
Lemma nn_batch_generator_short_data_emits :
  exists self g batch,
    Sample.__init__ Sample.args_2_3 = Ok self /\
    VAE.number_of_batches _ self = (2 / 3)%Z /\
    Sample.nn_batch_generator self Sample.clicks_2 0%Z = Ok g /\
    Sample.pass 1 self g = Ok (Some ([batch], g)) /\
    length [batch] <> Z.to_nat (2 / 3) /\
    length (fst batch) = 2%nat.
Proof.
  do 3 eexists.
  split; [reflexivity|]. split; [reflexivity|]. split; [reflexivity|].
  split; [reflexivity|]. split; [discriminate|reflexivity].
Qed.

Lemma nn_batch_generator_passes_witness :
  exists self g batches,
    Sample.__init__ Sample.args_5_2 = Ok self /\
    Sample.nn_batch_generator self Sample.clicks_5 0%Z = Ok g /\
    Sample.pass 2 self g = Ok (Some (batches, g)) /\
    length batches = 2%nat.
Proof.
  remember (Sample.__init__ Sample.args_5_2) as r eqn:E.
  vm_compute in E.
  match type of E with _ = Ok ?s => set (self := s) in * end.
  subst r.
  destruct (nn_batch_generator_passes
              Sample.KModel Sample._create_model Sample.Row
              Sample.RandomState Sample.seeded Sample.np_random_shuffle
              (fun _ l => Permutation_rev l)
              Sample.args_5_2 self Sample.clicks_5 0%Z)
    as [g [batches [rows [Hg [_ [Hp [_ [Hl _]]]]]]]].
  - reflexivity.
  - reflexivity.
  - simpl. lia.
  - exists self, g, batches. repeat split; assumption.
Defined.

(* ----------------------------------------------------------------- *)
(** ** Construction and [fit] *)

Section VAEFacts.

Variable KModel : Type.
Variable _create_model : Z -> Z -> Z -> Q -> Q -> result KModel.
Variable Row : Type.
Variable fit_generator :
  KModel -> VAE.StandardVAE KModel -> list Row -> list Row ->
  Callback.Metrics -> VAE.Trained KModel.

Local Abbreviation StandardVAE := (VAE.StandardVAE KModel).
Local Abbreviation __init__ := (VAE.__init__ KModel _create_model).
Local Abbreviation fit := (VAE.fit KModel Row fit_generator).

(** C10, amended.  What the constructor does, in the order of its
    statements:
    - a seed that numpy does not accept raises [ValueError];
    - otherwise [batch_size = 0] raises [ZeroDivisionError], at
      [n_users // batch_size], whatever [anneal_cap] is;
    - otherwise an [n_epochs] or a step count
      [number_of_batches * (n_epochs - int(n_epochs * 0.2))] too large for
      a float raises [OverflowError];
    - otherwise [anneal_cap = 0] raises [ZeroDivisionError], whatever
      [annealing] is;
    - otherwise the constructor goes on to build the model, and completes
      when the model building does, with
      [number_of_batches = n_users // batch_size]. *)
Theorem init_zero_division (a : VAE.Args) :
  let kept :=
    int_ (binary64 (binary64 (inject_Z (VAE.a_n_epochs a))
                    * binary64 (2#10))) in
  let steps :=
    (VAE.a_n_users a / VAE.a_batch_size a * (VAE.a_n_epochs a - kept))%Z in
  let built :=
    _create_model (VAE.a_original_dim a) (VAE.a_intermediate_dim a)
                  (VAE.a_latent_dim a) (VAE.a_drop_encoder a)
                  (VAE.a_drop_decoder a) in
  (VAE.seed_accepted (VAE.a_seed a) = false ->
   __init__ a = Raise (ValueError "Seed must be between 0 and 2**32 - 1")) /\
  (VAE.seed_accepted (VAE.a_seed a) = true ->
   (VAE.a_batch_size a = 0%Z -> __init__ a = Raise ZeroDivisionError) /\
   (VAE.a_batch_size a <> 0%Z ->
    (float_of_int_overflows (VAE.a_n_epochs a) = true \/
     float_of_int_overflows steps = true ->
     __init__ a
     = Raise (OverflowError "int too large to convert to float")) /\
    (float_of_int_overflows (VAE.a_n_epochs a) = false ->
     float_of_int_overflows steps = false ->
     ((binary64 (VAE.a_anneal_cap a) == 0)%Q ->
      __init__ a = Raise ZeroDivisionError) /\
     (~ (binary64 (VAE.a_anneal_cap a) == 0)%Q ->
      (forall model,
         built = Ok model ->
         exists self,
           __init__ a = Ok self /\
           VAE.number_of_batches _ self
           = (VAE.a_n_users a / VAE.a_batch_size a)%Z /\
           VAE.annealing _ self = VAE.a_annealing a /\
           VAE.model _ self = model) /\
      (forall e, built = Raise e -> __init__ a = Raise e))))).
Proof.
  intros kept steps built. unfold VAE.__init__. split.
  { intros ->. reflexivity. }
  intros ->. cbn [bind]. unfold floordiv. split.
  { intros ->. reflexivity. }
  intros Hbs.
  destruct (Z.eqb_spec (VAE.a_batch_size a) 0); [contradiction|].
  cbn [bind]. unfold float_of_int.
  destruct (float_of_int_overflows (VAE.a_n_epochs a)) eqn:En; cbn [bind].
  { split; [reflexivity|discriminate]. }
  fold kept. fold steps. unfold floordiv_float, float_of_int.
  destruct (float_of_int_overflows steps) eqn:Es; cbn [bind].
  { split; [reflexivity|discriminate]. }
  split; [intros [H|H]; discriminate|]. intros _ _.
  fold built.
  destruct (Qeq_bool (binary64 (VAE.a_anneal_cap a)) 0) eqn:Ec.
  - apply Qeq_bool_iff in Ec. split; [reflexivity|contradiction].
  - split.
    { intros H. apply Qeq_bool_iff in H. congruence. }
    intros _. split.
    + intros model ->. cbn [bind]. eexists. repeat split.
    + intros e ->. reflexivity.
Qed.

(** C5.  On a model constructed with [annealing=True], [fit] prints that
    annealing is not supported and returns: no epoch has run, the model is
    the one that was built, and the training records are still unset. *)
Theorem fit_annealing_aborts
        (a : VAE.Args) (self : StandardVAE) (x_train x_valid : list Row)
        (x_val_tr x_val_te : TopK.ndarray) :
  __init__ a = Ok self ->
  VAE.a_annealing a = true ->
  let (self', events) := fit self x_train x_valid x_val_tr x_val_te in
  events = [VAE.Printed "annealing is not supported. Please set to False"] /\
  VAE.epochs_run events = 0%Z /\
  VAE.model _ self' = VAE.model _ self /\
  VAE.train_loss _ self' = None /\
  VAE.val_loss _ self' = None /\
  VAE.val_ndcg _ self' = None.
Proof.
  intros Hinit Hann.
  assert (Hself : VAE.annealing _ self = true /\
                  VAE.train_loss _ self = None /\
                  VAE.val_loss _ self = None /\
                  VAE.val_ndcg _ self = None).
  { revert Hinit. unfold VAE.__init__.
    destruct (VAE.seed_accepted _); cbn [bind]; [|discriminate].
    destruct (floordiv _ _); cbn [bind]; [|discriminate].
    destruct (float_of_int _); cbn [bind]; [|discriminate].
    destruct (floordiv_float _ _); cbn [bind]; [|discriminate].
    destruct (_create_model _ _ _ _ _); cbn [bind]; [|discriminate].
    intros H. injection H as <-. cbn. auto. }
  destruct Hself as [H1 [H2 [H3 H4]]].
  unfold VAE.fit. rewrite H1. simpl. repeat split; assumption.
Qed.

End VAEFacts.

(** C10, as stated, fails in both halves.  [anneal_cap=1.0] is not 0, yet
    with [batch_size=0] the constructor raises at [n_users // batch_size],
    and with [10**400] users it raises [OverflowError] where the step count
    is converted to a float.  [anneal_cap=0] with [seed=-1] raises the
    [ValueError] of [np.random.seed], not a division by zero. *)
Lemma init_nonzero_cap_raises :
  (~ (binary64 (VAE.a_anneal_cap Sample.args_batch_0) == 0)%Q /\
   Sample.__init__ Sample.args_batch_0 = Raise ZeroDivisionError) /\
  (~ (binary64 (VAE.a_anneal_cap Sample.args_huge) == 0)%Q /\
   Sample.__init__ Sample.args_huge
   = Raise (OverflowError "int too large to convert to float")) /\
  ((binary64 (VAE.a_anneal_cap Sample.args_seed_neg) == 0)%Q /\
   Sample.__init__ Sample.args_seed_neg
   = Raise (ValueError "Seed must be between 0 and 2**32 - 1")).
Proof.
  split; [|split]; split;
    try (vm_compute; reflexivity); vm_compute; discriminate.
Qed.

Lemma init_zero_division_witness :
  Sample.__init__ Sample.args_cap_0 = Raise ZeroDivisionError /\
  returns (Sample.__init__ Sample.args_default).
Proof.
  destruct (init_zero_division Sample.KModel Sample._create_model
              Sample.args_cap_0) as [_ H].
  destruct (init_zero_division Sample.KModel Sample._create_model
              Sample.args_default) as [_ H'].
  split.
  - destruct H as [_ H]; [reflexivity|].
    destruct H as [_ H]; [discriminate|].
    destruct H as [H _];
      [vm_compute; reflexivity|vm_compute; reflexivity|].
    apply H. vm_compute. reflexivity.
  - destruct H' as [_ H']; [reflexivity|].
    destruct H' as [_ H']; [discriminate|].
    destruct H' as [_ H'];
      [vm_compute; reflexivity|vm_compute; reflexivity|].
    destruct H' as [H' _]; [vm_compute; discriminate|].
    destruct (H' tt eq_refl) as [self [Hs _]].
    exists self. exact Hs.
Defined.

Lemma fit_annealing_aborts_witness :
  exists self self',
    Sample.__init__ Sample.args_annealing = Ok self /\
    Sample.fit self Sample.clicks_5 Sample.clicks_5
               TopK.clicks_2x3 TopK.clicks_2x3
    = (self', [VAE.Printed "annealing is not supported. Please set to False"])
    /\ VAE.model _ self' = VAE.model _ self.
Proof.
  remember (Sample.__init__ Sample.args_annealing) as r eqn:E.
  vm_compute in E.
  match type of E with _ = Ok ?s => set (self := s) in * end.
  subst r.
  pose proof (fit_annealing_aborts
                Sample.KModel Sample._create_model Sample.Row
                Sample.fit_generator Sample.args_annealing self
                Sample.clicks_5 Sample.clicks_5 TopK.clicks_2x3
                TopK.clicks_2x3 eq_refl eq_refl) as H.
  unfold Sample.fit.
  destruct (VAE.fit Sample.KModel Sample.Row Sample.fit_generator self
                    Sample.clicks_5 Sample.clicks_5 TopK.clicks_2x3
                    TopK.clicks_2x3) as [self' events] eqn:Efit.
  destruct H as [He [_ [Hm _]]].
  exists self, self'. subst events. repeat split; auto.
Defined.

(* ----------------------------------------------------------------- *)
(** ** Checkpointing in [Metrics.on_epoch_end] *)

Section CallbackFacts.

Variable KModel : Type.
Variable predict : KModel -> TopK.ndarray -> TopK.ndarray.
Variable map_back_sparse : TopK.ndarray -> Ranking.DataFrame.

Local Abbreviation Metrics := Callback.Metrics.
Local Abbreviation Saved := (Callback.Saved KModel).
Local Abbreviation record_ndcg := (Callback.record_ndcg KModel).
Local Abbreviation on_epoch_end :=
  (Callback.on_epoch_end KModel predict map_back_sparse).
Local Abbreviation epochs := (Callback.epochs KModel).

Local Open Scope R_scope.

(** [on_epoch_end] ends with [record_ndcg] on the NDCG of the epoch. *)
Lemma on_epoch_end_records model (self : Metrics) (saved : Saved) r :
  on_epoch_end model self saved = Ok r ->
  exists NDCG, r = record_ndcg NDCG model self saved.
Proof.
  unfold Callback.on_epoch_end.
  destruct (recommend_k_items _ _ _ _); simpl; [|discriminate].
  destruct (ndcg_at_k _ _ _ _ _) as [NDCG|]; simpl; [|discriminate].
  intros H. injection H as <-. now exists NDCG.
Qed.

Lemma record_ndcg_step NDCG model (self : Metrics) (saved : Saved) :
  let (self', saved') := record_ndcg NDCG model self saved in
  (Callback.persists NDCG self ->
   exists path, Callback.save_path self = Some path /\
                saved' = saved ++ [(path, model)]) /\
  (~ Callback.persists NDCG self -> saved' = saved) /\
  Callback.best_ndcg self' = Rmax (Callback.best_ndcg self) NDCG /\
  Callback.best_ndcg self <= Callback.best_ndcg self' /\
  Callback._data self' = Callback._data self ++ [NDCG] /\
  Callback.save_path self' = Callback.save_path self.
Proof.
  unfold Callback.record_ndcg, Callback.persists.
  destruct (Rgt_dec NDCG (Callback.best_ndcg self)) as [Hgt|Hle]; simpl.
  - repeat split.
    + intros [_ Hp]. destruct (Callback.save_path self) as [path|];
        [|congruence]. exists path. auto.
    + intros Hn. destruct (Callback.save_path self) as [path|]; auto.
      exfalso. apply Hn. split; [assumption|discriminate].
    + rewrite Rmax_right; lra.
    + lra.
  - repeat split.
    + intros [Hgt _]. contradiction.
    + rewrite Rmax_left; lra.
    + lra.
Qed.

Lemma epochs_best obs (self : Metrics) (saved : Saved) :
  let (self', saved') := epochs obs self saved in
  Callback.best_ndcg self'
  = fold_left Rmax (map fst obs) (Callback.best_ndcg self) /\
  Callback._data self' = Callback._data self ++ map fst obs.
Proof.
  revert self saved. induction obs as [|[NDCG model] obs IH];
    intros self saved; simpl.
  - now rewrite app_nil_r.
  - pose proof (record_ndcg_step NDCG model self saved) as Hstep.
    destruct (record_ndcg NDCG model self saved) as [self1 saved1].
    destruct Hstep as [_ [_ [Hbest [_ [Hdata _]]]]].
    specialize (IH self1 saved1).
    destruct (epochs obs self1 saved1) as [self' saved'].
    destruct IH as [IH1 IH2].
    rewrite IH1, IH2, Hbest, Hdata, <- app_assoc. auto.
Qed.

Lemma fold_left_Rmax_ge l a : a <= fold_left Rmax l a.
Proof.
  revert a. induction l as [|b l IH]; intros a; simpl; [lra|].
  eapply Rle_trans; [apply (Rmax_l a b)|apply IH].
Qed.

(** [record_ndcg] keeps what the validation reads. *)
Lemma record_ndcg_keeps NDCG model (self : Metrics) (saved : Saved) :
  Callback.val_tr (fst (record_ndcg NDCG model self saved))
  = Callback.val_tr self /\
  Callback.val_te (fst (record_ndcg NDCG model self saved))
  = Callback.val_te self /\
  Callback.k (fst (record_ndcg NDCG model self saved)) = Callback.k self.
Proof.
  unfold Callback.record_ndcg.
  destruct (Rgt_dec NDCG (Callback.best_ndcg self)); simpl; auto.
Qed.

Local Abbreviation run := (Callback.run KModel predict map_back_sparse).

(** The NDCG of the validation set under [model]: the recommendations for
    [val_tr], mapped to a table and compared with the table of [val_te]. *)
Local Abbreviation validates val_tr val_te k model NDCG :=
  (exists top_k,
     recommend_k_items (predict model) val_tr k true = Ok top_k /\
     ndcg_at_k (map_back_sparse val_te) (map_back_sparse top_k)
               top_k_method k DEFAULT_THRESHOLD = Ok NDCG).

(** A run over models that can all be validated is the fold of
    [record_ndcg] over their NDCG values. *)
Lemma run_epochs models ndcgs (self : Metrics) (saved : Saved) :
  Forall2 (fun model NDCG =>
             validates (Callback.val_tr self) (Callback.val_te self)
                       (Callback.k self) model NDCG)
          models ndcgs ->
  run models self saved = Ok (epochs (combine ndcgs models) self saved).
Proof.
  intros HF. revert ndcgs self saved HF.
  induction models as [|model models IH]; intros ndcgs self saved HF;
    inversion HF as [|? NDCG ? ndcgs' [top_k [Hrec Hndcg]] HF']; subst;
    [reflexivity|].
  cbn [Callback.run combine Callback.epochs].
  unfold Callback.on_epoch_end. rewrite Hrec. cbn [bind].
  rewrite Hndcg. cbn [bind].
  destruct (record_ndcg_keeps NDCG model self saved) as [E1 [E2 E3]].
  destruct (record_ndcg NDCG model self saved) as [self1 saved1] eqn:E.
  cbn [fst snd] in *. apply IH. now rewrite E1, E2, E3.
Qed.

(** C8.  [best_ndcg] starts at 0.  At the end of an epoch the callback
    computes the NDCG of the validation set (the recommendations for
    [val_tr] against [val_te]); the model is saved exactly when that NDCG is
    strictly above [best_ndcg] and a save path is configured, and nothing is
    written otherwise; [best_ndcg] becomes the larger of its old value and
    the NDCG, so it never decreases, and the NDCG is appended to the list.
    When the validation raises, so does [on_epoch_end].  After any run of
    epochs [best_ndcg] is the maximum of 0 and the NDCG values of the
    epochs, which are those listed by [get_data]. *)
Theorem on_epoch_end_checkpoints :
  (forall val_tr val_te k save_path,
     Callback.best_ndcg (Callback.__init__ val_tr val_te k save_path) = 0) /\
  (forall model (self : Metrics) (saved : Saved) NDCG,
     validates (Callback.val_tr self) (Callback.val_te self)
               (Callback.k self) model NDCG ->
     exists self' saved',
       on_epoch_end model self saved = Ok (self', saved') /\
       (Callback.persists NDCG self ->
        exists path, Callback.save_path self = Some path /\
                     saved' = saved ++ [(path, model)]) /\
       (~ Callback.persists NDCG self -> saved' = saved) /\
       Callback.best_ndcg self' = Rmax (Callback.best_ndcg self) NDCG /\
       Callback.best_ndcg self <= Callback.best_ndcg self' /\
       Callback.get_data self' = Callback.get_data self ++ [NDCG]) /\
  (forall model (self : Metrics) (saved : Saved) e,
     recommend_k_items (predict model) (Callback.val_tr self)
                       (Callback.k self) true = Raise e \/
     (exists top_k,
        recommend_k_items (predict model) (Callback.val_tr self)
                          (Callback.k self) true = Ok top_k /\
        ndcg_at_k (map_back_sparse (Callback.val_te self))
                  (map_back_sparse top_k) top_k_method (Callback.k self)
                  DEFAULT_THRESHOLD = Raise e) ->
     on_epoch_end model self saved = Raise e) /\
  (forall val_tr val_te k save_path models ndcgs,
     let start :=
       Callback.on_train_begin (Callback.__init__ val_tr val_te k save_path) in
     Forall2 (fun model NDCG => validates val_tr val_te k model NDCG)
             models ndcgs ->
     exists self' saved',
       run models start [] = Ok (self', saved') /\
       (self', saved') = epochs (combine ndcgs models) start [] /\
       Callback.best_ndcg self' = fold_left Rmax ndcgs 0 /\
       Callback.get_data self' = ndcgs /\
       0 <= Callback.best_ndcg self' /\
       forall NDCG, In NDCG ndcgs -> NDCG <= Callback.best_ndcg self').
Proof.
  split; [reflexivity|]. split; [|split].
  - intros model self saved NDCG [top_k [Hrec Hndcg]].
    unfold Callback.on_epoch_end. rewrite Hrec. cbn [bind].
    rewrite Hndcg. cbn [bind].
    pose proof (record_ndcg_step NDCG model self saved) as H.
    destruct (record_ndcg NDCG model self saved) as [self' saved'].
    exists self', saved'. unfold Callback.get_data. tauto.
  - intros model self saved e [Hrec|[top_k [Hrec Hndcg]]];
      unfold Callback.on_epoch_end; rewrite Hrec; cbn [bind];
      [|rewrite Hndcg]; reflexivity.
  - intros val_tr val_te k save_path models ndcgs start HF.
    assert (Hlen : length models = length ndcgs)
      by (eapply Forall2_length; eauto).
    rewrite (run_epochs models ndcgs start [] HF).
    pose proof (epochs_best (combine ndcgs models) start []) as H.
    destruct (epochs (combine ndcgs models) start []) as [self' saved'].
    exists self', saved'. split; [reflexivity|]. split; [reflexivity|].
    assert (Hfst : map fst (combine ndcgs models) = ndcgs).
    { clear - Hlen. revert models Hlen.
      induction ndcgs as [|v ndcgs IH]; intros [|m models] Hlen;
        simpl in *; try discriminate; auto.
      f_equal. apply IH. lia. }
    rewrite Hfst in H. destruct H as [H1 H2]. simpl in H1, H2.
    unfold Callback.get_data. rewrite H1, H2.
    repeat split; auto.
    + apply fold_left_Rmax_ge.
    + intros NDCG. generalize 0. clear.
      induction ndcgs as [|b l IH]; intros a Hin; simpl in *;
        [contradiction|].
      destruct Hin as [->|Hin]; [|now apply IH].
      eapply Rle_trans; [apply (Rmax_r a NDCG)|apply fold_left_Rmax_ge].
Qed.

End CallbackFacts.

(* ----------------------------------------------------------------- *)
(** ** Tables: keys, groups and sorting *)

Section TableFacts.

Lemma in_unique u l : In u (unique l) <-> In u l.
Proof.
  induction l as [|v l IH]; simpl; [tauto|].
  rewrite filter_In, IH.
  destruct (Nat.eqb_spec u v); simpl; intuition congruence.
Qed.

Lemma NoDup_unique l : NoDup (unique l).
Proof.
  induction l as [|v l IH]; simpl; constructor.
  - rewrite filter_In, Nat.eqb_refl. simpl. intros [_ H]. discriminate.
  - now apply NoDup_filter.
Qed.

Lemma in_insert_key u v l : In u (insert_key v l) <-> u = v \/ In u l.
Proof.
  induction l as [|w l IH]; simpl; [intuition|].
  destruct (Nat.ltb_spec v w); simpl; [intuition|].
  destruct (Nat.eqb_spec v w); simpl; [subst; intuition|].
  rewrite IH. intuition.
Qed.

Lemma in_group_keys u l : In u (group_keys l) <-> In u l.
Proof.
  induction l as [|v l IH]; simpl; [tauto|].
  rewrite in_insert_key, IH. intuition.
Qed.

Lemma insert_key_sorted v l :
  StronglySorted lt l -> StronglySorted lt (insert_key v l).
Proof.
  induction 1 as [|w l Hs IH Hall]; simpl.
  - repeat constructor.
  - destruct (Nat.ltb_spec v w).
    + constructor; [now constructor|].
      constructor; auto.
      eapply Forall_impl; [|exact Hall]. simpl. intros; lia.
    + destruct (Nat.eqb_spec v w); [now constructor|].
      constructor; auto.
      apply Forall_forall. intros x Hx. apply in_insert_key in Hx.
      rewrite Forall_forall in Hall. destruct Hx as [->|Hx]; [lia|auto].
Qed.

Lemma NoDup_group_keys l : NoDup (group_keys l).
Proof.
  assert (Hs : StronglySorted lt (group_keys l)).
  { induction l; simpl; [constructor|now apply insert_key_sorted]. }
  induction Hs as [|w k Hs IH Hall]; constructor; auto.
  intros Hin. rewrite Forall_forall in Hall. specialize (Hall _ Hin). lia.
Qed.

Lemma rows_of_user_app {A} (key : A -> nat) u (l1 l2 : list A) :
  rows_of_user key u (l1 ++ l2)
  = rows_of_user key u l1 ++ rows_of_user key u l2.
Proof. apply filter_app. Qed.

Lemma rows_of_user_all {A} (key : A -> nat) u (l : list A) :
  (forall r, In r l -> key r = u) -> rows_of_user key u l = l.
Proof.
  induction l as [|r l IH]; intros H; simpl; auto.
  rewrite (H r (or_introl eq_refl)), Nat.eqb_refl, IH; auto.
  intros; apply H; now right.
Qed.

Lemma rows_of_user_none {A} (key : A -> nat) u (l : list A) :
  (forall r, In r l -> key r <> u) -> rows_of_user key u l = [].
Proof.
  induction l as [|r l IH]; intros H; simpl; auto.
  destruct (Nat.eqb_spec (key r) u) as [E|E].
  - exfalso. apply (H r); auto. now left.
  - apply IH. intros; apply H; now right.
Qed.

(** The rows of one user in a table built group by group. *)
Lemma rows_of_user_groups (G : nat -> list rating) keys u :
  NoDup keys ->
  (forall v r, In r (G v) -> user r = v) ->
  rows_of_user user u (flat_map G keys) = if mem u keys then G u else [].
Proof.
  intros Hnd HG. induction Hnd as [|v keys Hv Hnd IH]; simpl; auto.
  rewrite rows_of_user_app, IH.
  destruct (Nat.eqb_spec u v) as [->|Hne]; simpl.
  - rewrite rows_of_user_all by (intros; now apply HG).
    assert (Hm : mem v keys = false).
    { unfold mem. destruct (existsb (Nat.eqb v) keys) eqn:E; auto.
      apply existsb_eqb_in in E. contradiction. }
    rewrite Hm. apply app_nil_r.
  - rewrite rows_of_user_none; auto.
    intros r Hr E. apply HG in Hr. congruence.
Qed.

Lemma insert_desc_perm r l : Permutation (insert_desc r l) (r :: l).
Proof.
  induction l as [|q l IH]; simpl; auto.
  destruct (Qle_bool (value q) (value r)); auto.
  rewrite IH. apply perm_swap.
Qed.

Lemma sort_desc_perm l : Permutation (sort_desc l) l.
Proof.
  induction l as [|r l IH]; simpl; auto.
  rewrite insert_desc_perm. now constructor.
Qed.

Lemma in_firstn {A} n (l : list A) x : In x (firstn n l) -> In x l.
Proof.
  revert n. induction l as [|a l IH]; intros n; destruct n; simpl;
    try tauto.
  intros [H|H]; eauto.
Qed.

Lemma NoDup_firstn {A} n (l : list A) : NoDup l -> NoDup (firstn n l).
Proof.
  revert n. induction l as [|a l IH]; intros n H; destruct n; simpl;
    try constructor.
  - inversion H; subst. intros Hin. apply in_firstn in Hin. contradiction.
  - inversion H; subst. auto.
Qed.

Lemma same_rows_eq l1 l2 : same_rows l1 l2 = true <-> l1 = l2.
Proof.
  revert l2. induction l1 as [|a l1 IH]; intros [|b l2]; simpl;
    try (split; [discriminate|congruence]); [tauto|].
  rewrite andb_true_iff, IH. unfold same_row.
  rewrite !andb_true_iff, !Nat.eqb_eq, Z.eqb_eq, Pos.eqb_eq.
  destruct a as [ua ia [na da]], b as [ub ib [nb db]]; simpl.
  split.
  - intros [[[[-> ->] ->] ->] ->]. reflexivity.
  - intros H. injection H as -> -> -> -> ->. auto.
Qed.

Lemma rows_of_user_absent df u :
  mem u (group_keys (map user df)) = false -> rows_of_user user u df = [].
Proof.
  intros H. apply rows_of_user_none. intros r Hr E.
  assert (Hin : In u (group_keys (map user df))).
  { apply in_group_keys. rewrite <- E. now apply in_map. }
  apply existsb_eqb_in in Hin. unfold mem in H. congruence.
Qed.

Lemma in_nlargest k x r : In r (nlargest k x) -> In r x.
Proof.
  unfold nlargest. intros H. apply in_firstn in H.
  now apply (Permutation_in _ (sort_desc_perm _)) in H.
Qed.

(** The two outcomes of [groupby_apply_nlargest]. *)
Lemma groupby_apply_nlargest_cases df k :
  let keys := group_keys (map user df) in
  let G := fun u => nlargest k (rows_of_user user u df) in
  (groupby_apply_nlargest df k = df /\
   forall u, In u keys -> G u = rows_of_user user u df) \/
  (groupby_apply_nlargest df k = flat_map G keys /\
   exists u, In u keys /\ G u <> rows_of_user user u df).
Proof.
  intros keys G. unfold groupby_apply_nlargest. fold keys.
  destruct (forallb _ keys) eqn:E.
  - left. split; auto. intros u Hu.
    rewrite forallb_forall in E. now apply same_rows_eq, E.
  - right. split; auto.
    destruct (existsb (fun u => negb (same_rows (G u)
                                        (rows_of_user user u df))) keys)
      eqn:E'.
    + apply existsb_exists in E' as [u [Hu Hne]]. cbv beta in Hne.
      apply negb_true_iff in Hne.
      exists u. split; auto. intros Heq.
      apply (proj2 (same_rows_eq _ _)) in Heq. congruence.
    + exfalso. apply not_true_iff_false in E. apply E.
      apply forallb_forall. intros u Hu.
      destruct (same_rows _ _) eqn:Es; auto.
      apply not_true_iff_false in E'. exfalso. apply E'.
      apply existsb_exists. exists u. unfold G. now rewrite Es.
Qed.

(** The rows of one user in the result. *)
Lemma groupby_apply_nlargest_rows df k u :
  rows_of_user user u (groupby_apply_nlargest df k)
  = if mem u (group_keys (map user df))
    then nlargest k (rows_of_user user u df) else [].
Proof.
  destruct (groupby_apply_nlargest_cases df k) as [[-> Hsame]|[-> _]].
  - destruct (mem u (group_keys (map user df))) eqn:E.
    + symmetry. apply Hsame. now apply existsb_eqb_in.
    + now apply rows_of_user_absent.
  - apply rows_of_user_groups; [apply NoDup_group_keys|].
    intros v r Hr. apply in_nlargest, filter_In in Hr as [_ Hr].
    now apply Nat.eqb_eq in Hr.
Qed.

Lemma in_groupby_apply_nlargest df k r :
  In r (groupby_apply_nlargest df k) -> In r df.
Proof.
  destruct (groupby_apply_nlargest_cases df k) as [[-> _]|[-> _]]; auto.
  intros H. apply in_flat_map in H as [u [_ H]].
  now apply in_nlargest, filter_In in H as [H _].
Qed.

Lemma distinct_keys_NoDup l : distinct_keys l = true -> NoDup l.
Proof.
  induction l as [|p l IH]; simpl; intros H; constructor.
  - apply andb_true_iff in H as [H _]. apply negb_true_iff in H.
    intros Hin. apply not_true_iff_false in H. apply H.
    apply existsb_exists. exists p. split; auto.
    now rewrite !Nat.eqb_refl.
  - apply IH. now apply andb_true_iff in H as [_ H].
Qed.

Lemma NoDup_map_filter {A B} (f : A -> B) (g : A -> bool) l :
  NoDup (map f l) -> NoDup (map f (filter g l)).
Proof.
  induction l as [|a l IH]; simpl; intros H; auto.
  inversion H as [|? ? Hnotin Hnd]; subst.
  destruct (g a); simpl; auto. constructor; auto.
  intros Hin. apply Hnotin. apply in_map_iff in Hin as [x [E Hx]].
  apply filter_In in Hx as [Hx _]. apply in_map_iff. eauto.
Qed.

(** At most one row of a table with distinct keys has a given key. *)
Lemma filter_key_unique {A} (key : A -> nat * nat) (l : list A) u i :
  NoDup (map key l) ->
  (length (filter (fun t => Nat.eqb (fst (key t)) u
                            && Nat.eqb (snd (key t)) i) l) <= 1)%nat.
Proof.
  induction l as [|t l IH]; simpl; intros H; [lia|].
  inversion H as [|? ? Hnotin Hnd]; subst.
  destruct (Nat.eqb_spec (fst (key t)) u) as [E1|E1];
    destruct (Nat.eqb_spec (snd (key t)) i) as [E2|E2]; simpl; auto.
  rewrite (proj2 (length_zero_iff_nil _)); auto.
  destruct (filter _ l) as [|t' r] eqn:E; auto.
  exfalso. apply Hnotin.
  assert (Hin : In t' (filter (fun t0 => Nat.eqb (fst (key t0)) u
                               && Nat.eqb (snd (key t0)) i) l))
    by (rewrite E; now left).
  apply filter_In in Hin as [Hin Hk].
  apply andb_true_iff in Hk as [K1 K2]. apply Nat.eqb_eq in K1, K2.
  apply in_map_iff. exists t'. split; auto.
  destruct (key t'), (key t); simpl in *; congruence.
Qed.

Lemma filter_user_unique {A} (key : A -> nat) (l : list A) u :
  NoDup (map key l) ->
  (length (filter (fun t => Nat.eqb (key t) u) l) <= 1)%nat.
Proof.
  induction l as [|t l IH]; simpl; intros H; [lia|].
  inversion H as [|? ? Hnotin Hnd]; subst.
  destruct (Nat.eqb_spec (key t) u); simpl; auto.
  rewrite (proj2 (length_zero_iff_nil _)); auto.
  destruct (filter _ l) as [|t' r] eqn:E; auto.
  exfalso. apply Hnotin.
  assert (Hin : In t' (filter (fun t0 => Nat.eqb (key t0) u) l))
    by (rewrite E; now left).
  apply filter_In in Hin as [Hin Hk]. apply Nat.eqb_eq in Hk.
  apply in_map_iff. exists t'. split; auto. congruence.
Qed.

End TableFacts.

(* ----------------------------------------------------------------- *)
(** ** Discounted gains *)

Section DiscountFacts.

Local Open Scope R_scope.

Lemma log1p_pos r : (1 <= r)%nat -> 0 < ln (1 + INR r).
Proof.
  intros Hr. apply le_INR in Hr. simpl in Hr.
  rewrite <- ln_1. apply ln_increasing; lra.
Qed.

Lemma discount_pos r : (1 <= r)%nat -> 0 < discount r.
Proof.
  intros Hr. unfold discount.
  apply Rdiv_lt_0_compat; [lra|now apply log1p_pos].
Qed.

Lemma discount_antitone r s :
  (1 <= r <= s)%nat -> discount s <= discount r.
Proof.
  intros [Hr Hs]. unfold discount, Rdiv. rewrite !Rmult_1_l.
  apply Rinv_le_contravar; [now apply log1p_pos|].
  destruct (Nat.eq_dec r s) as [->|Hne]; [lra|].
  assert (Hlt : INR r < INR s) by (apply lt_INR; lia).
  assert (H1 : (1 <= INR r)) by (apply le_INR in Hr; simpl in Hr; lra).
  left. apply ln_increasing; lra.
Qed.

Lemma Rsum_app l1 l2 : Rsum (l1 ++ l2) = Rsum l1 + Rsum l2.
Proof.
  induction l1 as [|a l1 IH]; simpl; [lra|]. rewrite IH. lra.
Qed.

Lemma Rsum_nonneg l : Forall (fun v => 0 <= v) l -> 0 <= Rsum l.
Proof. induction 1; simpl; lra. Qed.

Lemma Rsum_bounded l :
  Forall (fun v => 0 <= v <= 1) l -> 0 <= Rsum l <= INR (length l).
Proof.
  induction 1 as [|v l Hv Hl IH].
  - simpl. lra.
  - change (length (v :: l)) with (S (length l)). rewrite S_INR. simpl. lra.
Qed.

Lemma Rsum_discount_nonneg a m :
  (1 <= a)%nat -> 0 <= Rsum (map discount (seq a m)).
Proof.
  intros Ha. apply Rsum_nonneg, Forall_forall. intros v Hv.
  apply in_map_iff in Hv as [r [<- Hr]]. apply in_seq in Hr.
  left. apply discount_pos. lia.
Qed.

Lemma Rsum_discount_shift a m :
  (1 <= a)%nat ->
  Rsum (map discount (seq (S a) m)) <= Rsum (map discount (seq a m)).
Proof.
  revert a. induction m as [|m IH]; intros a Ha; simpl; [lra|].
  specialize (IH (S a)). assert (H := discount_antitone a (S a)).
  assert (IH' : Rsum (map discount (seq (S (S a)) m))
                <= Rsum (map discount (seq (S a) m))) by (apply IH; lia).
  assert (H' : discount (S a) <= discount a) by (apply H; lia).
  lra.
Qed.

Lemma Rsum_discount_mono a h m :
  (1 <= a)%nat -> (h <= m)%nat ->
  Rsum (map discount (seq a h)) <= Rsum (map discount (seq a m)).
Proof.
  intros Ha Hm. replace m with (h + (m - h))%nat by lia.
  rewrite seq_app, map_app, Rsum_app.
  assert (H := Rsum_discount_nonneg (a + h) (m - h)).
  assert (0 <= Rsum (map discount (seq (a + h) (m - h)))) by (apply H; lia).
  lra.
Qed.

(** The gains of a selection of rows ranked [a], [a+1], ... are at most
    the first gains from [a] on. *)
Lemma Rsum_discount_selection (f : ranked -> bool) P a :
  (1 <= a)%nat ->
  map rank P = seq a (length P) ->
  Rsum (map (fun p => discount (rank p)) (filter f P))
  <= Rsum (map discount (seq a (length (filter f P)))).
Proof.
  revert a. induction P as [|p P IH]; intros a Ha Hr; simpl; [lra|].
  simpl in Hr. injection Hr as Hp HP.
  specialize (IH (S a)).
  assert (IH' : Rsum (map (fun p => discount (rank p)) (filter f P))
                <= Rsum (map discount (seq (S a) (length (filter f P)))))
    by (apply IH; auto).
  destruct (f p); simpl.
  - rewrite Hp. lra.
  - eapply Rle_trans; [exact IH'|]. now apply Rsum_discount_shift.
Qed.

Lemma idcg_pos k x : (1 <= k)%nat -> (1 <= x)%nat -> 0 < idcg k x.
Proof.
  intros Hk Hx. unfold idcg.
  destruct (Nat.min x k) as [|m] eqn:E; [lia|].
  simpl. assert (H := discount_pos 1).
  assert (H' := Rsum_discount_nonneg 2 m).
  assert (0 < discount 1) by (apply H; lia).
  assert (0 <= Rsum (map discount (seq 2 m))) by (apply H'; lia).
  lra.
Qed.

End DiscountFacts.

(* ----------------------------------------------------------------- *)
(** ** Ranks and hits *)

Section RankingFacts.

Lemma add_ranks_rows seen df : map row_of (add_ranks seen df) = df.
Proof.
  revert seen. induction df as [|r df IH]; intros seen; simpl; auto.
  now rewrite IH.
Qed.

(** The rows of one user are ranked 1, 2, ... in their order. *)
Lemma add_ranks_user seen df u :
  let top_u := rows_of_user (fun p => user (row_of p)) u (add_ranks seen df) in
  map row_of top_u = rows_of_user user u df /\
  map rank top_u
  = seq (count_occ Nat.eq_dec seen u + 1) (length (rows_of_user user u df)).
Proof.
  revert seen. induction df as [|r df IH]; intros seen; simpl; auto.
  destruct (IH (user r :: seen)) as [IH1 IH2].
  destruct (Nat.eqb_spec (user r) u) as [E|E]; simpl.
  - rewrite IH1, IH2. split; auto. subst u.
    rewrite count_occ_cons_eq by reflexivity.
    do 2 f_equal.
  - rewrite IH1, IH2. split; auto.
    now rewrite count_occ_cons_neq by assumption.
Qed.

Lemma in_add_ranks seen df p :
  In p (add_ranks seen df) -> In (row_of p) df.
Proof.
  intros H. rewrite <- (add_ranks_rows seen df). now apply in_map.
Qed.

Lemma existsb_filter_nil {A} (f : A -> bool) l :
  existsb f l = false <-> filter f l = [].
Proof.
  induction l as [|a l IH]; simpl; [tauto|].
  destruct (f a); simpl; [split; discriminate|exact IH].
Qed.

(** On a truth table with distinct keys a prediction matches at most one
    row, so the hits are the predictions that have a match. *)
Lemma merge_hits_filter top truth :
  NoDup (map key truth) ->
  merge_hits top truth = map hit_of (filter (has_match truth) top).
Proof.
  intros Hnd. induction top as [|p top IH]; simpl; auto.
  rewrite IH. unfold has_match at 2.
  pose proof (filter_key_unique key truth (user (row_of p))
                (item (row_of p)) Hnd) as Hlen.
  simpl in Hlen.
  destruct (existsb _ truth) eqn:E.
  - destruct (filter _ truth) as [|t [|t' r]] eqn:F; simpl in *.
    + apply existsb_filter_nil in F. congruence.
    + reflexivity.
    + lia.
  - apply existsb_filter_nil in E. rewrite E. reflexivity.
Qed.

Lemma filter_comm {A} (f g : A -> bool) l :
  filter f (filter g l) = filter g (filter f l).
Proof.
  induction l as [|a l IH]; simpl; auto.
  destruct (f a) eqn:Ef, (g a) eqn:Eg; simpl; rewrite ?Ef, ?Eg, IH; auto.
Qed.

(** The hits of one user are the matching rows among that user's ranked
    predictions. *)
Lemma hits_of_user top truth u :
  NoDup (map key truth) ->
  rows_of_user h_user u (merge_hits top truth)
  = map hit_of
        (filter (has_match truth)
                (rows_of_user (fun p => user (row_of p)) u top)).
Proof.
  intros Hnd. rewrite merge_hits_filter by assumption.
  unfold rows_of_user. rewrite filter_map_swap. simpl.
  now rewrite filter_comm.
Qed.

Lemma NoDup_items_of_user (X : list rating) u :
  NoDup (map key X) -> (forall r, In r X -> user r = u) ->
  NoDup (map item X).
Proof.
  intros Hnd Hu. apply (NoDup_map_inv (fun i => (u, i))).
  rewrite map_map.
  replace (map (fun r => (u, item r)) X) with (map key X); auto.
  apply map_ext_in. intros r Hr. unfold key. now rewrite (Hu r Hr).
Qed.

(** What [get_top_k_items] holds for one user: at most [k] rows, of that
    user, taken from the table, with distinct items when the table has
    distinct keys, ranked from 1. *)
Lemma get_top_k_items_user df k u :
  NoDup (map key df) ->
  let top_u :=
    rows_of_user (fun p => user (row_of p)) u
                 (get_top_k_items df (Some k)) in
  (length top_u <= k)%nat /\
  map rank top_u = seq 1 (length top_u) /\
  NoDup (map (fun p => item (row_of p)) top_u) /\
  (forall p, In p top_u -> user (row_of p) = u /\ In (row_of p) df).
Proof.
  intros Hnd. unfold get_top_k_items.
  set (G := fun v => nlargest k (rows_of_user user v df)).
  destruct (add_ranks_user [] (groupby_apply_nlargest df k) u)
    as [Hrows Hranks].
  set (top_u := rows_of_user _ u (add_ranks [] _)) in *.
  assert (HG : forall v r, In r (G v) -> user r = v /\ In r df).
  { intros v r Hr. unfold G, nlargest in Hr. apply in_firstn in Hr.
    apply (Permutation_in _ (sort_desc_perm _)) in Hr.
    apply filter_In in Hr as [Hin E]. apply Nat.eqb_eq in E. auto. }
  rewrite groupby_apply_nlargest_rows in Hrows, Hranks.
  change (nlargest k (rows_of_user user u df)) with (G u) in Hrows, Hranks.
  assert (Hlen : length top_u
                 = length (if mem u (group_keys (map user df))
                           then G u else [])).
  { now rewrite <- Hrows, length_map. }
  assert (HGu : (length (G u) <= k)%nat /\ NoDup (map item (G u))).
  { split.
    - unfold G, nlargest. apply firstn_le_length.
    - apply (NoDup_items_of_user _ u); [|intros r Hr; now apply HG].
      unfold G, nlargest. rewrite <- firstn_map. apply NoDup_firstn.
      apply (Permutation_NoDup
               (Permutation_map key (Permutation_sym (sort_desc_perm _)))).
      now apply NoDup_map_filter. }
  destruct HGu as [HGk HGn].
  repeat split.
  - rewrite Hlen. destruct (mem u _); simpl; lia.
  - rewrite Hranks, Hlen. reflexivity.
  - rewrite <- (map_map row_of item), Hrows.
    destruct (mem u _); [assumption|constructor].
  - apply filter_In in H as [_ E]. now apply Nat.eqb_eq in E.
  - assert (Hin : In (row_of p) (map row_of top_u)) by now apply in_map.
    rewrite Hrows in Hin.
    destruct (mem u _); [now apply HG in Hin|contradiction].
Qed.

End RankingFacts.

(* ----------------------------------------------------------------- *)
(** ** The range of NDCG\@k *)

Section NDCGFacts.

Local Open Scope R_scope.

(** One user's discounted gain is at most the ideal one. *)
Lemma user_dcg_bound (top_u : list ranked) (truth : DataFrame) k u :
  NoDup (map key truth) ->
  (length top_u <= k)%nat ->
  map rank top_u = seq 1 (length top_u) ->
  NoDup (map (fun p => item (row_of p)) top_u) ->
  (forall p, In p top_u -> user (row_of p) = u) ->
  let hits_u := map hit_of (filter (has_match truth) top_u) in
  let actual := length (rows_of_user user u truth) in
  0 <= Rsum (map (fun h => discount (h_rank h)) hits_u) <= idcg k actual /\
  (hits_u <> [] -> 0 < idcg k actual).
Proof.
  intros Hnd Hk Hranks Hitems Huser hits_u actual.
  set (sel := filter (has_match truth) top_u) in *.
  assert (Hh1 : (length sel <= k)%nat).
  { pose proof (filter_length_le (has_match truth) top_u). unfold sel. lia. }
  assert (Hh2 : (length sel <= actual)%nat).
  { unfold actual.
    rewrite <- (length_map (fun p => item (row_of p)) sel).
    rewrite <- (length_map item (rows_of_user user u truth)).
    apply NoDup_incl_length; [now apply NoDup_map_filter|].
    intros i Hi. apply in_map_iff in Hi as [p [<- Hp]].
    apply filter_In in Hp as [Hp Hm].
    apply existsb_exists in Hm as [t [Ht Hm]].
    apply andb_true_iff in Hm as [E1 E2]. apply Nat.eqb_eq in E1, E2.
    rewrite <- E2. apply in_map. apply filter_In. split; auto.
    apply Nat.eqb_eq. rewrite E1. now apply Huser. }
  assert (Hsum : map (fun h => discount (h_rank h)) hits_u
                 = map (fun p => discount (rank p)) sel).
  { unfold hits_u. now rewrite map_map. }
  rewrite Hsum. split; [split|].
  - apply Rsum_nonneg, Forall_forall. intros v Hv.
    apply in_map_iff in Hv as [p [<- Hp]].
    apply filter_In in Hp as [Hp _].
    assert (Hr : In (rank p) (map rank top_u)) by now apply in_map.
    rewrite Hranks in Hr. apply in_seq in Hr.
    left. apply discount_pos. lia.
  - eapply Rle_trans.
    + apply (Rsum_discount_selection (has_match truth) top_u 1);
        [lia|assumption].
    + unfold idcg. apply Rsum_discount_mono; [lia|].
      fold sel. lia.
  - intros Hne. apply idcg_pos.
    + destruct sel; [now destruct Hne|simpl in Hh1; lia].
    + destruct sel; [now destruct Hne|simpl in Hh2; lia].
Qed.

Lemma count_by_user_keys {A} (f : A -> nat) (df : list A) :
  map fst (count_by_user f df) = group_keys (map f df).
Proof. unfold count_by_user. rewrite map_map. simpl. apply map_id. Qed.

Lemma in_merge_counts c hits actuals :
  In c (merge_counts hits actuals) ->
  In (c_user c) (map fst hits) /\ In (c_user c, c_actual c) actuals.
Proof.
  unfold merge_counts. intros H.
  apply in_flat_map in H as [h [Hh H]].
  apply in_map_iff in H as [a [<- Ha]].
  apply filter_In in Ha as [Ha E]. apply Nat.eqb_eq in E. simpl.
  split; [now apply in_map|]. rewrite <- E. now destruct a.
Qed.

Lemma merge_counts_users hits actuals :
  NoDup (map fst hits) -> NoDup (map fst actuals) ->
  NoDup (map c_user (merge_counts hits actuals)).
Proof.
  intros Hh Ha. induction hits as [|h hits IH]; simpl; [constructor|].
  inversion Hh as [|? ? Hnotin Hnd]; subst.
  rewrite map_app, map_map. simpl.
  pose proof (filter_user_unique fst actuals (fst h) Ha) as Hlen.
  destruct (filter _ actuals) as [|a [|a' r]]; simpl in *; auto; [|lia].
  constructor; auto.
  intros Hin. apply Hnotin. apply in_map_iff in Hin as [c [<- Hc]].
  now apply in_merge_counts in Hc.
Qed.

Lemma in_merge_dcg r df_dcg df_hit_count :
  In r (merge_dcg df_dcg df_hit_count) ->
  In (c_user (snd r), fst r) df_dcg /\ In (snd r) df_hit_count.
Proof.
  unfold merge_dcg. intros H.
  apply in_flat_map in H as [d [Hd H]].
  apply in_map_iff in H as [c [<- Hc]].
  apply filter_In in Hc as [Hc E]. apply Nat.eqb_eq in E. simpl.
  split; auto. rewrite E. now destruct d.
Qed.

Lemma merge_dcg_length df_dcg df_hit_count :
  NoDup (map c_user df_hit_count) ->
  (length (merge_dcg df_dcg df_hit_count) <= length df_dcg)%nat.
Proof.
  intros Hnd. induction df_dcg as [|d df_dcg IH]; simpl; auto.
  rewrite length_app, length_map.
  pose proof (filter_user_unique c_user df_hit_count (fst d) Hnd). lia.
Qed.

Lemma Rdiv_unit_range s n : 0 <= s <= INR n -> 0 <= s / INR n <= 1.
Proof.
  intros [H0 H1]. destruct n as [|n].
  - simpl in H1. replace s with 0 by lra. unfold Rdiv. rewrite Rmult_0_l.
    lra.
  - assert (Hn : 0 < INR (S n)) by (apply lt_0_INR; lia).
    split.
    + apply Rmult_le_pos; [assumption|]. left. now apply Rinv_0_lt_compat.
    + apply (Rmult_le_reg_r (INR (S n))); [assumption|].
      unfold Rdiv. rewrite Rmult_assoc, Rinv_l, Rmult_1_r, Rmult_1_l; lra.
Qed.

Lemma Rdiv_ratio_range a b : 0 <= a <= b -> 0 < b -> 0 <= a / b <= 1.
Proof.
  intros [H0 H1] Hb. split.
  - apply Rmult_le_pos; [assumption|]. left. now apply Rinv_0_lt_compat.
  - apply (Rmult_le_reg_r b); [assumption|].
    unfold Rdiv. rewrite Rmult_assoc, Rinv_l, Rmult_1_r, Rmult_1_l; lra.
Qed.

Lemma in_get_top_k_items df k p :
  In p (get_top_k_items df (Some k)) -> In (row_of p) df.
Proof.
  unfold get_top_k_items. intros H. apply in_add_ranks in H.
  now apply in_groupby_apply_nlargest in H.
Qed.

End NDCGFacts.

(* ----------------------------------------------------------------- *)
(** ** Guards of [ndcg_at_k] and [merge_ranking_true_pred] *)

Section GuardFacts.

(** C7.  When the merge of the predictions with the truth holds no hit,
    [ndcg_at_k] returns 0 at once, whatever the number of common users
    is. *)
Theorem ndcg_at_k_no_hits (rating_true rating_pred : DataFrame)
        (relevancy_method : relevancy) (k threshold : nat)
        (df_hit_count : list hit_count) (n_users : nat) :
  merge_ranking_true_pred rating_true rating_pred relevancy_method k threshold
  = Ok ([], df_hit_count, n_users) ->
  ndcg_at_k rating_true rating_pred relevancy_method k threshold = Ok 0%R.
Proof.
  intros H. unfold ndcg_at_k. rewrite H. reflexivity.
Qed.

Lemma ndcg_at_k_no_hits_witness :
  merge_ranking_true_pred scenario_true disjoint_pred top_k_method 2
                          DEFAULT_THRESHOLD
  = Ok ([], [], 2%nat) /\
  ndcg_at_k scenario_true disjoint_pred top_k_method 2 DEFAULT_THRESHOLD
  = Ok 0%R.
Proof.
  split; [reflexivity|].
  apply (ndcg_at_k_no_hits scenario_true disjoint_pred top_k_method 2
           DEFAULT_THRESHOLD [] 2).
  reflexivity.
Defined.

Lemma ndcg_at_k_returns rating_true rating_pred relevancy_method k threshold :
  returns (merge_ranking_true_pred rating_true rating_pred relevancy_method
                                   k threshold) ->
  returns (ndcg_at_k rating_true rating_pred relevancy_method k threshold).
Proof.
  intros [[[df_hit df_hit_count] n_users] H].
  unfold ndcg_at_k. rewrite H. cbn [bind].
  destruct (Nat.eqb (length df_hit) 0); eexists; reflexivity.
Qed.

(** C9.  A [relevancy_method] other than ["top_k"], ["by_threshold"] and
    [None] makes [merge_ranking_true_pred], and with it [ndcg_at_k], raise
    [NotImplementedError], whatever the tables hold; with one of the three
    values neither raises. *)
Theorem relevancy_method_checked (rating_true rating_pred : DataFrame)
        (relevancy_method : relevancy) (k threshold : nat) :
  (relevancy_method <> None ->
   relevancy_method <> top_k_method ->
   relevancy_method <> by_threshold_method ->
   merge_ranking_true_pred rating_true rating_pred relevancy_method
                           k threshold
   = Raise (NotImplementedError "Invalid relevancy_method") /\
   ndcg_at_k rating_true rating_pred relevancy_method k threshold
   = Raise (NotImplementedError "Invalid relevancy_method")) /\
  (relevancy_method = None \/
   relevancy_method = top_k_method \/
   relevancy_method = by_threshold_method ->
   returns (merge_ranking_true_pred rating_true rating_pred relevancy_method
                                    k threshold) /\
   returns (ndcg_at_k rating_true rating_pred relevancy_method k threshold)).
Proof.
  split.
  - intros H1 H2 H3.
    unfold ndcg_at_k, merge_ranking_true_pred, top_k_method,
      by_threshold_method in *.
    destruct relevancy_method as [m|]; [|congruence].
    destruct (String.eqb_spec m "top_k"); [congruence|].
    destruct (String.eqb_spec m "by_threshold"); [congruence|].
    split; reflexivity.
  - intros H.
    assert (Hm : returns (merge_ranking_true_pred rating_true rating_pred
                            relevancy_method k threshold)).
    { destruct H as [-> | [-> | ->]]; eexists; reflexivity. }
    split; [exact Hm|now apply ndcg_at_k_returns].
Qed.

End GuardFacts.

Lemma relevancy_method_checked_witness :
  ndcg_at_k scenario_true scenario_pred (Some "precision"%string) 2
            DEFAULT_THRESHOLD
  = Raise (NotImplementedError "Invalid relevancy_method") /\
  returns (ndcg_at_k scenario_true scenario_pred by_threshold_method 2
                     DEFAULT_THRESHOLD).
Proof.
  split.
  - apply (relevancy_method_checked scenario_true scenario_pred
             (Some "precision"%string) 2 DEFAULT_THRESHOLD); discriminate.
  - apply (relevancy_method_checked scenario_true scenario_pred
             by_threshold_method 2 DEFAULT_THRESHOLD). auto.
Defined.

(* ----------------------------------------------------------------- *)
(** ** The loss *)

Section LossFacts.

Import Loss.
Local Open Scope R_scope.

Lemma map_seq_combine (F : R -> R -> R) (a b : list R) :
  length a = length b ->
  map (fun i => F (nth i a 0) (nth i b 0)) (seq 0 (length a))
  = map (fun p => F (fst p) (snd p)) (combine a b).
Proof.
  revert b. induction a as [|x a IH]; intros [|y b] H; simpl in *;
    try discriminate; auto.
  f_equal. rewrite <- seq_shift, map_map. apply IH. congruence.
Qed.

(** The Kullback-Leibler term of the code is the sum over the latent
    dimensions that the specification writes. *)
Lemma kl_loss_spec (z_mean z_log_var : list R) :
  length z_mean = length z_log_var ->
  (5 / 10) *
  Loss.Rsum (zip_with Rplus
               (zip_with Rplus (map (fun v => -1 - v) z_log_var)
                         (map (fun m => m * m) z_mean))
               (map exp z_log_var))
  = kl_spec z_mean z_log_var.
Proof.
  intros Hlen. unfold kl_spec. f_equal.
  rewrite (map_seq_combine
             (fun m v => -1 - v + m ^ 2 + exp v) z_mean z_log_var Hlen).
  clear. unfold zip_with. revert z_log_var.
  induction z_mean as [|m z_mean IH]; intros [|v z_log_var]; simpl; auto.
  rewrite IH. f_equal. ring.
Qed.

(** C4, amended.  The loss of the code is
    [original_dim * binary_crossentropy(x, x_bar) + beta * KL] with the
    Kullback-Leibler term of the specification; the reconstruction term is
    the binary (logistic) cross-entropy averaged over the items. *)
Theorem vae_loss_formula (original_dim : Z) (beta : R)
        (z_mean z_log_var x x_bar : list R) :
  length z_mean = length z_log_var ->
  _get_vae_loss original_dim beta z_mean z_log_var x x_bar
  = IZR original_dim
    * (Loss.Rsum
         (map (fun p =>
                 let t := fst p in
                 let o := clip_by_value (snd p) epsilon (1 - epsilon) in
                 - (t * ln (o + epsilon) + (1 - t) * ln (1 - o + epsilon)))
              (combine x x_bar))
       / INR (length (combine x x_bar)))
    + beta * kl_spec z_mean z_log_var.
Proof.
  intros Hlen. unfold _get_vae_loss.
  rewrite (kl_loss_spec z_mean z_log_var Hlen).
  unfold binary_crossentropy, K_mean, zip_with, K_binary_crossentropy.
  rewrite length_map. reflexivity.
Qed.

Lemma vae_loss_formula_witness :
  _get_vae_loss 2 1 [0] [0] [0; 0] [1 / 2; 1 / 2]
  = 2 * (Loss.Rsum
           (map (fun p =>
                   let t := fst p in
                   let o := clip_by_value (snd p) epsilon (1 - epsilon) in
                   - (t * ln (o + epsilon) + (1 - t) * ln (1 - o + epsilon)))
                (combine [0; 0] [1 / 2; 1 / 2]))
         / INR (length (combine [0; 0] [1 / 2; 1 / 2])))
    + 1 * kl_spec [0] [0].
Proof.
  apply (vae_loss_formula 2 1 [0] [0] [0; 0] [1 / 2; 1 / 2]). reflexivity.
Defined.

(** C4, as stated, fails: for a row without clicks and the uniform
    reconstruction over two items the categorical cross-entropy is 0, while
    the loss of the code is [-2 * ln(1/2 + epsilon)], which is positive. *)
Lemma vae_loss_not_categorical :
  _get_vae_loss 2 1 [0] [0] [0; 0] [1 / 2; 1 / 2]
  <> loss_spec 2 1 [0] [0] [0; 0] [1 / 2; 1 / 2].
Proof.
  assert (Heps : 0 < epsilon < 1 / 4) by (unfold epsilon; lra).
  assert (Hclip : clip_by_value (1 / 2) epsilon (1 - epsilon) = 1 / 2).
  { unfold clip_by_value. rewrite Rmax_left by lra. apply Rmin_left. lra. }
  assert (Hln : ln (1 - 1 / 2 + epsilon) < 0).
  { rewrite <- ln_1. apply ln_increasing; lra. }
  unfold _get_vae_loss, loss_spec, kl_spec, categorical_crossentropy,
    binary_crossentropy, K_mean, zip_with, K_binary_crossentropy.
  simpl. rewrite Hclip, exp_0. lra.
Qed.

End LossFacts.

(* ----------------------------------------------------------------- *)
(** ** The definitions on the sample data *)

(** In the scenario of three users and five items both common users have
    all their true items at the top, and NDCG\@2 is 1. *)
Lemma ndcg_at_k_scenario :
  ndcg_at_k scenario_true scenario_pred top_k_method 2 DEFAULT_THRESHOLD
  = Ok 1%R.
Proof.
  unfold ndcg_at_k.
  replace (merge_ranking_true_pred scenario_true scenario_pred top_k_method 2
             DEFAULT_THRESHOLD)
    with (Ok ([mk_hit 1 1 1; mk_hit 1 2 2; mk_hit 2 3 1],
              [mk_hit_count 1 2 2; mk_hit_count 2 1 1], 2%nat))
    by reflexivity.
  cbn [bind length Nat.eqb]. f_equal.
  unfold dcg_by_user, merge_dcg, idcg, Rsum, rows_of_user. simpl.
  assert (H2 : (0 < ln (1 + INR 1))%R) by (apply log1p_pos; lia).
  assert (H3 : (0 < ln (1 + INR 2))%R) by (apply log1p_pos; lia).
  simpl in H2, H3. unfold discount. simpl.
  field. split; [|split]; apply Rgt_not_eq; lra.
Qed.

(** Distinct keys are needed for the range of NDCG\@k: when the truth lists
    a pair twice, its prediction counts as two hits of rank 1 and NDCG\@1
    is 2. *)
Lemma ndcg_at_k_repeated_rows :
  valid_table repeated_true = false /\
  ndcg_at_k repeated_true single_pred top_k_method 1 DEFAULT_THRESHOLD
  = Ok 2%R.
Proof.
  split; [reflexivity|].
  unfold ndcg_at_k.
  replace (merge_ranking_true_pred repeated_true single_pred top_k_method 1
             DEFAULT_THRESHOLD)
    with (Ok ([mk_hit 1 1 1; mk_hit 1 1 1], [mk_hit_count 1 2 2], 1%nat))
    by reflexivity.
  cbn [bind length Nat.eqb]. f_equal.
  unfold dcg_by_user, merge_dcg, idcg, Rsum, rows_of_user. simpl.
  assert (H2 : (0 < ln (1 + INR 1))%R) by (apply log1p_pos; lia).
  simpl in H2. unfold discount. simpl.
  field. apply Rgt_not_eq; lra.
Qed.

(** C6.  [ndcg_at_k] does not keep to the interval from 0 to 1 that the
    claim and the docstring ("nDCG at k (min=0, max=1)") give.  On the
    tables [threshold_true] and [threshold_pred], in which no (user, item)
    pair occurs twice, with [relevancy_method="by_threshold"], [k=1] and
    [threshold=2], both predictions are hits, of rank 1 and 2, while the
    ideal gain is cut at [k=1]: the result is
    [(1/ln 2 + 1/ln 3) / (1/ln 2) = 1 + ln 2 / ln 3], above 1.6. *)
Theorem ndcg_at_k_exceeds_one :
  valid_table threshold_true = true /\
  valid_table threshold_pred = true /\
  ndcg_at_k threshold_true threshold_pred by_threshold_method 1 2
  = Ok (1 + ln 2 / ln 3)%R /\
  (16 / 10 < 1 + ln 2 / ln 3)%R.
Proof.
  split; [reflexivity|]. split; [reflexivity|].
  assert (H2 : (0 < ln 2)%R) by (rewrite <- ln_1; apply ln_increasing; lra).
  assert (H3 : (0 < ln 3)%R) by (rewrite <- ln_1; apply ln_increasing; lra).
  split.
  - unfold ndcg_at_k.
    replace (merge_ranking_true_pred threshold_true threshold_pred
               by_threshold_method 1 2)
      with (Ok ([mk_hit 1 1 1; mk_hit 1 2 2], [mk_hit_count 1 2 2], 1%nat))
      by reflexivity.
    cbn [bind length Nat.eqb]. f_equal.
    unfold dcg_by_user, merge_dcg, idcg, Rsum, rows_of_user. simpl.
    unfold discount. simpl.
    replace (1 + 1)%R with 2%R by lra.
    replace (1 + 2)%R with 3%R by lra.
    field. split; apply Rgt_not_eq; lra.
  - (* [ln 3 < (10/6) ln 2], as [3^6 = 729 < 1024 = 2^10] *)
    assert (H : (6 * ln 3 < 10 * ln 2)%R).
    { replace (6 * ln 3)%R with (ln (3 ^ 6)) by (rewrite ln_pow; simpl; lra).
      replace (10 * ln 2)%R with (ln (2 ^ 10))
        by (rewrite ln_pow; simpl; lra).
      apply ln_increasing; lra. }
    apply (Rmult_lt_reg_r (ln 3)); [assumption|].
    replace ((1 + ln 2 / ln 3) * ln 3)%R with (ln 3 + ln 2)%R
      by (field; lra).
    lra.
Qed.

(** The validation of the two sample users: the recommendations hit both
    held-out items of the first user, at ranks 1 and 2, and the held-out
    item of the second at rank 2, so that NDCG\@2 is
    [(1 + ln 2 / ln 3) / 2]. *)
Lemma validation_sample :
  exists top_k,
    recommend_k_items (Mapper.predict tt) clicks_2x3 2 true = Ok top_k /\
    ndcg_at_k (Mapper.map_back_sparse Mapper.held_out_2x3)
              (Mapper.map_back_sparse top_k) top_k_method 2
              DEFAULT_THRESHOLD
    = Ok ((1 + ln 2 / ln 3) / 2)%R.
Proof.
  eexists. split; [reflexivity|].
  assert (H2 : (0 < ln 2)%R) by (rewrite <- ln_1; apply ln_increasing; lra).
  assert (H3 : (0 < ln 3)%R) by (rewrite <- ln_1; apply ln_increasing; lra).
  unfold ndcg_at_k.
  match goal with
  | |- context [merge_ranking_true_pred ?T ?P ?m ?k ?t] =>
      replace (merge_ranking_true_pred T P m k t)
        with (Ok ([mk_hit 0 2 1; mk_hit 0 0 2; mk_hit 1 1 2],
                  [mk_hit_count 0 2 2; mk_hit_count 1 1 1], 2%nat))
        by reflexivity
  end.
  cbn [bind length Nat.eqb]. f_equal.
  unfold dcg_by_user, merge_dcg, idcg, Rsum, rows_of_user. simpl.
  unfold discount. simpl.
  replace (1 + 1)%R with 2%R by lra.
  replace (1 + 2)%R with 3%R by lra.
  field. repeat split; apply Rgt_not_eq; lra.
Qed.

(** Two epochs with the same model and a save path: the model is written
    after the first epoch, whose NDCG is above 0, and not after the second,
    whose NDCG is not above the best. *)
Lemma on_epoch_end_checkpoints_witness :
  exists self' saved',
    Callback.run unit Mapper.predict Mapper.map_back_sparse [tt; tt]
                 Mapper.metrics_saving []
    = Ok (self', saved') /\
    Callback.get_data self'
    = [((1 + ln 2 / ln 3) / 2)%R; ((1 + ln 2 / ln 3) / 2)%R] /\
    Callback.best_ndcg self' = ((1 + ln 2 / ln 3) / 2)%R /\
    saved' = [("vae.h5"%string, tt)].
Proof.
  set (NDCG := ((1 + ln 2 / ln 3) / 2)%R).
  assert (Hpos : (0 < NDCG)%R).
  { assert (H2 : (0 < ln 2)%R)
      by (rewrite <- ln_1; apply ln_increasing; lra).
    assert (H3 : (0 < ln 3)%R)
      by (rewrite <- ln_1; apply ln_increasing; lra).
    unfold NDCG. apply Rdiv_lt_0_compat; [|lra].
    assert (0 < ln 2 / ln 3)%R by (apply Rdiv_lt_0_compat; lra). lra. }
  destruct (on_epoch_end_checkpoints unit Mapper.predict
              Mapper.map_back_sparse) as [_ [_ [_ Hrun]]].
  destruct (Hrun clicks_2x3 Mapper.held_out_2x3 2%nat
              (Some "vae.h5"%string) [tt; tt] [NDCG; NDCG])
    as [self' [saved' [Hr [He [Hbest [Hdata _]]]]]].
  { repeat constructor; exact validation_sample. }
  exists self', saved'. split; [exact Hr|]. split; [exact Hdata|]. split.
  - rewrite Hbest. cbn [fold_left]. unfold Rmax.
    repeat destruct (Rle_dec _ _); lra.
  - apply (f_equal snd) in He. cbn [snd] in He. rewrite He.
    unfold Callback.on_train_begin, Callback.__init__.
    cbn [combine Callback.epochs].
    unfold Callback.record_ndcg at 1.
    cbn [Callback.best_ndcg Callback.save_path Callback._data
         Callback.val_tr Callback.val_te Callback.k].
    destruct (Rgt_dec NDCG 0) as [_|H]; [|exfalso; lra].
    unfold Callback.record_ndcg at 1.
    cbn [Callback.best_ndcg Callback.save_path Callback._data
         Callback.val_tr Callback.val_te Callback.k].
    destruct (Rgt_dec NDCG NDCG) as [H|_]; [exfalso; lra|].
    reflexivity.
Defined.

(* ================================================================= *)
(** * Further properties *)

(* ----------------------------------------------------------------- *)
(** ** What the top-k selection keeps *)

Section TopKSelection.

Lemma insert_asc_perm p l : Permutation (insert_asc p l) (p :: l).
Proof.
  induction l as [|q l IH]; simpl; auto.
  destruct (Qle_bool (snd p) (snd q)); auto.
  rewrite IH. apply perm_swap.
Qed.

Lemma sort_asc_perm l : Permutation (sort_asc l) l.
Proof.
  induction l as [|p l IH]; simpl; auto.
  rewrite insert_asc_perm. now constructor.
Qed.

Lemma insert_asc_sorted p l :
  StronglySorted (fun a b => (snd a <= snd b)%Q) l ->
  StronglySorted (fun a b => (snd a <= snd b)%Q) (insert_asc p l).
Proof.
  induction 1 as [|q l Hs IH Hall]; simpl.
  - repeat constructor.
  - destruct (Qle_bool (snd p) (snd q)) eqn:E.
    + apply Qle_bool_iff in E.
      constructor; [now constructor|].
      constructor; auto.
      eapply Forall_impl; [|exact Hall]. simpl. intros a Ha.
      eapply Qle_trans; eauto.
    + assert (Hqp : (snd q <= snd p)%Q).
      { apply Qlt_le_weak, Qnot_le_lt. intros H.
        apply Qle_bool_iff in H. congruence. }
      constructor; auto.
      apply Forall_forall. intros a Ha.
      apply (Permutation_in _ (insert_asc_perm p l)) in Ha.
      destruct Ha as [<-|Ha]; auto.
      rewrite Forall_forall in Hall. now apply Hall.
Qed.

Lemma sort_asc_sorted l :
  StronglySorted (fun a b => (snd a <= snd b)%Q) (sort_asc l).
Proof.
  induction l; simpl; [constructor|now apply insert_asc_sorted].
Qed.

Lemma StronglySorted_split {A} (R : A -> A -> Prop) n l a b :
  StronglySorted R l -> In a (firstn n l) -> In b (skipn n l) -> R a b.
Proof.
  intros Hs. revert n. induction Hs as [|x l Hs IH Hall]; intros n Ha Hb.
  - destruct n; contradiction.
  - destruct n; simpl in *; [contradiction|].
    destruct Ha as [<-|Ha]; [|eauto].
    rewrite Forall_forall in Hall. apply Hall.
    rewrite <- (firstn_skipn n l). apply in_or_app. now right.
Qed.

Lemma map_fst_enumerate (r : list Q) s :
  map fst (combine (seq s (length r)) r) = seq s (length r).
Proof.
  revert s. induction r as [|a r IH]; intros s; simpl; auto.
  now rewrite IH.
Qed.

Lemma in_enumerate (r : list Q) s j v :
  In (j, v) (combine (seq s (length r)) r) ->
  (s <= j)%nat /\ nth_error r (j - s) = Some v.
Proof.
  revert s. induction r as [|a r IH]; intros s H; simpl in *; [contradiction|].
  destruct H as [H|H].
  - injection H as <- <-. rewrite Nat.sub_diag. auto.
  - apply IH in H as [Hs Hn]. split; [lia|].
    replace (j - s)%nat with (S (j - S s)) by lia. exact Hn.
Qed.

Lemma argsort_perm r : Permutation (argsort r) (seq 0 (length r)).
Proof.
  unfold argsort. rewrite <- (map_fst_enumerate r 0) at 2.
  apply Permutation_map, sort_asc_perm.
Qed.

Lemma nth_error_row a i j :
  (j < n_cols a)%nat -> nth_error (row a i) j = Some (at_ a i j).
Proof.
  intros Hj. unfold row.
  rewrite nth_error_map, nth_error_nth' with (d := 0%nat)
    by (rewrite length_seq; lia).
  rewrite seq_nth by assumption. reflexivity.
Qed.

(** The first [k] indices of the sorted row hold the [k] smallest
    values. *)
Lemma argsort_smallest r k j j' v v' :
  In j' (firstn k (argsort r)) ->
  In j (argsort r) -> ~ In j (firstn k (argsort r)) ->
  nth_error r j = Some v -> nth_error r j' = Some v' ->
  (v' <= v)%Q.
Proof.
  unfold argsort. rewrite !firstn_map.
  set (L := sort_asc (combine (seq 0 (length r)) r)).
  intros Hj' Hj Hnot Hv Hv'.
  apply in_map_iff in Hj' as [[a va] [Ea Ha]]. simpl in Ea. subst a.
  assert (Hj2 : In j (map fst (skipn k L))).
  { rewrite <- (firstn_skipn k L), map_app in Hj.
    apply in_app_or in Hj as [Hj|Hj]; [contradiction|assumption]. }
  apply in_map_iff in Hj2 as [[b vb] [Eb Hb]]. simpl in Eb. subst b.
  assert (Hle : (va <= vb)%Q).
  { apply (StronglySorted_split (fun a b => (snd a <= snd b)%Q) k L
             (j', va) (j, vb)); auto. apply sort_asc_sorted. }
  assert (Hva : nth_error r j' = Some va).
  { apply in_firstn in Ha.
    apply (Permutation_in _ (sort_asc_perm _)) in Ha.
    apply in_enumerate in Ha as [_ Ha]. now rewrite Nat.sub_0_r in Ha. }
  assert (Hvb : nth_error r j = Some vb).
  { assert (Hb' : In (j, vb) L).
    { rewrite <- (firstn_skipn k L). apply in_or_app. now right. }
    apply (Permutation_in _ (sort_asc_perm _)) in Hb'.
    apply in_enumerate in Hb' as [_ Hb']. now rewrite Nat.sub_0_r in Hb'. }
  congruence.
Qed.

Lemma argpartition_range_top a k top i :
  argpartition_range a k = Ok top ->
  (i < n_rows a)%nat -> (0 < n_cols a)%nat ->
  NoDup (top i) /\ length (top i) = k /\
  (forall j, In j (top i) -> (j < n_cols a)%nat) /\
  (forall j j', (j < n_cols a)%nat -> ~ In j (top i) -> In j' (top i) ->
                (at_ a i j' <= at_ a i j)%Q).
Proof.
  unfold argpartition_range. intros H Hi Hc.
  destruct (Nat.eqb_spec k 0); [discriminate|].
  destruct (Nat.eqb_spec (size a) 0) as [E|E]; [unfold size in E; nia|].
  destruct (Nat.ltb_spec (n_cols a) k); [discriminate|].
  injection H as <-.
  pose proof (argsort_perm (row a i)) as Hperm.
  rewrite length_row in Hperm.
  assert (Hin : forall j, In j (argsort (row a i)) <-> (j < n_cols a)%nat).
  { intros j. split; intros Hj.
    - apply (Permutation_in _ Hperm) in Hj. apply in_seq in Hj. lia.
    - apply (Permutation_in _ (Permutation_sym Hperm)), in_seq. lia. }
  repeat split.
  - apply NoDup_firstn.
    apply (Permutation_NoDup (Permutation_sym Hperm)), seq_NoDup.
  - rewrite length_firstn, length_argsort, length_row. lia.
  - intros j Hj. apply in_firstn in Hj. now apply Hin.
  - intros j j' Hj Hnot Hj'.
    apply (argsort_smallest (row a i) k j j'); auto.
    + now apply Hin.
    + now apply nth_error_row.
    + apply nth_error_row. apply Hin. eapply in_firstn; eauto.
Qed.

(** X1.  In every row of a result of [recommend_k_items] exactly [k]
    distinct columns are selected: on them the result is the score (masked
    where [remove_seen] applies), elsewhere it is 0, and no column left out
    has a larger score than a selected one. *)
Theorem recommend_k_items_selects_largest
        (predict : ndarray -> ndarray) (x : ndarray) (k : nat)
        (remove_seen : bool) (top_scores : ndarray) (i : nat) :
  recommend_k_items predict x k remove_seen = Ok top_scores ->
  (i < n_rows (predict x))%nat -> (0 < n_cols (predict x))%nat ->
  exists selected : list nat,
    NoDup selected /\ length selected = k /\
    (forall j, In j selected -> (j < n_cols (predict x))%nat) /\
    (forall j, In j selected ->
       (at_ top_scores i j == masked_score (predict x) x remove_seen i j)%Q) /\
    (forall j, (j < n_cols (predict x))%nat -> ~ In j selected ->
       (at_ top_scores i j == 0)%Q /\
       forall j', In j' selected ->
         (masked_score (predict x) x remove_seen i j
          <= masked_score (predict x) x remove_seen i j')%Q).
Proof.
  unfold recommend_k_items, recommend_from_score. intros H Hi Hc.
  assert (Hsc : exists sc,
             (if remove_seen then mask_assign_0 (predict x) x
              else Ok (predict x)) = Ok sc /\
             n_rows sc = n_rows (predict x) /\
             n_cols sc = n_cols (predict x) /\
             forall i j, at_ sc i j
                         = masked_score (predict x) x remove_seen i j).
  { unfold masked_score, mask_assign_0 in *.
    destruct remove_seen; simpl in *.
    - destruct (same_shape (predict x) x); [|discriminate].
      eexists. repeat split.
    - eexists. repeat split. }
  destruct Hsc as [sc [Esc [Hr [Hcs Hat]]]]. rewrite Esc in H. simpl in H.
  destruct (argpartition_range (neg sc) k) as [top|e] eqn:Etop;
    simpl in H; [|discriminate].
  injection H as <-.
  destruct (argpartition_range_top (neg sc) k top i Etop)
    as [Hnd [Hlen [Hrange Hmin]]]; simpl; try lia.
  simpl in Hrange, Hmin.
  exists (top i). repeat split; auto.
  - intros j Hj. apply Hrange in Hj. lia.
  - intros j Hj. simpl. apply existsb_eqb_in in Hj. rewrite Hj, Hat. ring.
  - simpl. destruct (existsb (Nat.eqb j) (top i)) eqn:E.
    + apply existsb_eqb_in in E. contradiction.
    + ring.
  - intros j' Hj'. rewrite <- !Hat.
    assert (Hneg : (- at_ sc i j' <= - at_ sc i j)%Q)
      by (apply Hmin; auto; lia).
    now apply Qopp_le_compat in Hneg; rewrite !Qopp_involutive in Hneg.
Qed.

Lemma recommend_k_items_selects_largest_witness :
  exists top_scores selected,
    recommend_k_items (fun _ => score_2x3) clicks_2x3 2 true = Ok top_scores /\
    length selected = 2%nat /\
    (forall j, In j selected ->
       (at_ top_scores 0 j
        == masked_score score_2x3 clicks_2x3 true 0 j)%Q).
Proof.
  destruct (recommend_k_items (fun _ => score_2x3) clicks_2x3 2 true)
    as [top_scores|e] eqn:E; [|discriminate].
  destruct (recommend_k_items_selects_largest
              (fun _ => score_2x3) clicks_2x3 2 true top_scores 0 E)
    as [selected [_ [Hlen [_ [Hsel _]]]]]; simpl; try lia.
  exists top_scores, selected. auto.
Defined.

End TopKSelection.

(* ----------------------------------------------------------------- *)
(** ** The stages of the ranking merge *)

Section StageFacts.

Import Stages.

Lemma top_k_of_cases m k threshold top_k :
  top_k_of m k threshold = Some top_k ->
  (m = top_k_method /\ top_k = Some k) \/
  (m = by_threshold_method /\ top_k = Some threshold) \/
  (m = None /\ top_k = None).
Proof.
  unfold top_k_of, top_k_method, by_threshold_method.
  destruct m as [s|]; [|intros H; injection H as <-; auto].
  destruct (String.eqb_spec s "top_k") as [->|_];
    [intros H; injection H as <-; auto|].
  destruct (String.eqb_spec s "by_threshold") as [->|_];
    [intros H; injection H as <-; auto|discriminate].
Qed.

(** The named stages are what [merge_ranking_true_pred] and [ndcg_at_k]
    compute. *)
Lemma Ranking_stages rating_true rating_pred m k threshold top_k :
  top_k_of m k threshold = Some top_k ->
  merge_ranking_true_pred rating_true rating_pred m k threshold
  = Ok (hits rating_true rating_pred top_k,
        hit_counts rating_true rating_pred top_k,
        length (common_users rating_true rating_pred)) /\
  ndcg_at_k rating_true rating_pred m k threshold
  = Ok (if Nat.eqb (length (hits rating_true rating_pred top_k)) 0 then 0%R
        else ndcg_value (hits rating_true rating_pred top_k)
                        (hit_counts rating_true rating_pred top_k)
                        (length (common_users rating_true rating_pred)) k).
Proof.
  intros H. apply top_k_of_cases in H.
  assert (Hm : merge_ranking_true_pred rating_true rating_pred m k threshold
               = Ok (hits rating_true rating_pred top_k,
                     hit_counts rating_true rating_pred top_k,
                     length (common_users rating_true rating_pred))).
  { destruct H as [[-> ->] | [[-> ->] | [-> ->]]]; reflexivity. }
  split; [exact Hm|].
  unfold ndcg_at_k. rewrite Hm. cbn [bind].
  destruct (Nat.eqb (length (hits rating_true rating_pred top_k)) 0);
    reflexivity.
Qed.

End StageFacts.

(* ----------------------------------------------------------------- *)
(** ** What [get_top_k_items] returns *)

Section TopItems.

Lemma insert_desc_sorted r l :
  StronglySorted (fun a b => (value b <= value a)%Q) l ->
  StronglySorted (fun a b => (value b <= value a)%Q) (insert_desc r l).
Proof.
  induction 1 as [|q l Hs IH Hall]; simpl.
  - repeat constructor.
  - destruct (Qle_bool (value q) (value r)) eqn:E.
    + apply Qle_bool_iff in E.
      constructor; [now constructor|].
      constructor; auto.
      eapply Forall_impl; [|exact Hall]. simpl. intros a Ha.
      eapply Qle_trans; eauto.
    + assert (Hrq : (value r <= value q)%Q).
      { apply Qlt_le_weak, Qnot_le_lt. intros H.
        apply Qle_bool_iff in H. congruence. }
      constructor; auto.
      apply Forall_forall. intros a Ha.
      apply (Permutation_in _ (insert_desc_perm r l)) in Ha.
      destruct Ha as [<-|Ha]; auto.
      rewrite Forall_forall in Hall. now apply Hall.
Qed.

Lemma sort_desc_sorted l :
  StronglySorted (fun a b => (value b <= value a)%Q) (sort_desc l).
Proof.
  induction l; simpl; [constructor|now apply insert_desc_sorted].
Qed.

Lemma StronglySorted_firstn {A} (R : A -> A -> Prop) n l :
  StronglySorted R l -> StronglySorted R (firstn n l).
Proof.
  intros Hs. revert n. induction Hs as [|x l Hs IH Hall]; intros n;
    destruct n; simpl; try constructor; auto.
  apply Forall_forall. intros y Hy. apply in_firstn in Hy.
  rewrite Forall_forall in Hall. auto.
Qed.

Lemma group_keys_sorted l : StronglySorted lt (group_keys l).
Proof.
  induction l; simpl; [constructor|now apply insert_key_sorted].
Qed.

(** The rows of a user in the result, without their ranks. *)
Lemma get_top_k_items_rows df k u :
  let top_u :=
    rows_of_user (fun p => user (row_of p)) u
                 (get_top_k_items df (Some k)) in
  map row_of top_u = nlargest k (rows_of_user user u df) /\
  map rank top_u = seq 1 (length top_u).
Proof.
  unfold get_top_k_items.
  set (G := fun v => nlargest k (rows_of_user user v df)).
  destruct (add_ranks_user [] (groupby_apply_nlargest df k) u)
    as [Hrows Hranks].
  assert (Hsame : (if mem u (group_keys (map user df)) then G u else [])
                  = G u).
  { destruct (mem u (group_keys (map user df))) eqn:E; auto.
    unfold G, nlargest. rewrite (rows_of_user_absent df u E). simpl.
    now rewrite firstn_nil. }
  rewrite groupby_apply_nlargest_rows in Hrows, Hranks.
  change (nlargest k (rows_of_user user u df)) with (G u) in Hrows, Hranks.
  rewrite Hsame in Hrows, Hranks. cbv zeta. split; [exact Hrows|].
  rewrite Hranks. simpl. f_equal.
  now rewrite <- Hrows, length_map.
Qed.

Lemma get_top_k_items_keeps_rows_aux df k u :
  let top_u :=
    rows_of_user (fun p => user (row_of p)) u
                 (get_top_k_items df (Some k)) in
  (length top_u <= k)%nat /\ map rank top_u = seq 1 (length top_u).
Proof.
  destruct (get_top_k_items_rows df k u) as [Hrows Hranks]. cbv zeta in *.
  split; [|exact Hranks].
  rewrite <- (length_map row_of), Hrows. apply firstn_le_length.
Qed.

(** X2.  For every user, [get_top_k_items] with a number [k] keeps
    [min(k, n)] of the user's [n] rows, ranked 1, 2, ... by decreasing
    value, and no row it leaves out has a larger value than a row it
    keeps. *)
Theorem get_top_k_items_keeps_largest (df : DataFrame) (k u : nat) :
  let top_u :=
    rows_of_user (fun p => user (row_of p)) u
                 (get_top_k_items df (Some k)) in
  let all_u := rows_of_user user u df in
  length top_u = Nat.min k (length all_u) /\
  map rank top_u = seq 1 (length top_u) /\
  StronglySorted (fun a b => (value b <= value a)%Q) (map row_of top_u) /\
  exists rest,
    Permutation (map row_of top_u ++ rest) all_u /\
    forall a b, In a (map row_of top_u) -> In b rest ->
                (value b <= value a)%Q.
Proof.
  destruct (get_top_k_items_rows df k u) as [Hrows Hranks].
  cbv zeta in *.
  set (top_u := rows_of_user _ u (get_top_k_items df (Some k))) in *.
  set (all_u := rows_of_user user u df) in *.
  repeat split.
  - rewrite <- (length_map row_of), Hrows. unfold nlargest.
    rewrite length_firstn, (Permutation_length (sort_desc_perm all_u)).
    reflexivity.
  - exact Hranks.
  - rewrite Hrows. apply StronglySorted_firstn, sort_desc_sorted.
  - exists (skipn k (sort_desc all_u)). rewrite Hrows. unfold nlargest.
    split.
    + rewrite firstn_skipn. apply sort_desc_perm.
    + intros a b Ha Hb.
      apply (StronglySorted_split
               (fun a b => (value b <= value a)%Q) k (sort_desc all_u));
        auto using sort_desc_sorted.
Qed.

(** A list in descending order is left as it is by the sort. *)
Lemma sort_desc_sorted_id l :
  StronglySorted (fun a b => (value b <= value a)%Q) l -> sort_desc l = l.
Proof.
  induction 1 as [|r l Hs IH Hall]; simpl; auto.
  rewrite IH. destruct l as [|q l]; simpl; auto.
  inversion Hall as [|? ? Hq _]; subst.
  apply Qle_bool_iff in Hq. now rewrite Hq.
Qed.

(** Groups concatenated in the order of their keys are ordered by user. *)
Lemma groups_sorted_by_user (G : nat -> list rating) keys :
  StronglySorted lt keys ->
  (forall v r, In r (G v) -> user r = v) ->
  StronglySorted le (map user (flat_map G keys)).
Proof.
  intros Hs HG.
  induction Hs as [|v keys Hs IH Hall]; simpl; [constructor|].
  rewrite map_app.
  assert (Hv : forall w, In w (map user (G v)) -> w = v).
  { intros w Hw. apply in_map_iff in Hw as [r [<- Hr]]. now apply HG. }
  assert (Hrest : forall w, In w (map user (flat_map G keys)) -> (v < w)%nat).
  { intros w Hw. apply in_map_iff in Hw as [r [<- Hr]].
    apply in_flat_map in Hr as [v' [Hv' Hr]]. apply HG in Hr. subst v'.
    rewrite Forall_forall in Hall. now apply Hall. }
  induction (map user (G v)) as [|w ws IHw]; simpl; [exact IH|].
  constructor.
  - apply IHw. intros; apply Hv; now right.
  - apply Forall_forall. intros y Hy.
    rewrite (Hv w (or_introl eq_refl)).
    apply in_app_or in Hy as [Hy|Hy].
    + rewrite (Hv y); [lia|now right].
    + apply Hrest in Hy. lia.
Qed.

(** X3.  With a number [k] the result of [get_top_k_items] holds only rows
    of the table, and its order depends on whether the selection changes
    anything.  When some user has more than [k] rows, or rows that are not
    in descending order of value, the result is ordered by user, as the
    docstring says.  When every user has at most [k] rows, in strictly
    decreasing order of value, so that the selection drops and moves
    nothing, the result is the table in its own order, ordered by user or
    not. *)
Theorem get_top_k_items_order (df : DataFrame) (k : nat) :
  (forall p, In p (get_top_k_items df (Some k)) -> In (row_of p) df) /\
  ((exists u,
      (k < length (rows_of_user user u df))%nat \/
      ~ StronglySorted (fun a b => (value b <= value a)%Q)
                       (rows_of_user user u df)) ->
   StronglySorted le
     (map (fun p => user (row_of p)) (get_top_k_items df (Some k)))) /\
  ((forall u,
      (length (rows_of_user user u df) <= k)%nat /\
      StronglySorted (fun a b => (value b < value a)%Q)
                     (rows_of_user user u df)) ->
   map row_of (get_top_k_items df (Some k)) = df).
Proof.
  split; [intros p; apply in_get_top_k_items|].
  unfold get_top_k_items.
  rewrite <- (map_map row_of user), add_ranks_rows.
  destruct (groupby_apply_nlargest_cases df k) as [[E Hsame]|[E Hdiff]];
    cbv zeta in *; rewrite E; split.
  - intros [u Hu]. exfalso.
    assert (Hk : nlargest k (rows_of_user user u df)
                 = rows_of_user user u df).
    { destruct (mem u (group_keys (map user df))) eqn:Em.
      - apply Hsame. now apply existsb_eqb_in.
      - rewrite (rows_of_user_absent df u Em). unfold nlargest. simpl.
        apply firstn_nil. }
    destruct Hu as [Hu|Hu].
    + assert (Hl : (length (nlargest k (rows_of_user user u df)) <= k)%nat)
        by apply firstn_le_length.
      rewrite Hk in Hl. lia.
    + apply Hu. rewrite <- Hk. unfold nlargest.
      apply StronglySorted_firstn, sort_desc_sorted.
  - intros _. reflexivity.
  - intros _. apply groups_sorted_by_user; [apply group_keys_sorted|].
    intros v r Hr. apply in_nlargest, filter_In in Hr as [_ Hr].
    now apply Nat.eqb_eq in Hr.
  - intros Hall. exfalso. destruct Hdiff as [u [_ Hne]]. apply Hne.
    destruct (Hall u) as [Hlen Hs]. unfold nlargest.
    rewrite sort_desc_sorted_id.
    + apply firstn_all2. exact Hlen.
    + clear - Hs. induction Hs as [|r l Hs IH Hr]; constructor; auto.
      eapply Forall_impl; [|exact Hr]. intros a Ha. now apply Qlt_le_weak.
Qed.

(** Two users with one prediction each, user 2 first: the result of
    [get_top_k_items] with [k = 3] is the table in its order, and that
    order is not the order of the users. *)
Lemma get_top_k_items_order_witness :
  map row_of (get_top_k_items unsorted_pred (Some 3%nat)) = unsorted_pred /\
  ~ StronglySorted le (map user unsorted_pred).
Proof.
  split.
  - apply (get_top_k_items_order unsorted_pred 3). intros u.
    destruct u as [|[|[|u]]]; simpl; (split; [lia|repeat constructor]).
  - intros H. inversion H as [|? ? _ Hall]; subst.
    inversion Hall as [|? ? Hle _]; subst. lia.
Defined.

(** X4.  With [k=None] nothing is selected or reordered: the rows are
    those of the table, in its order, and each user's rows are ranked
    1, 2, ... in that order. *)
Theorem get_top_k_items_none_keeps_rows (df : DataFrame) (u : nat) :
  map row_of (get_top_k_items df None) = df /\
  map rank (rows_of_user (fun p => user (row_of p)) u
                         (get_top_k_items df None))
  = seq 1 (length (rows_of_user user u df)).
Proof.
  unfold get_top_k_items. split; [apply add_ranks_rows|].
  now destruct (add_ranks_user [] df u) as [_ H].
Qed.

End TopItems.

(* ----------------------------------------------------------------- *)
(** ** What [merge_ranking_true_pred] returns *)

Section MergeFacts.

Import Stages.

Lemma merge_returns_top_k rating_true rating_pred m k threshold r :
  merge_ranking_true_pred rating_true rating_pred m k threshold = Ok r ->
  exists top_k, top_k_of m k threshold = Some top_k.
Proof.
  unfold merge_ranking_true_pred, top_k_of.
  destruct m as [s|]; [|eauto].
  destruct (String.eqb s "top_k"); [eauto|].
  destruct (String.eqb s "by_threshold"); [eauto|discriminate].
Qed.

Lemma merge_returns_stages rating_true rating_pred m k threshold
      df_hit df_hit_count n_users :
  merge_ranking_true_pred rating_true rating_pred m k threshold
  = Ok (df_hit, df_hit_count, n_users) ->
  exists top_k,
    top_k_of m k threshold = Some top_k /\
    df_hit = hits rating_true rating_pred top_k /\
    df_hit_count = hit_counts rating_true rating_pred top_k /\
    n_users = length (common_users rating_true rating_pred).
Proof.
  intros H. destruct (merge_returns_top_k _ _ _ _ _ _ H) as [top_k Ht].
  destruct (Ranking_stages rating_true rating_pred m k threshold top_k Ht)
    as [Hm _].
  rewrite Hm in H. injection H as <- <- <-. eauto.
Qed.

Lemma in_common_users rating_true rating_pred u :
  In u (common_users rating_true rating_pred) <->
  In u (map user rating_true) /\ In u (map user rating_pred).
Proof.
  unfold common_users. rewrite in_unique, filter_In.
  unfold mem. now rewrite existsb_eqb_in.
Qed.

Lemma in_restrict users df r :
  In r (restrict users df) <-> In r df /\ In (user r) users.
Proof.
  unfold restrict. rewrite filter_In. unfold mem.
  now rewrite existsb_eqb_in.
Qed.

(** A ranked prediction comes from the predictions of the common users and
    has a rank from 1 on, at most [k] when [k] rows are asked for. *)
Lemma in_top_items df top_k p :
  In p (get_top_k_items df top_k) ->
  In (row_of p) df /\ (1 <= rank p)%nat /\
  (forall k, top_k = Some k -> (rank p <= k)%nat).
Proof.
  intros Hp.
  set (u := user (row_of p)).
  assert (Hu : In p (rows_of_user (fun q => user (row_of q)) u
                                  (get_top_k_items df top_k))).
  { apply filter_In. split; auto. apply Nat.eqb_refl. }
  assert (Hr : In (rank p)
                  (map rank (rows_of_user (fun q => user (row_of q)) u
                                          (get_top_k_items df top_k))))
    by now apply in_map.
  destruct top_k as [k|].
  - destruct (get_top_k_items_keeps_rows_aux df k u) as [Hlen Hranks].
    rewrite Hranks in Hr. apply in_seq in Hr.
    split; [now apply in_get_top_k_items in Hp|]. split; [lia|].
    intros k' E. injection E as <-. lia.
  - destruct (add_ranks_user [] df u) as [_ Hranks].
    unfold get_top_k_items in Hr, Hp. rewrite Hranks in Hr.
    apply in_seq in Hr. simpl in Hr.
    split; [now apply in_add_ranks in Hp|]. split; [lia|discriminate].
Qed.

Lemma in_merge_hits h top truth :
  In h (merge_hits top truth) <->
  exists p t, In p top /\ In t truth /\ user t = user (row_of p) /\
              item t = item (row_of p) /\ h = hit_of p.
Proof.
  unfold merge_hits. rewrite in_flat_map. split.
  - intros [p [Hp Hh]]. apply in_map_iff in Hh as [t [<- Ht]].
    apply filter_In in Ht as [Ht E]. apply andb_true_iff in E as [E1 E2].
    apply Nat.eqb_eq in E1, E2. exists p, t. auto.
  - intros [p [t [Hp [Ht [E1 [E2 ->]]]]]]. exists p. split; auto.
    apply in_map_iff. exists t. split; auto.
    apply filter_In. split; auto.
    now rewrite E1, E2, !Nat.eqb_refl.
Qed.

(** X5.  Every row of [df_hit] is a (user, item) pair that occurs in both
    tables, with a rank from 1 on; the rank is at most [k] under ["top_k"]
    and at most [threshold] under ["by_threshold"]. *)
Theorem merge_hits_occur_in_both
        (rating_true rating_pred : DataFrame) (m : relevancy)
        (k threshold : nat) (df_hit : list hit)
        (df_hit_count : list hit_count) (n_users : nat) :
  merge_ranking_true_pred rating_true rating_pred m k threshold
  = Ok (df_hit, df_hit_count, n_users) ->
  forall h, In h df_hit ->
    (exists t, In t rating_true /\ user t = h_user h /\ item t = h_item h) /\
    (exists p, In p rating_pred /\ user p = h_user h /\ item p = h_item h) /\
    (1 <= h_rank h)%nat /\
    (m = top_k_method -> (h_rank h <= k)%nat) /\
    (m = by_threshold_method -> (h_rank h <= threshold)%nat).
Proof.
  intros H h Hh.
  destruct (merge_returns_stages _ _ _ _ _ _ _ _ H)
    as [top_k [Ht [-> [_ _]]]].
  unfold hits in Hh. apply in_merge_hits in Hh
    as [p [t [Hp [Ht' [E1 [E2 ->]]]]]].
  apply in_top_items in Hp as [Hp [Hr1 Hrk]].
  apply in_restrict in Hp as [Hp _]. apply in_restrict in Ht' as [Ht' _].
  simpl. repeat split; eauto.
  - intros ->. apply Hrk. now injection Ht as <-.
  - intros ->. apply Hrk. now injection Ht as <-.
Qed.

Lemma merge_hits_occur_in_both_witness :
  merge_ranking_true_pred scenario_true scenario_pred top_k_method 2
                          DEFAULT_THRESHOLD
  = Ok ([mk_hit 1 1 1; mk_hit 1 2 2; mk_hit 2 3 1],
        [mk_hit_count 1 2 2; mk_hit_count 2 1 1], 2%nat) /\
  (exists t, In t scenario_true /\ user t = 1%nat /\ item t = 2%nat) /\
  (h_rank (mk_hit 1 2 2) <= 2)%nat.
Proof.
  split; [reflexivity|].
  destruct (merge_hits_occur_in_both
              scenario_true scenario_pred top_k_method 2 DEFAULT_THRESHOLD
              [mk_hit 1 1 1; mk_hit 1 2 2; mk_hit 2 3 1]
              [mk_hit_count 1 2 2; mk_hit_count 2 1 1] 2 eq_refl
              (mk_hit 1 2 2))
    as [Ht [_ [_ [Hk _]]]]; [simpl; auto|].
  split; [exact Ht|now apply Hk].
Defined.

(** X6.  With [relevancy_method=None] the predictions are not cut:
    every (user, item) pair that occurs in both tables is a row of
    [df_hit]. *)
Theorem merge_none_finds_every_pair
        (rating_true rating_pred : DataFrame) (k threshold : nat)
        (t p : rating) :
  In t rating_true -> In p rating_pred ->
  user t = user p -> item t = item p ->
  exists df_hit df_hit_count n_users h,
    merge_ranking_true_pred rating_true rating_pred None k threshold
    = Ok (df_hit, df_hit_count, n_users) /\
    In h df_hit /\ h_user h = user t /\ h_item h = item t.
Proof.
  intros Ht Hp Eu Ei.
  destruct (Ranking_stages rating_true rating_pred None k threshold None
              eq_refl) as [Hm _].
  assert (Hu : In (user t) (common_users rating_true rating_pred)).
  { apply in_common_users. split; [now apply in_map|].
    rewrite Eu. now apply in_map. }
  assert (Hp' : In p (restrict (common_users rating_true rating_pred)
                               rating_pred)).
  { apply in_restrict. split; auto. now rewrite <- Eu. }
  assert (Hq : exists q,
             In q (get_top_k_items
                     (restrict (common_users rating_true rating_pred)
                               rating_pred) None) /\ row_of q = p).
  { unfold get_top_k_items.
    rewrite <- (add_ranks_rows [] (restrict _ rating_pred)) in Hp'.
    apply in_map_iff in Hp' as [q [E Hq]]. eauto. }
  destruct Hq as [q [Hq Eq]].
  do 3 eexists. exists (hit_of q). split; [exact Hm|].
  split; [|unfold hit_of; simpl; rewrite Eq; auto].
  unfold hits. apply in_merge_hits. exists q, t. repeat split; auto.
  - apply in_restrict. auto.
  - now rewrite Eq.
  - now rewrite Eq.
Qed.

Lemma merge_none_finds_every_pair_witness :
  In (mk_rating 2 3 1) scenario_true /\
  In (mk_rating 2 3 (7#10)) scenario_pred /\
  exists df_hit df_hit_count n_users h,
    merge_ranking_true_pred scenario_true scenario_pred None 2
                            DEFAULT_THRESHOLD
    = Ok (df_hit, df_hit_count, n_users) /\
    In h df_hit /\ h_user h = 2%nat /\ h_item h = 3%nat.
Proof.
  split; [simpl; auto|]. split; [simpl; auto 10|].
  apply (merge_none_finds_every_pair
           scenario_true scenario_pred 2 DEFAULT_THRESHOLD
           (mk_rating 2 3 1) (mk_rating 2 3 (7#10))); simpl; auto 10.
Defined.

Lemma rows_of_user_restrict users df u :
  In u users ->
  rows_of_user user u (restrict users df) = rows_of_user user u df.
Proof.
  intros Hu. unfold rows_of_user, restrict. rewrite filter_comm.
  induction df as [|r df IH]; simpl; auto.
  destruct (Nat.eqb_spec (user r) u) as [E|E]; simpl; auto.
  assert (Hm : mem (user r) users = true)
    by (apply existsb_eqb_in; now rewrite E).
  now rewrite Hm, IH.
Qed.

(** X7.  [df_hit_count] has one row for each user with a hit and no other
    row; its [hit] is the number of that user's rows in [df_hit] and its
    [actual] the number of that user's rows in the truth table. *)
Theorem merge_hit_counts_count
        (rating_true rating_pred : DataFrame) (m : relevancy)
        (k threshold : nat) (df_hit : list hit)
        (df_hit_count : list hit_count) (n_users : nat) :
  merge_ranking_true_pred rating_true rating_pred m k threshold
  = Ok (df_hit, df_hit_count, n_users) ->
  NoDup (map c_user df_hit_count) /\
  (forall c, In c df_hit_count ->
     c_hit c = length (rows_of_user h_user (c_user c) df_hit) /\
     (1 <= c_hit c)%nat /\
     c_actual c = length (rows_of_user user (c_user c) rating_true)) /\
  (forall h, In h df_hit ->
     exists c, In c df_hit_count /\ c_user c = h_user h).
Proof.
  intros H.
  destruct (merge_returns_stages _ _ _ _ _ _ _ _ H)
    as [top_k [Ht [-> [-> _]]]].
  unfold hit_counts.
  set (users := common_users rating_true rating_pred).
  set (dh := hits rating_true rating_pred top_k).
  set (T := restrict users rating_true).
  assert (Hhit : forall h, In h dh ->
             In (h_user h) users /\
             exists t, In t T /\ user t = h_user h).
  { intros h Hh. unfold dh, hits in Hh.
    apply in_merge_hits in Hh as [p [t [_ [Ht' [E1 [_ ->]]]]]].
    fold users T in Ht'. simpl. rewrite <- E1. split; [|eauto].
    now apply in_restrict in Ht' as [_ Ht']. }
  split; [|split].
  - apply merge_counts_users; rewrite count_by_user_keys;
      apply NoDup_group_keys.
  - intros c Hc. unfold merge_counts in Hc.
    apply in_flat_map in Hc as [hc [Hhc Hc]].
    apply in_map_iff in Hc as [a [<- Ha]].
    apply filter_In in Ha as [Ha E]. apply Nat.eqb_eq in E.
    unfold count_by_user in Hhc, Ha.
    apply in_map_iff in Hhc as [u [<- Hu]].
    apply in_map_iff in Ha as [u' [<- Hu']].
    simpl in *. subst u'.
    apply (proj1 (in_group_keys _ _)) in Hu.
    apply in_map_iff in Hu as [h [Eh Hh]].
    destruct (Hhit h Hh) as [Hin _]. rewrite Eh in Hin.
    split; [reflexivity|]. split.
    + assert (In h (rows_of_user h_user u dh))
        by (apply filter_In; split; [assumption|now apply Nat.eqb_eq]).
      destruct (rows_of_user h_user u dh); [contradiction|simpl; lia].
    + unfold T. now rewrite rows_of_user_restrict.
  - intros h Hh. destruct (Hhit h Hh) as [_ [t [Ht' Et]]].
    exists (mk_hit_count (h_user h)
              (length (rows_of_user h_user (h_user h) dh))
              (length (rows_of_user user (h_user h) T))).
    split; [|reflexivity].
    unfold merge_counts. apply in_flat_map.
    exists (h_user h, length (rows_of_user h_user (h_user h) dh)).
    split.
    + unfold count_by_user. apply in_map_iff. exists (h_user h).
      split; auto. apply in_group_keys. now apply in_map.
    + apply in_map_iff.
      exists (h_user h, length (rows_of_user user (h_user h) T)).
      split; auto. apply filter_In. split; [|apply Nat.eqb_refl].
      unfold count_by_user. apply in_map_iff. exists (h_user h).
      split; auto. apply in_group_keys. rewrite <- Et. now apply in_map.
Qed.

Lemma merge_hit_counts_count_witness :
  merge_ranking_true_pred scenario_true scenario_pred top_k_method 2
                          DEFAULT_THRESHOLD
  = Ok ([mk_hit 1 1 1; mk_hit 1 2 2; mk_hit 2 3 1],
        [mk_hit_count 1 2 2; mk_hit_count 2 1 1], 2%nat) /\
  c_actual (mk_hit_count 1 2 2)
  = length (rows_of_user user 1%nat scenario_true).
Proof.
  split; [reflexivity|].
  destruct (merge_hit_counts_count
              scenario_true scenario_pred top_k_method 2 DEFAULT_THRESHOLD
              [mk_hit 1 1 1; mk_hit 1 2 2; mk_hit 2 3 1]
              [mk_hit_count 1 2 2; mk_hit_count 2 1 1] 2 eq_refl)
    as [_ [Hcount _]].
  apply (Hcount (mk_hit_count 1 2 2)). simpl. auto.
Defined.

(** X8.  [n_users] is the number of distinct users that occur in both
    tables, whichever table is given first. *)
Theorem merge_n_users_common
        (rating_true rating_pred : DataFrame) (m : relevancy)
        (k threshold : nat) (df_hit : list hit)
        (df_hit_count : list hit_count) (n_users : nat) :
  merge_ranking_true_pred rating_true rating_pred m k threshold
  = Ok (df_hit, df_hit_count, n_users) ->
  (exists users,
     NoDup users /\ length users = n_users /\
     forall u, In u users <->
               In u (map user rating_true) /\ In u (map user rating_pred)) /\
  exists df_hit' df_hit_count',
    merge_ranking_true_pred rating_pred rating_true m k threshold
    = Ok (df_hit', df_hit_count', n_users).
Proof.
  intros H.
  destruct (merge_returns_stages _ _ _ _ _ _ _ _ H)
    as [top_k [Ht [_ [_ ->]]]].
  split.
  - exists (common_users rating_true rating_pred).
    split; [apply NoDup_unique|]. split; [reflexivity|].
    apply in_common_users.
  - destruct (Ranking_stages rating_pred rating_true m k threshold top_k Ht)
      as [Hm _].
    do 2 eexists. rewrite Hm. do 2 f_equal.
    apply Permutation_length, NoDup_Permutation; try apply NoDup_unique.
    intros u. rewrite !in_common_users. tauto.
Qed.

Lemma merge_n_users_common_witness :
  merge_ranking_true_pred scenario_true scenario_pred top_k_method 2
                          DEFAULT_THRESHOLD
  = Ok ([mk_hit 1 1 1; mk_hit 1 2 2; mk_hit 2 3 1],
        [mk_hit_count 1 2 2; mk_hit_count 2 1 1], 2%nat) /\
  exists df_hit' df_hit_count',
    merge_ranking_true_pred scenario_pred scenario_true top_k_method 2
                            DEFAULT_THRESHOLD
    = Ok (df_hit', df_hit_count', 2%nat).
Proof.
  split; [reflexivity|].
  destruct (merge_n_users_common
              scenario_true scenario_pred top_k_method 2 DEFAULT_THRESHOLD
              [mk_hit 1 1 1; mk_hit 1 2 2; mk_hit 2 3 1]
              [mk_hit_count 1 2 2; mk_hit_count 2 1 1] 2 eq_refl)
    as [_ Hsym].
  exact Hsym.
Defined.

End MergeFacts.

(* ----------------------------------------------------------------- *)
(** ** The value of NDCG\@k *)

Section NDCGValue.

Import Stages.
Local Open Scope R_scope.

Lemma Rsum_pos l : l <> [] -> Forall (fun v => 0 < v) l -> 0 < Rsum l.
Proof.
  intros Hne Hall. destruct Hall as [|v l Hv Hl]; [congruence|].
  simpl. assert (0 <= Rsum l).
  { apply Rsum_nonneg. eapply Forall_impl; [|exact Hl]. simpl. intros; lra. }
  lra.
Qed.

Lemma hit_counts_cover top truth h :
  In h (merge_hits top truth) ->
  exists c,
    In c (merge_counts (count_by_user h_user (merge_hits top truth))
                       (count_by_user user truth)) /\
    c_user c = h_user h.
Proof.
  intros Hh. set (dh := merge_hits top truth) in *.
  assert (Ht : exists t, In t truth /\ user t = h_user h).
  { apply in_merge_hits in Hh as [p [t [_ [Ht [E [_ ->]]]]]]. simpl. eauto. }
  destruct Ht as [t [Ht Et]].
  exists (mk_hit_count (h_user h)
            (length (rows_of_user h_user (h_user h) dh))
            (length (rows_of_user user (h_user h) truth))).
  split; [|reflexivity].
  unfold merge_counts. apply in_flat_map.
  exists (h_user h, length (rows_of_user h_user (h_user h) dh)). split.
  - unfold count_by_user. apply in_map_iff. exists (h_user h).
    split; auto. apply in_group_keys. now apply in_map.
  - apply in_map_iff.
    exists (h_user h, length (rows_of_user user (h_user h) truth)).
    split; auto. apply filter_In. split; [|apply Nat.eqb_refl].
    unfold count_by_user. apply in_map_iff. exists (h_user h).
    split; auto. apply in_group_keys. rewrite <- Et. now apply in_map.
Qed.

(** The value computed from ranked predictions of which every user has at
    most [k], with distinct items, ranked from 1. *)
Lemma ndcg_value_bounds (top : list ranked) (T : DataFrame)
      (users : list nat) (k : nat) :
  NoDup (map key T) -> NoDup users ->
  (forall p, In p top -> In (user (row_of p)) users) ->
  (forall u,
     let top_u := rows_of_user (fun p => user (row_of p)) u top in
     (length top_u <= k)%nat /\
     map rank top_u = seq 1 (length top_u) /\
     NoDup (map (fun p => item (row_of p)) top_u)) ->
  let dh := merge_hits top T in
  let dc := merge_counts (count_by_user h_user dh) (count_by_user user T) in
  0 <= ndcg_value dh dc (length users) k <= 1 /\
  (dh <> [] -> 0 < ndcg_value dh dc (length users) k).
Proof.
  intros HT Hnd Husers Htop dh dc.
  unfold ndcg_value. rewrite map_map. cbn [fst snd].
  set (g := fun h => (h, discount (h_rank h))).
  set (D := dcg_by_user (map g dh)).
  set (ratio := fun x : R * hit_count => fst x / idcg k (c_actual (snd x))).
  assert (Hdc : NoDup (map c_user dc)).
  { apply merge_counts_users; rewrite count_by_user_keys;
      apply NoDup_group_keys. }
  assert (Hlen : (length (merge_dcg D dc) <= length users)%nat).
  { eapply Nat.le_trans; [now apply merge_dcg_length|].
    unfold D, dcg_by_user. rewrite length_map, map_map. cbn [fst g].
    apply NoDup_incl_length; [apply NoDup_unique|].
    intros u Hu. apply (proj1 (in_unique _ _)) in Hu.
    apply in_map_iff in Hu as [h [<- Hh]].
    apply in_merge_hits in Hh as [p [t [Hp [_ [_ [_ ->]]]]]].
    simpl. now apply Husers. }
  assert (Hall : Forall (fun v => 0 < v <= 1) (map ratio (merge_dcg D dc))).
  { apply Forall_forall. intros v Hv.
    apply in_map_iff in Hv as [r [<- Hr]].
    apply in_merge_dcg in Hr as [Hd Hc].
    set (u := c_user (snd r)) in *.
    apply in_merge_counts in Hc as [_ Hc]. fold u in Hc.
    unfold count_by_user in Hc. apply in_map_iff in Hc as [u' [E _]].
    injection E as -> Ha.
    unfold D, dcg_by_user in Hd. apply in_map_iff in Hd as [u' [E Hu]].
    injection E as -> Hg.
    rewrite map_map in Hu. cbn [fst g] in Hu.
    apply (proj1 (in_unique _ _)) in Hu.
    unfold rows_of_user in Hg at 1. rewrite filter_map_swap in Hg.
    cbn [fst g] in Hg. rewrite map_map in Hg. cbn [snd g] in Hg.
    fold (rows_of_user h_user u dh) in Hg.
    assert (Hne : rows_of_user h_user u dh <> []).
    { apply in_map_iff in Hu as [h [E Hh]]. intros Hnil.
      assert (Hin : In h (rows_of_user h_user u dh))
        by (apply filter_In; split; [assumption|now apply Nat.eqb_eq]).
      now rewrite Hnil in Hin. }
    unfold dh in Hg, Hne. rewrite hits_of_user in Hg, Hne by assumption.
    destruct (Htop u) as [L1 [L2 L3]].
    set (top_u := rows_of_user (fun p => user (row_of p)) u top) in *.
    assert (L4 : forall p, In p top_u -> user (row_of p) = u).
    { intros p Hp. apply filter_In in Hp as [_ E].
      now apply Nat.eqb_eq in E. }
    destruct (user_dcg_bound top_u T k u HT L1 L2 L3 L4) as [Hb Hpos].
    assert (Hgt : 0 < fst r).
    { rewrite <- Hg. apply Rsum_pos.
      - intros Hnil. apply map_eq_nil in Hnil. contradiction.
      - apply Forall_forall. intros v Hv.
        apply in_map_iff in Hv as [h [<- Hh]].
        apply in_map_iff in Hh as [p [<- Hp]].
        apply filter_In in Hp as [Hp _]. simpl.
        assert (Hr : In (rank p) (map rank top_u)) by now apply in_map.
        rewrite L2 in Hr. apply in_seq in Hr.
        apply discount_pos. lia. }
    unfold ratio. rewrite <- Ha. specialize (Hpos Hne).
    rewrite Hg in Hb. split.
    - now apply Rdiv_lt_0_compat.
    - apply Rdiv_ratio_range; assumption. }
  assert (Hrange : Forall (fun v => 0 <= v <= 1) (map ratio (merge_dcg D dc))).
  { eapply Forall_impl; [|exact Hall]. simpl. intros; lra. }
  apply Rsum_bounded in Hrange. rewrite length_map in Hrange.
  assert (HlenR := le_INR _ _ Hlen).
  split; [apply Rdiv_unit_range; lra|].
  intros Hne.
  assert (Hrows : merge_dcg D dc <> []).
  { destruct dh as [|h dh'] eqn:Edh; [congruence|].
    assert (Hh : In h (merge_hits top T))
      by (fold dh; rewrite Edh; now left).
    destruct (hit_counts_cover top T h Hh) as [c [Hc Ec]].
    fold dh in Hc. rewrite Edh in Hc. fold dc in Hc.
    assert (Hd : exists d, In d D /\ fst d = h_user h).
    { unfold D, dcg_by_user. eexists. split.
      - apply in_map_iff. exists (h_user h). split; [reflexivity|].
        apply in_unique. rewrite map_map. cbn [fst g]. simpl. now left.
      - reflexivity. }
    destruct Hd as [d [Hd Ed]].
    intros Hnil.
    assert (Hin : In (snd d, c) (merge_dcg D dc)).
    { unfold merge_dcg. apply in_flat_map. exists d. split; auto.
      apply in_map_iff. exists c. split; auto.
      apply filter_In. split; auto. apply Nat.eqb_eq. congruence. }
    now rewrite Hnil in Hin. }
  assert (Hsum : 0 < Rsum (map ratio (merge_dcg D dc))).
  { apply Rsum_pos.
    - intros Hnil. apply map_eq_nil in Hnil. contradiction.
    - eapply Forall_impl; [|exact Hall]. simpl. intros; lra. }
  assert (Hn : 0 < INR (length users)).
  { destruct (merge_dcg D dc) eqn:E; [congruence|].
    simpl in Hlen. apply lt_0_INR. lia. }
  now apply Rdiv_lt_0_compat.
Qed.

End NDCGValue.

Section NDCGMethods.

Import Stages.
Local Open Scope R_scope.

(** The ranked predictions of the common users satisfy what
    [ndcg_value_bounds] asks for when no user keeps more than [k] rows. *)
Lemma top_items_bounded (rating_pred : DataFrame) (users : list nat)
      (top_k : option nat) (k : nat) :
  NoDup (map key rating_pred) ->
  match top_k with
  | Some t => (t <= k)%nat
  | None => forall u, (length (rows_of_user user u rating_pred) <= k)%nat
  end ->
  let top := get_top_k_items (restrict users rating_pred) top_k in
  (forall p, In p top -> In (user (row_of p)) users) /\
  (forall u,
     let top_u := rows_of_user (fun p => user (row_of p)) u top in
     (length top_u <= k)%nat /\
     map rank top_u = seq 1 (length top_u) /\
     NoDup (map (fun p => item (row_of p)) top_u)).
Proof.
  intros Hnd Hk top.
  assert (Hpc : NoDup (map key (restrict users rating_pred)))
    by now apply NoDup_map_filter.
  split.
  - intros p Hp. apply in_top_items in Hp as [Hp _].
    now apply in_restrict in Hp as [_ Hp].
  - intros u. unfold top. destruct top_k as [t|].
    + destruct (get_top_k_items_user (restrict users rating_pred) t u Hpc)
        as [L1 [L2 [L3 _]]].
      cbv zeta. repeat split; auto. lia.
    + destruct (add_ranks_user [] (restrict users rating_pred) u)
        as [Hrows Hranks].
      unfold get_top_k_items. cbv zeta.
      set (top_u := rows_of_user _ u (add_ranks [] _)) in *.
      assert (Hlen : length top_u
                     = length (rows_of_user user u
                                 (restrict users rating_pred)))
        by now rewrite <- Hrows, length_map.
      repeat split.
      * rewrite Hlen. unfold rows_of_user, restrict. rewrite filter_comm.
        eapply Nat.le_trans; [apply filter_length_le|apply Hk].
      * rewrite Hranks, Hlen. reflexivity.
      * rewrite <- (map_map row_of item), Hrows.
        apply (NoDup_items_of_user _ u).
        -- now apply NoDup_map_filter.
        -- intros r Hr. apply filter_In in Hr as [_ E].
           now apply Nat.eqb_eq in E.
Qed.

(** X9.  In exact arithmetic, on tables without repeated (user, item)
    pairs, the value of [ndcg_at_k] is between 0 and 1 under ["top_k"],
    under ["by_threshold"] when the threshold is at most [k], and under
    [None] when no user has more than [k] predictions.  This bounds the
    quotient of the sums as real numbers; the rounding of the machine sums,
    which can move a perfect score just above 1, is not part of it. *)
Theorem ndcg_at_k_exact_range
        (rating_true rating_pred : DataFrame) (m : relevancy)
        (k threshold : nat) :
  valid_table rating_true = true ->
  valid_table rating_pred = true ->
  m = top_k_method \/
  (m = by_threshold_method /\ (threshold <= k)%nat) \/
  (m = None /\
   forall u, (length (rows_of_user user u rating_pred) <= k)%nat) ->
  exists v,
    ndcg_at_k rating_true rating_pred m k threshold = Ok v /\ 0 <= v <= 1.
Proof.
  intros Vt Vp Hm. apply distinct_keys_NoDup in Vt, Vp.
  assert (Htop : exists top_k,
             top_k_of m k threshold = Some top_k /\
             match top_k with
             | Some t => (t <= k)%nat
             | None => forall u,
                 (length (rows_of_user user u rating_pred) <= k)%nat
             end).
  { destruct Hm as [-> | [[-> Hle] | [-> Hle]]].
    - exists (Some k). split; [reflexivity|apply Nat.le_refl].
    - exists (Some threshold). split; [reflexivity|assumption].
    - exists None. split; [reflexivity|assumption]. }
  destruct Htop as [top_k [Ht Hk]].
  destruct (Ranking_stages rating_true rating_pred m k threshold top_k Ht)
    as [_ ->].
  destruct (Nat.eqb _ 0).
  { exists 0. split; [reflexivity|lra]. }
  eexists. split; [reflexivity|].
  destruct (top_items_bounded rating_pred
              (common_users rating_true rating_pred) top_k k Vp Hk)
    as [Husers Hrows].
  apply (ndcg_value_bounds _ (restrict _ rating_true)
           (common_users rating_true rating_pred) k); auto.
  - now apply NoDup_map_filter.
  - apply NoDup_unique.
Qed.

Lemma ndcg_at_k_exact_range_witness :
  valid_table scenario_true = true /\
  valid_table scenario_pred = true /\
  exists v,
    ndcg_at_k scenario_true scenario_pred by_threshold_method 3 2 = Ok v /\
    0 <= v <= 1.
Proof.
  split; [reflexivity|]. split; [reflexivity|].
  apply (ndcg_at_k_exact_range
           scenario_true scenario_pred by_threshold_method 3 2);
    try reflexivity.
  right. left. split; [reflexivity|lia].
Defined.

(** X10.  On tables without repeated (user, item) pairs and with the
    default method, [ndcg_at_k] is 0 when the merge finds no hit and
    positive as soon as it finds one. *)
Theorem ndcg_at_k_positive_with_hits
        (rating_true rating_pred : DataFrame) (k threshold : nat) :
  valid_table rating_true = true ->
  valid_table rating_pred = true ->
  exists df_hit df_hit_count n_users v,
    merge_ranking_true_pred rating_true rating_pred top_k_method k threshold
    = Ok (df_hit, df_hit_count, n_users) /\
    ndcg_at_k rating_true rating_pred top_k_method k threshold = Ok v /\
    (df_hit = [] -> v = 0) /\ (df_hit <> [] -> 0 < v).
Proof.
  intros Vt Vp. apply distinct_keys_NoDup in Vt, Vp.
  destruct (Ranking_stages rating_true rating_pred top_k_method k threshold
              (Some k) eq_refl) as [Hm Hn].
  do 4 eexists. split; [exact Hm|]. split; [exact Hn|].
  split.
  - intros ->. reflexivity.
  - intros Hne.
    destruct (top_items_bounded rating_pred
                (common_users rating_true rating_pred) (Some k) k Vp
                (Nat.le_refl k)) as [Husers Hrows].
    assert (HT : NoDup (map key (restrict
                                   (common_users rating_true rating_pred)
                                   rating_true)))
      by now apply NoDup_map_filter.
    destruct (ndcg_value_bounds _ _ _ k HT (NoDup_unique _) Husers Hrows)
      as [_ Hpos].
    specialize (Hpos Hne).
    destruct (hits rating_true rating_pred (Some k)) eqn:E;
      [congruence|].
    cbn [length Nat.eqb]. rewrite <- E. exact Hpos.
Qed.

Lemma ndcg_at_k_positive_with_hits_witness :
  valid_table scenario_true = true /\
  valid_table scenario_pred = true /\
  exists v,
    ndcg_at_k scenario_true scenario_pred top_k_method 2 DEFAULT_THRESHOLD
    = Ok v /\ 0 < v.
Proof.
  split; [reflexivity|]. split; [reflexivity|].
  destruct (ndcg_at_k_positive_with_hits
              scenario_true scenario_pred 2 DEFAULT_THRESHOLD eq_refl eq_refl)
    as [df_hit [df_hit_count [n_users [v [Hm [Hv [_ Hpos]]]]]]].
  exists v. split; [exact Hv|]. apply Hpos.
  vm_compute in Hm. injection Hm as <- _ _. discriminate.
Defined.

(** X11.  When no (user, item) pair of the predictions occurs in the
    truth table, [ndcg_at_k] returns 0 under each of the three relevancy
    methods. *)
Theorem ndcg_at_k_disjoint_is_zero
        (rating_true rating_pred : DataFrame) (m : relevancy)
        (k threshold : nat) :
  (forall t p, In t rating_true -> In p rating_pred ->
               user t = user p -> item t <> item p) ->
  m = top_k_method \/ m = by_threshold_method \/ m = None ->
  ndcg_at_k rating_true rating_pred m k threshold = Ok 0.
Proof.
  intros Hdisj Hm.
  assert (Ht : exists top_k, top_k_of m k threshold = Some top_k).
  { destruct Hm as [-> | [-> | ->]]; eexists; reflexivity. }
  destruct Ht as [top_k Ht].
  destruct (Ranking_stages rating_true rating_pred m k threshold top_k Ht)
    as [_ ->].
  destruct (hits rating_true rating_pred top_k) as [|h dh] eqn:E;
    [reflexivity|].
  exfalso.
  assert (Hh : In h (hits rating_true rating_pred top_k))
    by (rewrite E; now left).
  unfold hits in Hh.
  apply in_merge_hits in Hh as [p [t [Hp [Ht' [E1 [E2 _]]]]]].
  apply in_top_items in Hp as [Hp _].
  apply in_restrict in Hp as [Hp _]. apply in_restrict in Ht' as [Ht' _].
  exact (Hdisj t (row_of p) Ht' Hp E1 E2).
Qed.

Lemma ndcg_at_k_disjoint_is_zero_witness :
  ndcg_at_k scenario_true disjoint_pred by_threshold_method 2
            DEFAULT_THRESHOLD = Ok 0.
Proof.
  apply (ndcg_at_k_disjoint_is_zero scenario_true disjoint_pred
           by_threshold_method 2 DEFAULT_THRESHOLD); [|auto].
  intros t p Ht Hp Eu Ei. simpl in Ht, Hp.
  destruct Ht as [<-|[<-|[<-|[]]]]; destruct Hp as [<-|[<-|[]]];
    simpl in *; congruence.
Defined.

End NDCGMethods.

(* ----------------------------------------------------------------- *)
(** ** The order of the rows of the truth table *)

Section TruthOrder.

Import Stages.

Lemma filter_perm {A} (f : A -> bool) l l' :
  Permutation l l' -> Permutation (filter f l) (filter f l').
Proof.
  induction 1 as [|a l l' H IH|a b l|l1 l2 l3 H1 IH1 H2 IH2]; simpl; auto.
  - destruct (f a); auto.
  - destruct (f a), (f b); auto. apply perm_swap.
  - eapply perm_trans; eauto.
Qed.

Lemma map_const_length {A B} (c : B) (l l' : list A) :
  length l = length l' -> map (fun _ => c) l = map (fun _ => c) l'.
Proof.
  revert l'. induction l as [|a l IH]; intros [|a' l'] H; simpl in *;
    try discriminate; auto.
  f_equal. apply IH. congruence.
Qed.

Lemma merge_hits_perm top truth truth' :
  Permutation truth truth' -> merge_hits top truth = merge_hits top truth'.
Proof.
  intros Hp. unfold merge_hits. apply flat_map_ext. intros p.
  apply map_const_length, Permutation_length, filter_perm, Hp.
Qed.

Lemma mem_ext u l l' :
  (forall v, In v l <-> In v l') -> mem u l = mem u l'.
Proof.
  intros H. unfold mem.
  destruct (existsb (Nat.eqb u) l) eqn:E, (existsb (Nat.eqb u) l') eqn:E';
    auto.
  - apply existsb_eqb_in, H, existsb_eqb_in in E. congruence.
  - apply existsb_eqb_in, H, existsb_eqb_in in E'. congruence.
Qed.

Lemma sorted_lt_ext l l' :
  StronglySorted lt l -> StronglySorted lt l' ->
  (forall u, In u l <-> In u l') -> l = l'.
Proof.
  intros Hl. revert l'.
  induction Hl as [|a l Hl IH Ha]; intros l' Hl' Hin.
  - destruct l' as [|b l']; auto.
    exfalso. apply (Hin b). now left.
  - destruct Hl' as [|b l' Hl' Hb].
    + exfalso. apply (Hin a). now left.
    + rewrite Forall_forall in Ha, Hb.
      assert (E : a = b).
      { destruct (proj1 (Hin a) (or_introl eq_refl)) as [E|Hab]; auto.
        destruct (proj2 (Hin b) (or_introl eq_refl)) as [E|Hba]; auto.
        apply Hb in Hab. apply Ha in Hba. lia. }
      subst b. f_equal. apply IH; auto.
      intros u. split; intros Hu.
      * destruct (proj1 (Hin u) (or_intror Hu)) as [E|H]; auto.
        apply Ha in Hu. lia.
      * destruct (proj2 (Hin u) (or_intror Hu)) as [E|H]; auto.
        apply Hb in Hu. lia.
Qed.

Lemma group_keys_ext l l' :
  (forall u, In u l <-> In u l') -> group_keys l = group_keys l'.
Proof.
  intros H. apply sorted_lt_ext; try apply group_keys_sorted.
  intros u. rewrite !in_group_keys. apply H.
Qed.

Lemma count_by_user_perm (df df' : DataFrame) :
  Permutation df df' -> count_by_user user df = count_by_user user df'.
Proof.
  intros Hp. unfold count_by_user.
  rewrite (group_keys_ext (map user df) (map user df')).
  - apply map_ext. intros u. f_equal.
    apply Permutation_length, filter_perm, Hp.
  - intros u. split; apply Permutation_in;
      [|apply Permutation_sym]; now apply Permutation_map.
Qed.

Lemma ndcg_at_k_invalid rating_true rating_pred m k threshold :
  top_k_of m k threshold = None ->
  merge_ranking_true_pred rating_true rating_pred m k threshold
  = Raise (NotImplementedError "Invalid relevancy_method") /\
  ndcg_at_k rating_true rating_pred m k threshold
  = Raise (NotImplementedError "Invalid relevancy_method").
Proof.
  unfold ndcg_at_k, merge_ranking_true_pred, top_k_of.
  destruct m as [s|]; [|discriminate].
  destruct (String.eqb s "top_k"); [discriminate|].
  destruct (String.eqb s "by_threshold"); [discriminate|].
  split; reflexivity.
Qed.

(** X12.  The order of the rows of the truth table does not matter:
    [merge_ranking_true_pred] and [ndcg_at_k] give the same result on a
    truth table and on any rearrangement of its rows. *)
Theorem ndcg_at_k_truth_order
        (rating_true rating_true' rating_pred : DataFrame) (m : relevancy)
        (k threshold : nat) :
  Permutation rating_true rating_true' ->
  merge_ranking_true_pred rating_true rating_pred m k threshold
  = merge_ranking_true_pred rating_true' rating_pred m k threshold /\
  ndcg_at_k rating_true rating_pred m k threshold
  = ndcg_at_k rating_true' rating_pred m k threshold.
Proof.
  intros Hp.
  destruct (top_k_of m k threshold) as [top_k|] eqn:Ht.
  2:{ destruct (ndcg_at_k_invalid rating_true rating_pred m k threshold Ht)
        as [-> ->].
      destruct (ndcg_at_k_invalid rating_true' rating_pred m k threshold Ht)
        as [-> ->]. auto. }
  destruct (Ranking_stages rating_true rating_pred m k threshold top_k Ht)
    as [-> ->].
  destruct (Ranking_stages rating_true' rating_pred m k threshold top_k Ht)
    as [-> ->].
  assert (Hin : forall u,
             In u (common_users rating_true rating_pred) <->
             In u (common_users rating_true' rating_pred)).
  { intros u. rewrite !in_common_users.
    assert (In u (map user rating_true) <-> In u (map user rating_true')).
    { split; apply Permutation_in;
        [|apply Permutation_sym]; now apply Permutation_map. }
    tauto. }
  assert (Hn : length (common_users rating_true rating_pred)
               = length (common_users rating_true' rating_pred)).
  { apply Permutation_length, NoDup_Permutation;
      try apply NoDup_unique. exact Hin. }
  assert (Hr : forall df,
             restrict (common_users rating_true rating_pred) df
             = restrict (common_users rating_true' rating_pred) df).
  { intros df. unfold restrict. apply filter_ext. intros r.
    now apply mem_ext. }
  assert (HT : Permutation
                 (restrict (common_users rating_true rating_pred)
                           rating_true)
                 (restrict (common_users rating_true' rating_pred)
                           rating_true')).
  { rewrite <- Hr. now apply filter_perm. }
  assert (Hh : hits rating_true rating_pred top_k
               = hits rating_true' rating_pred top_k).
  { unfold hits. rewrite <- (Hr rating_pred). now apply merge_hits_perm. }
  assert (Hc : hit_counts rating_true rating_pred top_k
               = hit_counts rating_true' rating_pred top_k).
  { unfold hit_counts. rewrite Hh. f_equal. now apply count_by_user_perm. }
  rewrite Hh, Hc, Hn. auto.
Qed.

Lemma ndcg_at_k_truth_order_witness :
  Permutation scenario_true (rev scenario_true) /\
  ndcg_at_k scenario_true scenario_pred top_k_method 2 DEFAULT_THRESHOLD
  = ndcg_at_k (rev scenario_true) scenario_pred top_k_method 2
              DEFAULT_THRESHOLD.
Proof.
  split; [apply Permutation_rev|].
  apply (ndcg_at_k_truth_order scenario_true (rev scenario_true)
           scenario_pred top_k_method 2 DEFAULT_THRESHOLD).
  apply Permutation_rev.
Defined.

End TruthOrder.

(* ----------------------------------------------------------------- *)
(** ** The validation at the end of an epoch *)

Section EpochEnd.

Import Stages.

Variable KModel : Type.
Variable predict : KModel -> ndarray -> ndarray.
Variable map_back_sparse : ndarray -> DataFrame.

Local Abbreviation Metrics := Callback.Metrics.
Local Abbreviation Saved := (Callback.Saved KModel).
Local Abbreviation record_ndcg := (Callback.record_ndcg KModel).
Local Abbreviation on_epoch_end :=
  (Callback.on_epoch_end KModel predict map_back_sparse).
Local Abbreviation epochs := (Callback.epochs KModel).

Local Open Scope R_scope.

(** X13.  When the callback asks for more items than the validation
    matrix has columns, [on_epoch_end] raises the [ValueError] of the
    top-k selection: no NDCG is computed or recorded and nothing is
    saved. *)
Theorem on_epoch_end_k_above_items
        (model : KModel) (self : Metrics) (saved : Saved) :
  same_shape (predict model (Callback.val_tr self)) (Callback.val_tr self)
  = true ->
  (0 < n_rows (Callback.val_tr self))%nat ->
  (0 < n_cols (Callback.val_tr self))%nat ->
  (n_cols (Callback.val_tr self) < Callback.k self)%nat ->
  on_epoch_end model self saved = Raise (ValueError "kth out of bounds").
Proof.
  intros Hshape Hr Hc Hk.
  assert (Hs : n_rows (predict model (Callback.val_tr self))
               = n_rows (Callback.val_tr self) /\
               n_cols (predict model (Callback.val_tr self))
               = n_cols (Callback.val_tr self)).
  { unfold same_shape in Hshape. apply andb_true_iff in Hshape as [H1 H2].
    apply Nat.eqb_eq in H1, H2. auto. }
  destruct Hs as [Hr' Hc'].
  unfold Callback.on_epoch_end, recommend_k_items, recommend_from_score,
    mask_assign_0.
  rewrite Hshape. cbn [bind].
  rewrite argpartition_range_out_of_bounds; [reflexivity| |];
    unfold size; simpl; nia.
Qed.

Lemma NoDup_distinct_keys l : NoDup l -> distinct_keys l = true.
Proof.
  induction 1 as [|p l Hp Hl IH]; simpl; auto.
  rewrite IH, andb_true_r. apply negb_true_iff.
  destruct (existsb _ l) eqn:E; auto.
  apply existsb_exists in E as [q [Hq E]].
  apply andb_true_iff in E as [E1 E2]. apply Nat.eqb_eq in E1, E2.
  exfalso. apply Hp. destruct p, q; simpl in *; subst; assumption.
Qed.

(** X14.  When the mapper returns tables without repeated (user, item)
    pairs, the prediction has the shape of the validation matrix and
    [1 <= k <= n_items], [on_epoch_end] returns: the top-k selection and
    [ndcg_at_k] on the mapped tables both return, and the NDCG that is
    compared with [best_ndcg] and appended to the list is the value of
    [ndcg_at_k].  In exact arithmetic that value is between 0 and 1; the
    rounding of the machine sums is not part of this bound. *)
Theorem on_epoch_end_records_unit_ndcg
        (model : KModel) (self : Metrics) (saved : Saved) :
  (forall m, valid_table (map_back_sparse m) = true) ->
  same_shape (predict model (Callback.val_tr self)) (Callback.val_tr self)
  = true ->
  (0 < Callback.k self <= n_cols (Callback.val_tr self))%nat ->
  exists top_k NDCG,
    recommend_k_items (predict model) (Callback.val_tr self)
                      (Callback.k self) true = Ok top_k /\
    ndcg_at_k (map_back_sparse (Callback.val_te self))
              (map_back_sparse top_k) top_k_method (Callback.k self)
              DEFAULT_THRESHOLD = Ok NDCG /\
    0 <= NDCG <= 1 /\
    on_epoch_end model self saved = Ok (record_ndcg NDCG model self saved).
Proof.
  intros Hvalid Hshape Hk.
  assert (Hc : n_cols (predict model (Callback.val_tr self))
               = n_cols (Callback.val_tr self)).
  { unfold same_shape in Hshape. apply andb_true_iff in Hshape as [_ H2].
    now apply Nat.eqb_eq in H2. }
  assert (Hrec : exists top_k,
             recommend_k_items (predict model) (Callback.val_tr self)
                               (Callback.k self) true = Ok top_k).
  { unfold recommend_k_items, recommend_from_score, mask_assign_0.
    rewrite Hshape. cbn [bind].
    match goal with
    | |- context [argpartition_range ?a ?k] =>
        destruct (argpartition_range_ok a k) as [top [-> _]];
          [simpl; lia|]
    end.
    cbn [bind]. eexists. reflexivity. }
  destruct Hrec as [top_k Hrec]. exists top_k.
  set (rating_true := map_back_sparse (Callback.val_te self)).
  set (rating_pred := map_back_sparse top_k).
  assert (Hndcg : exists NDCG,
             ndcg_at_k rating_true rating_pred top_k_method (Callback.k self)
                       DEFAULT_THRESHOLD = Ok NDCG /\
             0 <= NDCG <= 1).
  { destruct (Ranking_stages rating_true rating_pred top_k_method
                (Callback.k self) DEFAULT_THRESHOLD
                (Some (Callback.k self)) eq_refl) as [_ Hn].
    pose proof (distinct_keys_NoDup _ (Hvalid (Callback.val_te self)))
      as Vt.
    assert (Vp : NoDup (map key rating_pred))
      by apply distinct_keys_NoDup, Hvalid.
    rewrite Hn.
    destruct (Nat.eqb _ 0); [exists 0; split; [reflexivity|lra]|].
    eexists. split; [reflexivity|].
    destruct (top_items_bounded rating_pred
                (common_users rating_true rating_pred)
                (Some (Callback.k self)) (Callback.k self) Vp
                (Nat.le_refl _)) as [Husers Hrows].
    apply (ndcg_value_bounds _ (restrict _ rating_true)
             (common_users rating_true rating_pred) (Callback.k self));
      auto.
    - now apply NoDup_map_filter.
    - apply NoDup_unique. }
  destruct Hndcg as [NDCG [Hn Hb]]. exists NDCG.
  split; [exact Hrec|]. split; [exact Hn|]. split; [exact Hb|].
  unfold Callback.on_epoch_end. rewrite Hrec. cbn [bind].
  fold rating_true rating_pred. rewrite Hn. reflexivity.
Qed.

(** Epochs that do not exceed the best value leave the files alone. *)
Lemma epochs_below_best_keep_saved
      (obs : list (R * KModel)) (self : Metrics) (saved : Saved) :
  (forall NDCG, In NDCG (map fst obs) -> NDCG <= Callback.best_ndcg self) ->
  snd (epochs obs self saved) = saved.
Proof.
  revert self saved. induction obs as [|[NDCG model] obs IH];
    intros self saved H; simpl; auto.
  pose proof (record_ndcg_step KModel NDCG model self saved) as Hstep.
  destruct (record_ndcg NDCG model self saved) as [self1 saved1].
  destruct Hstep as [_ [Hnot [Hbest _]]].
  rewrite IH.
  - apply Hnot. unfold Callback.persists. intros [Hgt _].
    specialize (H NDCG (or_introl eq_refl)). lra.
  - intros v Hv. rewrite Hbest.
    eapply Rle_trans; [apply H; simpl; auto|apply Rmax_l].
Qed.

(** X15.  A run of epochs writes nothing when no save path is set, and
    nothing when no NDCG exceeds the best value so far; from a new
    callback this means that a model whose NDCG stays at 0 is never
    saved. *)
Theorem epochs_without_improvement_save_nothing
        (obs : list (R * KModel)) (self : Metrics) (saved : Saved) :
  Callback.save_path self = None \/
  (forall NDCG, In NDCG (map fst obs) -> NDCG <= Callback.best_ndcg self) ->
  snd (epochs obs self saved) = saved.
Proof.
  revert self saved. induction obs as [|[NDCG model] obs IH];
    intros self saved H; simpl; auto.
  pose proof (record_ndcg_step KModel NDCG model self saved) as Hstep.
  destruct (record_ndcg NDCG model self saved) as [self1 saved1].
  destruct Hstep as [_ [Hnot [Hbest [_ [_ Hpath]]]]].
  assert (Hsaved : saved1 = saved).
  { apply Hnot. unfold Callback.persists. intros [Hgt Hp].
    destruct H as [H|H]; [contradiction|].
    specialize (H NDCG (or_introl eq_refl)). lra. }
  subst saved1. apply IH.
  destruct H as [H|H]; [left; congruence|right].
  intros v Hv. rewrite Hbest.
  eapply Rle_trans; [apply H; simpl; auto|apply Rmax_l].
Qed.

(** X16.  With a save path, once some NDCG exceeds the best value so far,
    the file written last holds the model of the first epoch that reached
    the final [best_ndcg]. *)
Theorem epochs_last_saved_is_best
        (obs : list (R * KModel)) (self : Metrics) (saved : Saved)
        (path : string) :
  Callback.save_path self = Some path ->
  (exists NDCG, In NDCG (map fst obs) /\ NDCG > Callback.best_ndcg self) ->
  exists earlier before best model after,
    snd (epochs obs self saved) = earlier ++ [(path, model)] /\
    obs = before ++ (best, model) :: after /\
    Callback.best_ndcg (fst (epochs obs self saved)) = best /\
    (forall o, In o before -> fst o < best) /\
    (forall o, In o after -> fst o <= best).
Proof.
  revert self saved. induction obs as [|[NDCG model] obs IH];
    intros self saved Hpath [v [Hv Hgt]]; [contradiction|].
  cbn [Callback.epochs].
  pose proof (record_ndcg_step KModel NDCG model self saved) as Hstep.
  destruct (record_ndcg NDCG model self saved) as [self1 saved1] eqn:Estep.
  destruct Hstep as [Hyes [Hnot [Hbest [Hmono [_ Hpath1]]]]].
  rewrite Hpath in Hpath1.
  destruct (Exists_dec (fun x => x > Callback.best_ndcg self1) (map fst obs))
    as [Hex|Hnone].
  { intros x. destruct (Rgt_dec x (Callback.best_ndcg self1)); auto. }
  - apply Exists_exists in Hex.
    destruct (IH self1 saved1 Hpath1 Hex)
      as [earlier [before [best [m [after [Hs [Ho [Hb [Hlt Hle]]]]]]]]].
    exists earlier, ((NDCG, model) :: before), best, m, after.
    repeat split; auto.
    + rewrite Ho. reflexivity.
    + intros o [<-|Ho']; [|now apply Hlt]. simpl.
      assert (Hge : Callback.best_ndcg self1 <= best).
      { rewrite <- Hb.
        pose proof (epochs_best KModel obs self1 saved1) as He.
        destruct (epochs obs self1 saved1) as [s2 sv2].
        destruct He as [He _]. simpl. rewrite He.
        apply fold_left_Rmax_ge. }
      destruct Hex as [x [Hx Hxgt]].
      assert (Hxle : x <= best).
      { rewrite <- Hb.
        pose proof (epochs_best KModel obs self1 saved1) as He.
        destruct (epochs obs self1 saved1) as [s2 sv2].
        destruct He as [He _]. simpl. rewrite He.
        clear - Hx. revert Hx. generalize (Callback.best_ndcg self1).
        induction (map fst obs) as [|b l IHl]; intros a Hin; simpl in *;
          [contradiction|].
        destruct Hin as [->|Hin]; [|now apply IHl].
        eapply Rle_trans; [apply (Rmax_r a x)|apply fold_left_Rmax_ge]. }
      rewrite Hbest in Hxgt.
      pose proof (Rmax_r (Callback.best_ndcg self) NDCG). lra.
  - assert (Hrest : forall x, In x (map fst obs) ->
                      x <= Callback.best_ndcg self1).
    { intros x Hx. destruct (Rle_dec x (Callback.best_ndcg self1)); auto.
      exfalso. apply Hnone, Exists_exists. exists x. split; auto. lra. }
    assert (Hnew : NDCG > Callback.best_ndcg self).
    { destruct Hv as [<-|Hv]; [assumption|].
      apply Hrest in Hv. rewrite Hbest in Hv.
      destruct (Rgt_dec NDCG (Callback.best_ndcg self)); auto.
      rewrite Rmax_left in Hv by lra. lra. }
    destruct Hyes as [path' [Ep Hsaved1]].
    { split; [assumption|congruence]. }
    rewrite Hpath in Ep. injection Ep as <-.
    pose proof (epochs_below_best_keep_saved obs self1 saved1 Hrest)
      as Hsame.
    pose proof (epochs_best KModel obs self1 saved1) as He.
    destruct (epochs obs self1 saved1) as [s2 sv2].
    destruct He as [He _]. simpl in Hsame. subst sv2.
    exists saved, [], NDCG, model, obs. simpl.
    assert (Hb1 : Callback.best_ndcg self1 = NDCG)
      by (rewrite Hbest; apply Rmax_right; lra).
    repeat split; auto.
    + rewrite He, Hb1. clear - Hrest Hb1. rewrite Hb1 in Hrest.
      revert Hrest. generalize NDCG.
      induction (map fst obs) as [|b l IHl]; intros a Hall; simpl; auto.
      rewrite Rmax_left by (apply Hall; now left).
      apply IHl. intros x Hx. apply Hall. now right.
    + contradiction.
    + intros o Ho. rewrite <- Hb1. apply Hrest. now apply in_map.
Qed.

End EpochEnd.

Lemma NoDup_flat_map_keys {A} (f : A -> list (nat * nat)) (l : list A) :
  NoDup l ->
  (forall a, In a l -> NoDup (f a)) ->
  (forall a b x, In a l -> In b l -> In x (f a) -> In x (f b) -> a = b) ->
  NoDup (flat_map f l).
Proof.
  intros Hl Hf Hdisj. induction Hl as [|a l Ha Hl IH]; simpl;
    [constructor|].
  apply NoDup_app.
  - apply Hf. now left.
  - apply IH.
    + intros b Hb. apply Hf. now right.
    + intros b c x Hb Hc. apply Hdisj; now right.
  - intros x Hx Hin. apply in_flat_map in Hin as [b [Hb Hxb]].
    assert (a = b) by (apply (Hdisj a b x); simpl; auto).
    subst b. contradiction.
Qed.

(** The sample mapper lists every position at most once. *)
Lemma map_back_sparse_valid m :
  valid_table (Mapper.map_back_sparse m) = true.
Proof.
  apply NoDup_distinct_keys. unfold Mapper.map_back_sparse.
  set (cell := fun i j => if Qeq_bool (at_ m i j) 0 then []
                          else [mk_rating i j (at_ m i j)]).
  assert (Hcell : forall i j x, In x (map key (cell i j)) -> x = (i, j)).
  { intros i j x. unfold cell. destruct (Qeq_bool (at_ m i j) 0); simpl;
      [contradiction|]. intros [<-|[]]. reflexivity. }
  assert (Hmap : forall (B : Type) (f : B -> list rating) (l : list B),
             map key (flat_map f l) = flat_map (fun b => map key (f b)) l).
  { intros B f l. induction l as [|b l IH]; simpl; auto.
    now rewrite map_app, IH. }
  rewrite Hmap.
  apply NoDup_flat_map_keys; [apply seq_NoDup| |].
  - intros i _. rewrite Hmap.
    apply NoDup_flat_map_keys; [apply seq_NoDup| |].
    + intros j _. unfold cell.
      destruct (Qeq_bool (at_ m i j) 0); simpl; repeat constructor. tauto.
    + intros j j' x _ _ Hx Hx'.
      apply Hcell in Hx, Hx'. congruence.
  - intros i i' x _ _ Hx Hx'. rewrite Hmap in Hx, Hx'.
    apply in_flat_map in Hx as [j [_ Hx]].
    apply in_flat_map in Hx' as [j' [_ Hx']].
    apply Hcell in Hx, Hx'. congruence.
Qed.

Lemma on_epoch_end_k_above_items_witness :
  same_shape score_1x2 clicks_1x2 = true /\
  Callback.on_epoch_end unit (fun _ _ => score_1x2) Mapper.map_back_sparse
                        tt Mapper.metrics_k3 []
  = Raise (ValueError "kth out of bounds").
Proof.
  split; [reflexivity|].
  apply (on_epoch_end_k_above_items
           unit (fun _ _ => score_1x2) Mapper.map_back_sparse
           tt Mapper.metrics_k3 []);
    simpl; try reflexivity; lia.
Defined.

Lemma on_epoch_end_records_unit_ndcg_witness :
  same_shape (Mapper.predict tt clicks_2x3) clicks_2x3 = true /\
  exists NDCG,
    (0 <= NDCG <= 1)%R /\
    Callback.on_epoch_end unit Mapper.predict Mapper.map_back_sparse
                          tt Mapper.metrics_k2 []
    = Ok (Callback.record_ndcg unit NDCG tt Mapper.metrics_k2 []).
Proof.
  split; [reflexivity|].
  destruct (on_epoch_end_records_unit_ndcg
              unit Mapper.predict Mapper.map_back_sparse tt
              Mapper.metrics_k2 [])
    as [top_k [NDCG [_ [_ [Hb Hr]]]]].
  - exact map_back_sparse_valid.
  - reflexivity.
  - simpl. lia.
  - exists NDCG. split; assumption.
Defined.

Lemma epochs_without_improvement_save_nothing_witness :
  snd (Callback.epochs nat [(0, 1%nat); (-1, 2%nat); (0, 3%nat)]%R
         (Callback.on_train_begin
            (Callback.__init__ clicks_2x3 clicks_2x3 2
                               (Some "vae.h5"%string))) [])
  = [].
Proof.
  apply (epochs_without_improvement_save_nothing nat).
  right. simpl. intros NDCG [<-|[<-|[<-|[]]]]; lra.
Defined.

Lemma epochs_last_saved_is_best_witness :
  exists earlier before after,
    snd (Callback.epochs nat [(3 / 10, 1%nat); (5 / 10, 2%nat);
                              (5 / 10, 3%nat)]%R
           (Callback.on_train_begin
              (Callback.__init__ clicks_2x3 clicks_2x3 2
                                 (Some "vae.h5"%string))) [])
    = earlier ++ [("vae.h5"%string, 2%nat)] /\
    [(3 / 10, 1%nat); (5 / 10, 2%nat); (5 / 10, 3%nat)]%R
    = before ++ ((5 / 10)%R, 2%nat) :: after.
Proof.
  destruct (epochs_last_saved_is_best nat
              [(3 / 10, 1%nat); (5 / 10, 2%nat); (5 / 10, 3%nat)]%R
              (Callback.on_train_begin
                 (Callback.__init__ clicks_2x3 clicks_2x3 2
                                    (Some "vae.h5"%string))) []
              "vae.h5"%string eq_refl)
    as [earlier [before [best [model [after [Hs [Ho [_ [Hlt Hle]]]]]]]]].
  { exists (3 / 10)%R. simpl. split; [auto|lra]. }
  assert (Hbm : best = (5 / 10)%R /\ model = 2%nat).
  { destruct before as [|o1 [|o2 [|o3 before]]]; simpl in Ho.
    - injection Ho as <- <- <-. exfalso.
      specialize (Hle ((5 / 10)%R, 2%nat)). simpl in Hle.
      assert ((5 / 10 <= 3 / 10)%R) by (apply Hle; auto). lra.
    - injection Ho as <- <- <- <-. auto.
    - injection Ho as <- <- <- <-. exfalso.
      specialize (Hlt ((5 / 10)%R, 2%nat)). simpl in Hlt.
      assert ((5 / 10 < 5 / 10)%R) by (apply Hlt; auto). lra.
    - exfalso. injection Ho as _ _ _ Ho. destruct before; discriminate. }
  destruct Hbm as [-> ->].
  exists earlier, before, after. auto.
Defined.

(* ----------------------------------------------------------------- *)
(** ** The generator as an endless stream *)

Lemma in_slice {A} (l : list A) a b x : In x (slice l a b) -> In x l.
Proof.
  unfold slice. intros H. apply in_firstn in H.
  rewrite <- (firstn_skipn (Z.to_nat (slice_bound (Z.of_nat (length l)) a)) l).
  apply in_or_app. now right.
Qed.

Lemma slice_length {A} (l : list A) a b :
  (length (slice l a b) <= length l)%nat.
Proof.
  unfold slice. rewrite length_firstn, length_skipn. lia.
Qed.

Lemma slice_length_step {A} (l : list A) bs c :
  (0 <= bs)%Z -> (0 <= c)%Z ->
  (Z.of_nat (length (slice l (bs * c) (bs * (c + 1)))) <= bs)%Z.
Proof.
  intros Hbs Hc. unfold slice, slice_bound.
  rewrite length_firstn, length_skipn.
  destruct (Z.ltb_spec (bs * c) 0); [nia|].
  destruct (Z.ltb_spec (bs * (c + 1)) 0); [nia|]. nia.
Qed.

Lemma slice_all {A} (l : list A) b :
  (Z.of_nat (length l) <= b)%Z -> slice l 0 b = l.
Proof.
  intros H. unfold slice, slice_bound.
  destruct (Z.ltb_spec 0 0); [lia|].
  destruct (Z.ltb_spec b 0); [lia|].
  rewrite (Z.min_l 0), (Z.min_r b) by lia. rewrite Z.sub_0_r, Nat2Z.id.
  simpl. apply firstn_all.
Qed.

Lemma take_rows_incl {A} (m : list A) idx r :
  take_rows m idx = Ok r -> incl r m.
Proof.
  intros H. apply take_rows_Forall2 in H.
  induction H as [|i x idx r Hi _ IH]; intros y Hy; [contradiction|].
  destruct Hy as [<-|Hy]; [|now apply IH].
  eapply nth_error_In; eauto.
Qed.

Lemma map_nth_error_seq {A} (pre m : list A) :
  map (nth_error (pre ++ m)) (seq (length pre) (length m)) = map Some m.
Proof.
  revert pre. induction m as [|x m IH]; intros pre; simpl; auto.
  f_equal.
  - rewrite nth_error_app2 by lia. now rewrite Nat.sub_diag.
  - specialize (IH (pre ++ [x])).
    rewrite <- app_assoc, length_app in IH. simpl in IH.
    now rewrite Nat.add_1_r in IH.
Qed.

(** Selecting the rows of a matrix in a shuffled order permutes them. *)
Lemma take_rows_perm {A} (m : list A) idx r :
  Permutation (seq 0 (length m)) idx ->
  take_rows m idx = Ok r -> Permutation m r.
Proof.
  intros Hperm H. apply take_rows_Forall2 in H.
  assert (E : map (nth_error m) idx = map Some r).
  { clear Hperm. induction H as [|i x idx r Hi _ IH]; simpl; auto.
    now rewrite Hi, IH. }
  apply (Permutation_map (nth_error m)) in Hperm.
  rewrite E in Hperm.
  pose proof (map_nth_error_seq [] m) as Hm. simpl in Hm.
  rewrite Hm in Hperm.
  apply Permutation_map_inv in Hperm as [l3 [E3 Hp]].
  assert (m = l3).
  { clear - E3. revert l3 E3. induction m as [|x m IH]; intros [|y l3] E;
      simpl in E; try discriminate; auto.
    injection E as -> E. f_equal. auto. }
  subst l3. now apply Permutation_sym.
Qed.

(* ----------------------------------------------------------------- *)
(** ** Drawing from the generator *)

Section GeneratorStream.

Variable KModel : Type.
Variable _create_model : Z -> Z -> Z -> Q -> Q -> result KModel.
Variable Row : Type.
Variable RandomState : Type.
Variable seeded : Z -> RandomState.
Variable np_random_shuffle : RandomState -> list nat -> list nat.

(** [np.random.shuffle] permutes its argument. *)
Hypothesis shuffle_permutes :
  forall st l, Permutation l (np_random_shuffle st l).

Local Abbreviation StandardVAE := (VAE.StandardVAE KModel).
Local Abbreviation Generator := (VAE.Generator Row).
Local Abbreviation __init__ := (VAE.__init__ KModel _create_model).
Local Abbreviation nn_batch_generator :=
  (VAE.nn_batch_generator KModel Row RandomState seeded np_random_shuffle).
Local Abbreviation next := (VAE.next KModel Row).
Local Abbreviation draw := (Batches.draw KModel Row).

(** The generator that [nn_batch_generator] creates. *)
Lemma nn_batch_generator_returns (self : StandardVAE) (x_train : list Row)
      (fresh : RandomState) :
  exists sigma xs,
    Permutation (seq 0 (length x_train)) sigma /\
    take_rows x_train sigma = Ok xs /\
    nn_batch_generator self x_train fresh
    = Ok (VAE.mk_Generator Row sigma xs xs 0).
Proof.
  unfold VAE.nn_batch_generator.
  set (sigma := np_random_shuffle _ _).
  assert (Hperm : Permutation (seq 0 (length x_train)) sigma)
    by apply shuffle_permutes.
  destruct (take_rows_in_range x_train sigma) as [xs Hxs].
  { intros i Hi. apply (Permutation_in _ (Permutation_sym Hperm)) in Hi.
    apply in_seq in Hi. lia. }
  exists sigma, xs. rewrite Hxs. auto.
Qed.

(** A turn of the loop in any state that the loop reaches. *)
Lemma next_returns (self : StandardVAE) (x_train : list Row) sigma xs c :
  Permutation (seq 0 (length x_train)) sigma ->
  take_rows x_train sigma = Ok xs ->
  (0 <= c)%Z ->
  exists rows c',
    next self (VAE.mk_Generator Row sigma xs xs c)
    = Ok (rows, rows, VAE.mk_Generator Row sigma xs xs c') /\
    (0 <= c')%Z /\
    incl rows x_train /\
    (length rows <= length x_train)%nat /\
    ((0 <= VAE.batch_size _ self)%Z ->
     (Z.of_nat (length rows) <= VAE.batch_size _ self)%Z).
Proof.
  intros Hperm Hxs Hc.
  assert (Hlen : length sigma = length x_train).
  { rewrite <- (Permutation_length Hperm). apply length_seq. }
  assert (Hxlen : length xs = length x_train).
  { rewrite (take_rows_length _ _ _ Hxs). exact Hlen. }
  unfold VAE.next. cbn [VAE.shuffle_index VAE.counter VAE.x VAE.y].
  set (ib := slice sigma _ _).
  destruct (take_rows_in_range xs ib) as [rows Hrows].
  { intros i Hi. apply in_slice in Hi.
    apply (Permutation_in _ (Permutation_sym Hperm)) in Hi.
    apply in_seq in Hi. lia. }
  rewrite Hrows. cbn [bind].
  exists rows. eexists. split; [reflexivity|].
  assert (Hrl : length rows = length ib)
    by (eapply take_rows_length; eauto).
  split; [|split; [|split]].
  - destruct (Z.geb_spec (c + 1) (VAE.number_of_batches _ self)); lia.
  - intros r Hr. apply (take_rows_incl _ _ _ Hrows) in Hr.
    now apply (take_rows_incl _ _ _ Hxs).
  - rewrite Hrl, <- Hlen. apply slice_length.
  - intros Hbs. rewrite Hrl. now apply slice_length_step.
Qed.

Lemma draw_S t (self : StandardVAE) (g : Generator) :
  draw (S t) self g
  = (r <- next self g ;;
     let '(x_batch, y_batch, g') := r in
     rest <- draw t self g' ;;
     let '(batches, g'') := rest in
     Ok ((x_batch, y_batch) :: batches, g'')).
Proof. reflexivity. Qed.

(** X17.  The generator never ends and never raises: whatever the batch
    size and the number of batches of the model (zero and negative values
    included) and whatever the training matrix, [nn_batch_generator]
    returns a generator from which any number of batches can be drawn.
    In each batch the target is the input, the rows are rows of [x_train],
    there are no more of them than [x_train] has, and, for a batch size
    that is not negative, no more than the batch size. *)
Theorem nn_batch_generator_never_stops
        (self : StandardVAE) (x_train : list Row) (fresh : RandomState) :
  exists g,
    nn_batch_generator self x_train fresh = Ok g /\
    forall t, exists batches g',
      draw t self g = Ok (batches, g') /\
      length batches = t /\
      Forall (fun batch =>
                snd batch = fst batch /\
                incl (fst batch) x_train /\
                (length (fst batch) <= length x_train)%nat /\
                ((0 <= VAE.batch_size _ self)%Z ->
                 (Z.of_nat (length (fst batch)) <= VAE.batch_size _ self)%Z))
             batches.
Proof.
  destruct (nn_batch_generator_returns self x_train fresh)
    as [sigma [xs [Hperm [Hxs Hg]]]].
  eexists. split; [exact Hg|].
  assert (H : forall t c, (0 <= c)%Z -> exists batches g',
               draw t self (VAE.mk_Generator Row sigma xs xs c)
               = Ok (batches, g') /\
               length batches = t /\
               Forall (fun batch =>
                snd batch = fst batch /\
                incl (fst batch) x_train /\
                (length (fst batch) <= length x_train)%nat /\
                ((0 <= VAE.batch_size _ self)%Z ->
                 (Z.of_nat (length (fst batch)) <= VAE.batch_size _ self)%Z))
             batches).
  { induction t as [|t IH]; intros c Hc.
    - exists [], (VAE.mk_Generator Row sigma xs xs c). simpl. auto.
    - destruct (next_returns self x_train sigma xs c Hperm Hxs Hc)
        as [rows [c' [Hnext [Hc' [Hincl [Hlen Hbs]]]]]].
      destruct (IH c' Hc') as [batches [g' [Hdraw [Hl HF]]]].
      exists ((rows, rows) :: batches), g'.
      rewrite draw_S, Hnext. cbn [bind]. rewrite Hdraw. cbn [bind].
      split; [reflexivity|]. split; [simpl; now f_equal|].
      constructor; auto. }
  intros t. apply H. lia.
Qed.

(** X18.  With a batch size that is at least the number of users, every
    batch is the whole training matrix: the same rows in the same shuffled
    order at every turn, input and target alike, and the generator is after
    each turn as it was before. *)
Theorem nn_batch_generator_whole_matrix
        (a : VAE.Args) (self : StandardVAE) (x_train : list Row)
        (fresh : RandomState) :
  __init__ a = Ok self ->
  Z.of_nat (length x_train) = VAE.a_n_users a ->
  (VAE.a_n_users a <= VAE.a_batch_size a)%Z ->
  exists g rows,
    nn_batch_generator self x_train fresh = Ok g /\
    Permutation x_train rows /\
    forall t, draw t self g = Ok (repeat (rows, rows) t, g).
Proof.
  intros Hinit Hlen Hbs.
  destruct (init_fields _ _ a self Hinit) as [Hb0 [_ [Hnb [Hb _]]]].
  assert (Hpos : (0 < VAE.a_batch_size a)%Z) by lia.
  assert (Hnb1 : (VAE.number_of_batches _ self <= 1)%Z).
  { rewrite Hnb. apply Z.div_le_upper_bound; lia. }
  destruct (nn_batch_generator_returns self x_train fresh)
    as [sigma [xs [Hperm [Hxs Hg]]]].
  assert (Hsl : length sigma = length x_train).
  { rewrite <- (Permutation_length Hperm). apply length_seq. }
  assert (Hxl : length xs = length x_train).
  { rewrite (take_rows_length _ _ _ Hxs). exact Hsl. }
  destruct (take_rows_in_range xs sigma) as [rows Hrows].
  { intros i Hi. apply (Permutation_in _ (Permutation_sym Hperm)) in Hi.
    apply in_seq in Hi. lia. }
  eexists. exists rows. split; [exact Hg|]. split.
  - apply (Permutation_trans (take_rows_perm _ _ _ Hperm Hxs)).
    apply (take_rows_perm xs sigma); auto. now rewrite Hxl.
  - assert (Hnext : next self (VAE.mk_Generator Row sigma xs xs 0)
                    = Ok (rows, rows, VAE.mk_Generator Row sigma xs xs 0)).
    { unfold VAE.next. cbn [VAE.shuffle_index VAE.counter VAE.x VAE.y].
      rewrite Z.mul_0_r, Z.add_0_l, Z.mul_1_r, Hb.
      rewrite slice_all by lia. rewrite Hrows. cbn [bind].
      destruct (Z.geb_spec 1 (VAE.number_of_batches _ self)); [|lia].
      reflexivity. }
    induction t as [|t IH]; [reflexivity|].
    rewrite draw_S, Hnext. cbn [bind]. rewrite IH. reflexivity.
Qed.

End GeneratorStream.

Lemma nn_batch_generator_never_stops_witness :
  exists self g batches g',
    Sample.__init__ Batches.args_2_neg3 = Ok self /\
    Sample.nn_batch_generator self Sample.clicks_2 0%Z = Ok g /\
    Batches.draw Sample.KModel Sample.Row 4 self g = Ok (batches, g') /\
    length batches = 4%nat.
Proof.
  remember (Sample.__init__ Batches.args_2_neg3) as r eqn:E.
  vm_compute in E.
  match type of E with _ = Ok ?s => set (self := s) in * end.
  subst r.
  destruct (nn_batch_generator_never_stops
              Sample.KModel Sample.Row Sample.RandomState Sample.seeded
              Sample.np_random_shuffle (fun _ l => Permutation_rev l)
              self Sample.clicks_2 0%Z) as [g [Hg H]].
  destruct (H 4%nat) as [batches [g' [Hd [Hl _]]]].
  exists self, g, batches, g'. auto.
Defined.

Lemma nn_batch_generator_whole_matrix_witness :
  exists self g rows,
    Sample.__init__ Sample.args_2_3 = Ok self /\
    Sample.nn_batch_generator self Sample.clicks_2 0%Z = Ok g /\
    Permutation Sample.clicks_2 rows /\
    Batches.draw Sample.KModel Sample.Row 3 self g
    = Ok ([(rows, rows); (rows, rows); (rows, rows)], g).
Proof.
  remember (Sample.__init__ Sample.args_2_3) as r eqn:E.
  vm_compute in E.
  match type of E with _ = Ok ?s => set (self := s) in * end.
  subst r.
  destruct (nn_batch_generator_whole_matrix
              Sample.KModel Sample._create_model Sample.Row
              Sample.RandomState Sample.seeded Sample.np_random_shuffle
              (fun _ l => Permutation_rev l)
              Sample.args_2_3 self Sample.clicks_2 0%Z)
    as [g [rows [Hg [Hp Hd]]]].
  - reflexivity.
  - reflexivity.
  - simpl. lia.
  - exists self, g, rows. split; [reflexivity|]. split; [exact Hg|].
    split; [exact Hp|apply (Hd 3%nat)].
Defined.

(* ----------------------------------------------------------------- *)
(** ** The loss history *)

Section HistoryFacts.

Import History.

Lemma run_appends epoch logs self :
  losses (run epoch logs self)
  = losses self ++ map (fun l : Logs => l "loss"%string) logs /\
  val_losses (run epoch logs self)
  = val_losses self ++ map (fun l : Logs => l "val_loss"%string) logs.
Proof.
  revert epoch self. induction logs as [|l logs IH]; intros epoch self.
  - simpl. now rewrite !app_nil_r.
  - cbn [run map]. destruct (IH (S epoch) (on_epoch_end self epoch l))
      as [-> ->].
    unfold on_epoch_end. cbn [losses val_losses].
    now rewrite <- !app_assoc.
Qed.

(** X19.  After a training run the two lists of a [LossHistory] hold one
    entry per epoch, in the order of the epochs: the value that the logs of
    that epoch give for [loss] and for [val_loss], and [None] (not an
    exception) where the logs have no such key.  So the two lists are
    always equally long. *)
Theorem LossHistory_records_every_epoch (begin_logs : Logs)
        (logs : list Logs) :
  let history := run 0 logs (on_train_begin begin_logs) in
  losses history = map (fun l : Logs => l "loss"%string) logs /\
  val_losses history = map (fun l : Logs => l "val_loss"%string) logs /\
  length (losses history) = length logs /\
  length (val_losses history) = length (losses history).
Proof.
  intros history. unfold history.
  destruct (run_appends 0 logs (on_train_begin begin_logs)) as [-> ->].
  simpl. rewrite !length_map. auto.
Qed.

Lemma LossHistory_records_every_epoch_witness :
  losses (run 0 [logs_both 3 2; logs_train_only 1] (on_train_begin no_logs))
  = [Some 3%R; Some 1%R] /\
  val_losses (run 0 [logs_both 3 2; logs_train_only 1]
                  (on_train_begin no_logs))
  = [Some 2%R; None].
Proof.
  pose proof (LossHistory_records_every_epoch
                no_logs [logs_both 3 2; logs_train_only 1]) as H.
  cbv zeta in H. destruct H as [H1 [H2 _]].
  split; [rewrite H1|rewrite H2]; reflexivity.
Defined.

End HistoryFacts.

(* ----------------------------------------------------------------- *)
(** ** The sign of the loss, and the sample *)

Section LossSign.

Import Loss.
Local Open Scope R_scope.

Lemma Loss_Rsum_nonneg l : Forall (fun v => 0 <= v) l -> 0 <= Loss.Rsum l.
Proof. induction 1; simpl; lra. Qed.

Lemma clip_by_value_range t lo hi :
  lo <= hi -> lo <= clip_by_value t lo hi <= hi.
Proof.
  intros H. unfold clip_by_value, Rmin, Rmax.
  repeat destruct (Rle_dec _ _); lra.
Qed.

Lemma ln_nonpos x : 0 < x <= 1 -> ln x <= 0.
Proof.
  intros Hx. destruct (Req_dec x 1) as [->|Hne].
  - rewrite ln_1. lra.
  - left. rewrite <- ln_1. apply ln_increasing; lra.
Qed.

Lemma K_binary_crossentropy_nonneg target output :
  0 <= target <= 1 -> 0 <= K_binary_crossentropy target output.
Proof.
  intros Ht. unfold K_binary_crossentropy.
  assert (He : 0 < epsilon) by (unfold epsilon; lra).
  assert (He' : epsilon <= 1 - epsilon) by (unfold epsilon; lra).
  pose proof (clip_by_value_range output epsilon (1 - epsilon) He') as Hc.
  set (o := clip_by_value output epsilon (1 - epsilon)) in *.
  assert (H1 : ln (o + epsilon) <= 0)
    by (apply ln_nonpos; lra).
  assert (H2 : ln (1 - o + epsilon) <= 0)
    by (apply ln_nonpos; lra).
  nra.
Qed.

Lemma binary_crossentropy_nonneg x x_bar :
  (forall t, In t x -> 0 <= t <= 1) ->
  0 <= binary_crossentropy x x_bar.
Proof.
  intros Hx. unfold binary_crossentropy, K_mean.
  apply Rmult_le_pos.
  - apply Loss_Rsum_nonneg. apply Forall_forall. intros v Hv.
    unfold zip_with in Hv. apply in_map_iff in Hv as [[t o] [<- Hin]].
    apply in_combine_l in Hin. simpl. apply K_binary_crossentropy_nonneg.
    auto.
  - destruct (length (zip_with K_binary_crossentropy x x_bar)) as [|n].
    + simpl. rewrite Rinv_0. lra.
    + left. apply Rinv_0_lt_compat. apply lt_0_INR. lia.
Qed.

(** The Kullback-Leibler sum is never negative: [exp v >= 1 + v]. *)
Lemma kl_sum_nonneg z_mean z_log_var :
  0 <= Loss.Rsum (zip_with Rplus
                    (zip_with Rplus (map (fun v => -1 - v) z_log_var)
                              (map (fun m => m * m) z_mean))
                    (map exp z_log_var)).
Proof.
  unfold zip_with. revert z_mean.
  induction z_log_var as [|v z_log_var IH]; intros [|m z_mean]; simpl;
    try lra.
  specialize (IH z_mean). pose proof (exp_ineq1_le v). nra.
Qed.

(** X20.  The loss is never below its reconstruction term, and that term
    is never negative: for a row of clicks in [[0, 1]] that is not empty, a
    number of items and a [beta] that are not negative, and encoder
    outputs of equal length,
    [0 <= original_dim * binary_crossentropy(x, x_bar) <= loss]. *)
Theorem vae_loss_at_least_reconstruction
        (original_dim : Z) (beta : R) (z_mean z_log_var x x_bar : list R) :
  (0 <= original_dim)%Z -> 0 <= beta ->
  length z_log_var = length z_mean ->
  length x_bar = length x -> x <> [] ->
  (forall t, In t x -> 0 <= t <= 1) ->
  0 <= IZR original_dim * binary_crossentropy x x_bar
    <= _get_vae_loss original_dim beta z_mean z_log_var x x_bar.
Proof.
  intros Hd Hb _ _ _ Hx. unfold _get_vae_loss.
  pose proof (binary_crossentropy_nonneg x x_bar Hx) as Hr.
  pose proof (kl_sum_nonneg z_mean z_log_var) as Hk.
  apply IZR_le in Hd. split.
  - now apply Rmult_le_pos.
  - assert (0 <= beta * (5 / 10 * Loss.Rsum
              (zip_with Rplus
                 (zip_with Rplus (map (fun v => -1 - v) z_log_var)
                    (map (fun m => m * m) z_mean))
                 (map exp z_log_var)))).
    { apply Rmult_le_pos; [assumption|]. lra. }
    lra.
Qed.

Import Sampling.

Lemma nth_zip_with (f : R -> R -> R) a b i :
  (i < length a)%nat -> (i < length b)%nat ->
  nth i (zip_with f a b) 0 = f (nth i a 0) (nth i b 0).
Proof.
  unfold zip_with. revert b i.
  induction a as [|x a IH]; intros [|y b] [|i] Ha Hb; simpl in *;
    try lia; auto.
  apply IH; lia.
Qed.

Lemma zip_with_length (f : R -> R -> R) a b :
  length (zip_with f a b) = Nat.min (length a) (length b).
Proof. unfold zip_with. now rewrite length_map, length_combine. Qed.

(** X21.  The sample has one component per latent dimension, and
    component [i] lies at [exp(_log_var[i] / 2) * epsilon[i]] from the
    mean, so that its squared distance from the mean is the variance
    [exp(_log_var[i])] times [epsilon[i]] squared; where the noise is 0 the
    sample is the mean. *)
Theorem take_sample_deviation (epsilon _mean _log_var : list R) (i : nat) :
  length _log_var = length _mean ->
  length epsilon = length _mean ->
  (i < length _mean)%nat ->
  let z := _take_sample epsilon _mean _log_var in
  length z = length _mean /\
  (nth i z 0 - nth i _mean 0) ^ 2
  = exp (nth i _log_var 0) * nth i epsilon 0 ^ 2 /\
  (nth i epsilon 0 = 0 -> nth i z 0 = nth i _mean 0).
Proof.
  intros Hv He Hi z. unfold z, _take_sample.
  split; [|split].
  - rewrite !zip_with_length, length_map. lia.
  - rewrite !nth_zip_with;
      rewrite ?zip_with_length, ?length_map; try lia.
    rewrite (nth_indep (map (fun v => exp (v / 2)) _log_var) 0
                       (exp (0 / 2))) by (rewrite length_map; lia).
    rewrite (map_nth (fun v => exp (v / 2))).
    set (v := nth i _log_var 0).
    replace (exp v) with (exp (v / 2) * exp (v / 2))
      by (rewrite <- exp_plus; f_equal; lra).
    ring.
  - intros E.
    rewrite !nth_zip_with;
      rewrite ?zip_with_length, ?length_map; try lia.
    rewrite E. ring.
Qed.

End LossSign.

Lemma vae_loss_at_least_reconstruction_witness :
  (0 <= Loss._get_vae_loss 2 1 [0] [0] [1; 0] [1; 0])%R.
Proof.
  destruct (vae_loss_at_least_reconstruction 2 1 [0%R] [0%R]
              [1%R; 0%R] [1%R; 0%R]) as [H1 H2].
  - lia.
  - lra.
  - reflexivity.
  - reflexivity.
  - discriminate.
  - intros t [<-|[<-|[]]]; lra.
  - lra.
Defined.

Lemma take_sample_deviation_witness :
  length (Sampling._take_sample [0; 1] [3; 4] [0; 0])%R = 2%nat /\
  (nth 0 [0; 1] 0 = 0 ->
   nth 0 (Sampling._take_sample [0; 1] [3; 4] [0; 0]) 0 = nth 0 [3; 4] 0)%R.
Proof.
  destruct (take_sample_deviation [0; 1]%R [3; 4]%R [0; 0]%R 0%nat)
    as [H [_ H']].
  - reflexivity.
  - reflexivity.
  - simpl. lia.
  - split; [exact H|exact H'].
Defined.
